(** * libforth: a shallow embedding of the Forth virtual machine of libforth.c

    The development follows the layout of the C file: configuration macros,
    enumerations, the helper functions of the compiler (reader, [compile],
    [blockio], [numberify], [istrcmp], [forth_find]), the host API
    ([forth_push], [forth_pop], image save and load), the bounds check and
    the dispatch loop of [forth_run].

    Modelling conventions.
    - A cell ([forth_cell_t]) is a [Z] from 0 to 2^(8*W) - 1; every C
      expression that can leave that range is reduced by [cell].
    - The model is the build with NDEBUG undefined: [assert] and the [ck]
      macro (bounds check and debug trace) are active.
    - The VM memory [o->m] is a [list Z] of cells; pointers into it ([S],
      [o->s]) are cell or byte indices relative to [m].
    - C has no defined behaviour for an access outside [m] that is not
      guarded by [ck]; the model makes that an explicit [Undefined] outcome.
    - [longjmp] and [goto end] are outcomes of the monad the interpreter
      body is written in.
    - Files, [stderr], [clock()] and host strings live in a [world] record
      that is threaded through the instance. *)

From Stdlib Require Import ZArith List String Ascii Lia Bool.
From stdpp Require Import base option list.
Import ListNotations.
Local Open Scope Z_scope.

(* ============================ Section 1 ================================== *)
(*                     Headers and configurations macros                     *)

(** What the C file takes from its compilation environment: the header
    libforth.h (cell type, [MINIMUM_CORE_SIZE]) and the C implementation. *)
Record platform := {
  cell_bytes        : Z;     (* sizeof(forth_cell_t) *)
  big_endian        : bool;  (* IS_BIG_ENDIAN *)
  MINIMUM_CORE_SIZE : Z;     (* libforth.h *)
  sizeof_forth      : Z;     (* sizeof(struct forth), without the tail m[] *)
  CLOCKS_PER_SEC    : Z;     (* time.h *)
  char_signed       : bool;  (* is plain char a signed type? *)
  c_stdin           : Z;     (* (forth_cell_t)stdin *)
  c_stdout          : Z;     (* (forth_cell_t)stdout *)
  c_stderr          : Z;     (* (forth_cell_t)stderr *)
  addr_m            : Z;     (* (forth_cell_t)&(o->m) *)
  can_alloc         : Z -> bool; (* does calloc of that many bytes succeed? *)
  file_buffered     : bool   (* does a stream from fopen buffer a whole block? *)
}.

Definition DEFAULT_CORE_SIZE : Z := 32 * 1024.
Definition BLOCK_SIZE : Z := 1024.
Definition STRING_OFFSET : Z := 32.
Definition MAX_WORD_LENGTH : Z := 32.
Definition DICTIONARY_START : Z := STRING_OFFSET + MAX_WORD_LENGTH.
Definition WORD_LENGTH_OFFSET : Z := 8.
Definition WORD_LENGTH (FIELD1 : Z) : Z :=
  Z.land (Z.shiftr FIELD1 WORD_LENGTH_OFFSET) 255.
Definition WORD_HIDDEN (FIELD1 : Z) : Z := Z.land FIELD1 128.
Definition INSTRUCTION_MASK : Z := 127.
Definition instruction (k : Z) : Z := Z.land k INSTRUCTION_MASK.
Definition CORE_VERSION : Z := 2.
Definition EOF : Z := -1.

(* ============================ Section 2 ================================== *)
(*                     Enumerations and Constants                            *)

(** enum header *)
Definition MAGIC0 : Z := 0.
Definition MAGIC1 : Z := 1.
Definition MAGIC2 : Z := 2.
Definition MAGIC3 : Z := 3.
Definition CELL_SIZE : Z := 4.
Definition VERSION : Z := 5.
Definition ENDIAN : Z := 6.
Definition MAGIC7 : Z := 7.

(** enum registers *)
Definition DIC : Z := 6.
Definition RSTK : Z := 7.
Definition STATE : Z := 8.
Definition BASE : Z := 9.
Definition PWD : Z := 10.
Definition SOURCE_ID : Z := 11.
Definition SIN : Z := 12.
Definition SIDX : Z := 13.
Definition SLEN : Z := 14.
Definition START_ADDR : Z := 15.
Definition FIN : Z := 16.
Definition FOUT : Z := 17.
Definition STDIN : Z := 18.
Definition STDOUT : Z := 19.
Definition STDERR : Z := 20.
Definition ARGC : Z := 21.
Definition ARGV : Z := 22.
Definition DEBUG : Z := 23.
Definition INVALID : Z := 24.
Definition TOP : Z := 25.
Definition INSTRUCTION : Z := 26.
Definition STACK_SIZE : Z := 27.
Definition START_TIME : Z := 28.

(** enum input_stream; [STRING_IN] is compared after conversion to a cell. *)
Definition FILE_IN : Z := 0.
Definition STRING_IN : Z := -1.

(** enum instructions; [LAST] is the marker after the last one. *)
Inductive instructions :=
  | PUSH | COMPILE | RUN | DEFINE | IMMEDIATE | READ
  | LOAD | STORE | SUB | ADD | AND | OR
  | XOR | INV | SHL | SHR | MUL | DIV
  | LESS | MORE | EXIT | EMIT | KEY | FROMR
  | TOR | BRANCH | QBRANCH | PNUM | QUOTE | COMMA
  | EQUAL | SWAP | DUP | DROP | OVER | TAIL
  | BSAVE | BLOAD | FIND | PRINT | DEPTH | CLOCK.

Definition opcode (i : instructions) : Z :=
  match i with
  | PUSH => 0 | COMPILE => 1 | RUN => 2 | DEFINE => 3
  | IMMEDIATE => 4 | READ => 5 | LOAD => 6 | STORE => 7
  | SUB => 8 | ADD => 9 | AND => 10 | OR => 11
  | XOR => 12 | INV => 13 | SHL => 14 | SHR => 15
  | MUL => 16 | DIV => 17 | LESS => 18 | MORE => 19
  | EXIT => 20 | EMIT => 21 | KEY => 22 | FROMR => 23
  | TOR => 24 | BRANCH => 25 | QBRANCH => 26 | PNUM => 27
  | QUOTE => 28 | COMMA => 29 | EQUAL => 30 | SWAP => 31
  | DUP => 32 | DROP => 33 | OVER => 34 | TAIL => 35
  | BSAVE => 36 | BLOAD => 37 | FIND => 38 | PRINT => 39
  | DEPTH => 40 | CLOCK => 41
  end.
Coercion opcode : instructions >-> Z.

Definition LAST : Z := 42.

Definition decode (w : Z) : option instructions :=
  match w with
  | 0 => Some PUSH | 1 => Some COMPILE | 2 => Some RUN | 3 => Some DEFINE
  | 4 => Some IMMEDIATE | 5 => Some READ | 6 => Some LOAD | 7 => Some STORE
  | 8 => Some SUB | 9 => Some ADD | 10 => Some AND | 11 => Some OR
  | 12 => Some XOR | 13 => Some INV | 14 => Some SHL | 15 => Some SHR
  | 16 => Some MUL | 17 => Some DIV | 18 => Some LESS | 19 => Some MORE
  | 20 => Some EXIT | 21 => Some EMIT | 22 => Some KEY | 23 => Some FROMR
  | 24 => Some TOR | 25 => Some BRANCH | 26 => Some QBRANCH | 27 => Some PNUM
  | 28 => Some QUOTE | 29 => Some COMMA | 30 => Some EQUAL | 31 => Some SWAP
  | 32 => Some DUP | 33 => Some DROP | 34 => Some OVER | 35 => Some TAIL
  | 36 => Some BSAVE | 37 => Some BLOAD | 38 => Some FIND | 39 => Some PRINT
  | 40 => Some DEPTH | 41 => Some CLOCK
  | _ => None
  end.

(** ** Text: C strings are lists of bytes without the terminating NUL. *)

Definition bytes_of_string (s : string) : list Z :=
  map (fun c => Z.of_N (N_of_ascii c)) (list_ascii_of_string s).

Definition string_of_bytes (l : list Z) : string :=
  string_of_list_ascii (map (fun b => ascii_of_N (Z.to_N b)) l).

Definition dquote : string := String "034"%char EmptyString.
Definition newline : string := String "010"%char EmptyString.
Definition tab : string := String "009"%char EmptyString.

Definition register_names : list string :=
  [ "h"; "r"; "`state"; "base"; "pwd";
    "`source-id"; "`sin"; "`sidx"; "`slen"; "`start-address"; "`fin"; "`fout";
    "`stdin"; "`stdout"; "`stderr"; "`argc"; "`argv"; "`debug"; "`invalid";
    "`top"; "`instruction"; "`stack-size"; "`start-time" ]%string.

Definition instruction_names : list string :=
  [ "read"; "@"; "!"; "-"; "+"; "and"; "or";
    "xor"; "invert"; "lshift"; "rshift"; "*"; "/"; "u<"; "u>"; "exit"; "emit";
    "key"; "r>"; ">r"; "branch"; "?branch"; "pnum"; "'"; ","; "="; "swap";
    "dup"; "drop"; "over"; "tail"; "bsave"; "bload"; "find"; "print"; "depth";
    "clock" ]%string.

Definition initial_forth_program : string :=
"
: here h @ ;
: [ immediate 0 state ! ;
: ] 1 state ! ;
: >mark here 0 , ;
: :noname immediate -1 , here 2 , ] ;
: if immediate ' ?branch , >mark ;
: else immediate ' branch , >mark swap dup here swap - swap ! ;
: then immediate dup here swap - swap ! ;
: 2dup over over ;
: begin immediate here ;
: until immediate ' ?branch , here - , ;
: '\n' 10 ;
: ')' 41 ;
: cr '\n' emit ;
: ( immediate begin key ')' = until ; ( We can now use comments! )
: rot >r swap r> swap ;
: -rot rot rot ;
: tuck swap over ;
: nip swap drop ;
: :: [ find : , ] ;
: allot here + h ! ; ".

(** ** The host environment

    Everything the C library state contributes: what was written to
    [stderr] (one entry per [fprintf]/[fputs] call), what was written to
    other streams, the unread input behind each [FILE*], the host strings
    that [SIN] may point to, the successive results of [clock()], the
    block files ([w_blocks]) and, for each file name, whether a file of
    that name can be created and how many bytes the device then takes
    ([w_disk]). A [FILE*] is the cell it converts to; a [char*] to a host
    string is the position of the string in [w_strings], counted from 1
    (0 is the null pointer). *)
Record world := {
  w_stderr  : list string;
  w_output  : list (Z * list Z);
  w_input   : Z -> list Z;
  w_strings : list (list Z);
  w_clock   : list Z;
  w_blocks  : string -> option (list Z);
  w_disk    : string -> option Z
}.

(** struct forth: [header], [core_size], the saved stack pointer [S] (as a
    cell index into [m]) and the memory [m]; [s] is the constant
    [m + STRING_OFFSET], [hex_fmt] is recomputed where it is used and
    [on_error] is the [LongJmp] outcome below. *)
Record forth := {
  o_header  : list Z;
  core_size : Z;
  o_S       : Z;
  o_m       : list Z;
  o_world   : world
}.

(** The locals of [forth_run]: [pc], [S], [I] and [f]. *)
Record vm := {
  obj  : forth;
  r_pc : Z;
  r_S  : Z;
  r_I  : Z;
  r_f  : Z
}.

Inductive fault :=
| Aborted        (* a failed assert or VERIFY *)
| Undefined      (* an access outside the object, or through a bad pointer *)
| Diverges       (* a loop that never ends *)
| OutOfFuel.     (* the step budget of the model ran out; says nothing
                    about the C program *)

(** How a piece of C code over state [St] can end. *)
Inductive outcome (St A : Type) : Type :=
| Ok (a : A) (s : St)     (* falls through with value a *)
| GotoEnd (s : St)        (* goto end *)
| LongJmp (s : St)        (* longjmp to o->on_error *)
| Fault (e : fault).
Arguments Ok {St A} a s.
Arguments GotoEnd {St A} s.
Arguments LongJmp {St A} s.
Arguments Fault {St A} e.

Definition M (St A : Type) : Type := St -> outcome St A.

Definition ret {St A} (a : A) : M St A := fun s => Ok a s.

Definition bind {St A B} (c : M St A) (k : A -> M St B) : M St B :=
  fun s =>
    match c s with
    | Ok a s' => k a s'
    | GotoEnd s' => GotoEnd s'
    | LongJmp s' => LongJmp s'
    | Fault e => Fault e
    end.

Notation "x <- c ;; k" := (bind c (fun x => k))
  (at level 100, c at next level, right associativity).
Notation "c1 ;;; c2" := (bind c1 (fun _ => c2))
  (at level 100, right associativity).

Definition get {St} : M St St := fun s => Ok s s.
Definition put {St} (s : St) : M St unit := fun _ => Ok tt s.
Definition fail {St A} (e : fault) : M St A := fun _ => Fault e.
Definition goto_end {St A} : M St A := fun s => GotoEnd s.
Definition longjmp {St A} : M St A := fun s => LongJmp s.
Definition assert {St} (b : bool) : M St unit :=
  fun s => if b then Ok tt s else Fault Aborted.

(** ** The C library, as far as the interpreter uses it ("C" locale) *)

Definition tolower (c : Z) : Z :=
  if (65 <=? c) && (c <=? 90) then c + 32 else c.

Definition isspace (c : Z) : bool :=
  (c =? 32) || ((9 <=? c) && (c <=? 13)).

(** The digits of [z] in radix [b], most significant first, as printf's
    %u and %x produce them. *)
Definition digit_char (d : Z) : Z := if d <? 10 then 48 + d else 87 + d.

Fixpoint radix_digits (fuel : nat) (b z : Z) (acc : list Z) : list Z :=
  match fuel with
  | O => acc
  | S fuel' =>
      let acc' := digit_char (z mod b) :: acc in
      if z / b =? 0 then acc' else radix_digits fuel' b (z / b) acc'
  end.

Definition fmt_unsigned (b z : Z) : list Z :=
  radix_digits (S (Z.to_nat (Z.log2 z))) b z [].

Definition pad0 (width : Z) (l : list Z) : list Z :=
  repeat 48 (Z.to_nat (width - Z.of_nat (length l))) ++ l.

Definition fmt_u (z : Z) : string := string_of_bytes (fmt_unsigned 10 z).
Definition fmt_x (z : Z) : string := string_of_bytes (fmt_unsigned 16 z).

(** scanf's %31s%n: skip white space, then take up to 31 bytes that are not
    white space. [None] is an input failure (EOF before any byte of the
    token); otherwise the token, the unread rest and the count for %n. *)
Fixpoint skip_space (s : list Z) : list Z * Z :=
  match s with
  | c :: s' => if isspace c then let (r, k) := skip_space s' in (r, k + 1)
               else (s, 0)
  | [] => ([], 0)
  end.

Fixpoint take_token (width : nat) (s : list Z) : list Z * list Z :=
  match width, s with
  | S width', c :: s' =>
      if isspace c then ([], s)
      else let (t, r) := take_token width' s' in (c :: t, r)
  | _, _ => ([], s)
  end.

Definition scan_word (s : list Z) : option (list Z * list Z * Z) :=
  let (r, k) := skip_space s in
  match r with
  | [] => None
  | _ => let (t, rest) := take_token (Z.to_nat (MAX_WORD_LENGTH - 1)) r in
         Some (t, rest, k + Z.of_nat (length t))
  end.

(** strtol's subject sequence. *)
Definition digit_val (c : Z) : option Z :=
  if (48 <=? c) && (c <=? 57) then Some (c - 48)
  else if (97 <=? c) && (c <=? 122) then Some (c - 87)
  else if (65 <=? c) && (c <=? 90) then Some (c - 55)
  else None.

Definition is_digit_in (base c : Z) : bool :=
  match digit_val c with Some d => d <? base | None => false end.

Fixpoint strtol_digits (base : Z) (s : list Z) (acc n : Z) : Z * Z :=
  match s with
  | c :: s' =>
      match digit_val c with
      | Some d => if d <? base then strtol_digits base s' (acc * base + d) (n + 1)
                  else (acc, n)
      | None => (acc, n)
      end
  | [] => (acc, n)
  end.

Definition hex_prefix (s : list Z) : bool :=
  match s with
  | 48 :: x :: d :: _ => ((x =? 120) || (x =? 88)) && is_digit_in 16 d
  | _ => false
  end.

Section Machine.

Variable P : platform.
Abbreviation W := (cell_bytes P).

Definition cell_bits : Z := 8 * W.

(** Conversion to [forth_cell_t], to [int] and to [long] (a [long] is taken
    to be as wide as a cell, as on ILP32 and LP64). *)
Definition cell (z : Z) : Z := z mod 2 ^ cell_bits.
Definition to_int (z : Z) : Z := (z + 2 ^ 31) mod 2 ^ 32 - 2 ^ 31.
Definition LONG_MAX : Z := 2 ^ (cell_bits - 1) - 1.
Definition LONG_MIN : Z := - 2 ^ (cell_bits - 1).

(** [strtol(s, &end, base)]: the value, the offset of [end] in [s], and
    whether [errno] was set ([EINVAL] for an unsupported base, [ERANGE] on
    overflow). *)
Definition strtol (s : list Z) (base : Z) : Z * Z * bool :=
  if (base <? 0) || (base =? 1) || (36 <? base) then (0, 0, true)
  else
    let (s0, n0) := skip_space s in
    let '(neg, s1, n1) :=
      match s0 with
      | 45 :: r => (true, r, 1)
      | 43 :: r => (false, r, 1)
      | _ => (false, s0, 0)
      end in
    let '(b, s2, n2) :=
      if ((base =? 0) || (base =? 16)) && hex_prefix s1 then (16, skipn 2 s1, 2)
      else if base =? 0 then
             match s1 with 48 :: _ => (8, s1, 0) | _ => (10, s1, 0) end
           else (base, s1, 0) in
    let (mag, nd) := strtol_digits b s2 0 0 in
    if nd =? 0 then (0, 0, false)
    else
      let v := if neg : bool then - mag else mag in
      let e := n0 + n1 + n2 + nd in
      if LONG_MAX <? v then (LONG_MAX, e, true)
      else if v <? LONG_MIN then (LONG_MIN, e, true)
      else (v, e, false).

(** ** Memory *)

Definition load (m : list Z) (i : Z) : option Z :=
  if 0 <=? i then m !! Z.to_nat i else None.

Definition store (m : list Z) (i x : Z) : option (list Z) :=
  if (0 <=? i) && (i <? Z.of_nat (length m))
  then Some (<[Z.to_nat i := x]> m) else None.

Definition set_m (o : forth) (m : list Z) : forth :=
  {| o_header := o_header o; core_size := core_size o; o_S := o_S o;
     o_m := m; o_world := o_world o |}.

Definition set_S (o : forth) (s : Z) : forth :=
  {| o_header := o_header o; core_size := core_size o; o_S := s;
     o_m := o_m o; o_world := o_world o |}.

Definition set_world (o : forth) (w : world) : forth :=
  {| o_header := o_header o; core_size := core_size o; o_S := o_S o;
     o_m := o_m o; o_world := w |}.

(** [m[i]] as an rvalue and [m[i] = x], without [ck]. *)
Definition rd (i : Z) : M forth Z :=
  fun o => match load (o_m o) i with
           | Some x => Ok x o
           | None => Fault Undefined
           end.

Definition wr (i x : Z) : M forth unit :=
  fun o => match store (o_m o) i x with
           | Some m' => Ok tt (set_m o m')
           | None => Fault Undefined
           end.

(** Byte [a] of [(char* )m]: which byte of cell [a / W] it is depends on
    the endianness. *)
Definition lane (a : Z) : Z :=
  if big_endian P then W - 1 - a mod W else a mod W.

Definition rd_byte (a : Z) : M forth Z :=
  c <- rd (a / W) ;;
  ret (Z.land (Z.shiftr c (8 * lane a)) 255).

Definition wr_byte (a b : Z) : M forth unit :=
  c <- rd (a / W) ;;
  wr (a / W) (Z.lor (Z.land c (Z.lnot (Z.shiftl 255 (8 * lane a))))
                    (Z.shiftl b (8 * lane a))).

Fixpoint wr_bytes (a : Z) (bs : list Z) : M forth unit :=
  match bs with
  | [] => ret tt
  | b :: bs' => wr_byte a b ;;; wr_bytes (a + 1) bs'
  end.

Fixpoint rd_bytes (n : nat) (a : Z) : M forth (list Z) :=
  match n with
  | O => ret []
  | S n' => b <- rd_byte a ;; r <- rd_bytes n' (a + 1) ;; ret (b :: r)
  end.

(** The C string that starts at byte [a] of [m]; a string that is not
    terminated inside [m] is an access outside the object. *)
Fixpoint rd_cstr_from (n : nat) (a : Z) : M forth (list Z) :=
  match n with
  | O => fail Undefined
  | S n' =>
      b <- rd_byte a ;;
      if b =? 0 then ret []
      else r <- rd_cstr_from n' (a + 1) ;; ret (b :: r)
  end.

Definition rd_cstr (a : Z) : M forth (list Z) :=
  fun o => rd_cstr_from (S (Z.to_nat W * length (o_m o))) a o.

(** ** stdio and time *)

(** The instance after one more line on [stderr]. *)
Definition log (s : string) (o : forth) : forth :=
  let w := o_world o in
  set_world o
    {| w_stderr := w_stderr w ++ [s]; w_output := w_output w;
       w_input := w_input w; w_strings := w_strings w;
       w_clock := w_clock w; w_blocks := w_blocks w; w_disk := w_disk w |}.

Definition eprint (s : string) : M forth unit := fun o => Ok tt (log s o).

Definition fput (h : Z) (bs : list Z) : M forth unit :=
  fun o =>
    let w := o_world o in
    Ok tt (set_world o
      {| w_stderr := w_stderr w; w_output := w_output w ++ [(h, bs)];
         w_input := w_input w; w_strings := w_strings w;
         w_clock := w_clock w; w_blocks := w_blocks w; w_disk := w_disk w |}).

Definition set_input (h : Z) (rest : list Z) : M forth unit :=
  fun o =>
    let w := o_world o in
    Ok tt (set_world o
      {| w_stderr := w_stderr w; w_output := w_output w;
         w_input := fun h' => if h' =? h then rest else w_input w h';
         w_strings := w_strings w;
         w_clock := w_clock w; w_blocks := w_blocks w; w_disk := w_disk w |}).

Definition fgetc (h : Z) : M forth Z :=
  o <- get ;;
  match w_input (o_world o) h with
  | c :: rest => set_input h rest ;;; ret c
  | [] => ret EOF
  end.

Definition clock : M forth Z :=
  fun o =>
    let w := o_world o in
    match w_clock w with
    | t :: ts =>
        Ok t (set_world o
          {| w_stderr := w_stderr w; w_output := w_output w;
             w_input := w_input w; w_strings := w_strings w;
             w_clock := ts; w_blocks := w_blocks w; w_disk := w_disk w |})
    | [] => Ok (-1) o
    end.

Definition write_block (name : string) (data : list Z) : M forth unit :=
  fun o =>
    let w := o_world o in
    Ok tt (set_world o
      {| w_stderr := w_stderr w; w_output := w_output w;
         w_input := w_input w; w_strings := w_strings w;
         w_clock := w_clock w;
         w_blocks := fun n => if String.eqb n name then Some data
                              else w_blocks w n;
         w_disk := w_disk w |}).

(** The host string [p] points to, from index [i] on. *)
Definition host_string (p i : Z) : M forth (list Z) :=
  o <- get ;;
  if p <=? 0 then fail Undefined
  else
    match w_strings (o_world o) !! Z.to_nat (p - 1) with
    | Some s => if (0 <=? i) && (i <=? Z.of_nat (length s))
                then ret (skipn (Z.to_nat i) s) else fail Undefined
    | None => fail Undefined
    end.

(** A string the host program holds (a literal, a local buffer): it gets
    a place in the host memory, and its address is returned. *)
Definition host_new_string (s : list Z) : M forth Z :=
  fun o =>
    let w := o_world o in
    Ok (Z.of_nat (length (w_strings w)) + 1) (set_world o
      {| w_stderr := w_stderr w; w_output := w_output w;
         w_input := w_input w; w_strings := w_strings w ++ [s];
         w_clock := w_clock w; w_blocks := w_blocks w; w_disk := w_disk w |}).

Definition as_char (b : Z) : Z :=
  if char_signed P && (128 <=? b) then b - 256 else b.

(* ============================ Section 3 ================================== *)
(*                  Helping Functions For The Compiler                       *)

Definition forth_get_char : M forth Z :=
  src <- rd SOURCE_ID ;;
  if src =? FILE_IN then
    h <- rd FIN ;; fgetc h
  else if src =? cell STRING_IN then
    idx <- rd SIDX ;;
    len <- rd SLEN ;;
    if idx >=? len then ret EOF
    else
      p <- rd SIN ;;
      s <- host_string p idx ;;
      wr SIDX (cell (idx + 1)) ;;;
      ret (as_char (hd 0 s))
  else ret EOF.

(** [p] is the byte offset in [m] of the buffer (always [o->s]). *)
Definition forth_get_word (p : Z) : M forth Z :=
  src <- rd SOURCE_ID ;;
  if src =? FILE_IN then
    h <- rd FIN ;;
    o <- get ;;
    match scan_word (w_input (o_world o) h) with
    | None => set_input h [] ;;; ret EOF
    | Some (t, rest, n) =>
        set_input h rest ;;; wr_bytes p (t ++ [0]) ;;; ret 1
    end
  else if src =? cell STRING_IN then
    sp <- rd SIN ;;
    idx <- rd SIDX ;;
    s <- host_string sp idx ;;
    match scan_word s with
    | None => ret EOF
    | Some (t, rest, n) =>
        wr_bytes p (t ++ [0]) ;;;
        i <- rd SIDX ;;
        wr SIDX (cell (i + n)) ;;;
        ret n
    end
  else ret EOF.

Definition compile (code : Z) (str : list Z) : M forth unit :=
  assert (code <? LAST) ;;;
  header <- rd DIC ;;
  wr_bytes (header * W) (str ++ [0]) ;;;
  let l := Z.of_nat (length str) + 1 in
  let l := Z.land (l + (W - 1)) (Z.lnot (W - 1)) in
  let l := l / W in
  d <- rd DIC ;;
  wr DIC (cell (d + l)) ;;;
  d <- rd DIC ;;
  wr DIC (cell (d + 1)) ;;;
  p <- rd PWD ;;
  wr d p ;;;
  d <- rd DIC ;;
  wr PWD (cell (d - 1)) ;;;
  d <- rd DIC ;;
  wr DIC (cell (d + 1)) ;;;
  wr d (cell (Z.lor (Z.shiftl l WORD_LENGTH_OFFSET) code)).

(** The name sprintf builds from "%04x.blk" and [(int)id]. *)
Definition block_name (id : Z) : string :=
  (string_of_bytes (pad0 4 (fmt_unsigned 16 (to_int id mod 2 ^ 32))) ++ ".blk")%string.

Definition file_open_error (name : string) : string :=
  ("( error 'file-open " ++ dquote ++ name ++ " : could not open file"
     ++ dquote ++ " )" ++ newline)%string.

(** [rw] is the character 'r' (114) or 'w' (119), the only two the
    interpreter passes. The result is the [int] the C function returns.

    Writing: the device behind the new file takes [k] bytes. On a host
    whose streams buffer a whole block, [fwrite] puts the 1024 bytes in
    the buffer and reports them all; they go to the device when [fclose]
    flushes, and [blockio] does not look at the result of [fclose]. On a
    host without such a buffer [fwrite] itself reports what the device
    took. Either way the file holds the bytes the device took. *)
Definition blockio (poffset id rw : Z) : M forth Z :=
  o <- get ;;
  if poffset >? cell (cell (core_size o * W) - BLOCK_SIZE) then ret (-1)
  else
    let name := block_name id in
    if rw =? 114 then
      match w_blocks (o_world o) name with
      | None => eprint (file_open_error name) ;;; ret (-1)
      | Some data =>
          let got := firstn (Z.to_nat BLOCK_SIZE) data in
          wr_bytes poffset got ;;;
          ret (if Z.of_nat (length got) =? BLOCK_SIZE then 0 else -1)
      end
    else
      match w_disk (o_world o) name with
      | None => eprint (file_open_error name) ;;; ret (-1)
      | Some k =>
          bytes <- rd_bytes (Z.to_nat BLOCK_SIZE) poffset ;;
          let taken := Z.min (Z.max k 0) BLOCK_SIZE in
          let n := if file_buffered P then BLOCK_SIZE else taken in
          write_block name (firstn (Z.to_nat taken) bytes) ;;;
          ret (if n =? BLOCK_SIZE then 0 else -1)
      end.

(** Returns the [int] result and the value stored through [n]. *)
Definition numberify (base : Z) (s : list Z) : Z * Z :=
  let '(v, e, errno) := strtol s base in
  let n := cell v in
  (if negb errno && negb (hd 0 s =? 0) && (e =? Z.of_nat (length s))
   then 1 else 0, n).

Fixpoint istrcmp (a b : list Z) : Z :=
  match a with
  | ca :: a' =>
      let cb := hd 0 b in
      if ((ca =? cb) || (tolower ca =? tolower cb))
         && negb (ca =? 0) && negb (cb =? 0)
      then istrcmp a' (tl b)
      else tolower ca - tolower cb
  | [] => tolower 0 - tolower (hd 0 b)
  end.

(** The loop of [forth_find]. It reads [m] only, so a walk that takes more
    steps than there are cells has met some [w] twice and never ends. *)
Fixpoint find_loop (fuel : nat) (s : list Z) (w len : Z) : M forth Z :=
  match fuel with
  | O => fail Diverges
  | S fuel' =>
      if w >? DICTIONARY_START then
        x <- rd (cell (w + 1)) ;;
        skip <- (if negb (WORD_HIDDEN x =? 0) then ret true
                 else name <- rd_cstr (cell (w - len) * W) ;;
                      ret (negb (istrcmp s name =? 0))) ;;
        if skip : bool then
          w' <- rd w ;;
          x' <- rd (cell (w' + 1)) ;;
          find_loop fuel' s w' (WORD_LENGTH x')
        else ret w
      else ret w
  end.

Definition forth_find (s : list Z) : M forth Z :=
  w <- rd PWD ;;
  x <- rd (cell (w + 1)) ;;
  o <- get ;;
  w <- find_loop (S (length (o_m o))) s w (WORD_LENGTH x) ;;
  ret (if w >? DICTIONARY_START then cell (w + 1) else 0).

Definition hex_fmt (f : Z) : list Z :=
  bytes_of_string "0x" ++ pad0 (W * 2) (fmt_unsigned 16 f).

Definition print_cell (f : Z) : M forth unit :=
  b <- rd BASE ;;
  h <- rd FOUT ;;
  fput h (if b =? 16 then hex_fmt f else fmt_unsigned 10 f).

(* ============================ Section 4 ================================== *)
(*              API related functions and Initialization code                *)

Definition forth_set_file_input (fin : Z) : M forth unit :=
  assert (negb (fin =? 0)) ;;;
  wr SOURCE_ID FILE_IN ;;;
  wr FIN fin.

Definition forth_set_file_output (fout : Z) : M forth unit :=
  assert (negb (fout =? 0)) ;;;
  wr FOUT fout.

Definition forth_set_string_input (s : Z) : M forth unit :=
  assert (negb (s =? 0)) ;;;
  wr SIDX 0 ;;;
  str <- host_string s 0 ;;
  wr SLEN (cell (Z.of_nat (length str) + 1)) ;;;
  wr SOURCE_ID (cell STRING_IN) ;;;
  wr SIN s.

Definition forth_make_default (size fin fout : Z) : M forth unit :=
  o <- get ;;
  put {| o_header := o_header o; core_size := size; o_S := o_S o;
         o_m := o_m o; o_world := o_world o |} ;;;
  wr STACK_SIZE (if size / 64 >? 64 then size / 64 else 64) ;;;
  wr FOUT fout ;;;
  wr START_ADDR (addr_m P) ;;;
  wr STDIN (c_stdin P) ;;;
  wr STDOUT (c_stdout P) ;;;
  wr STDERR (c_stderr P) ;;;
  ss <- rd STACK_SIZE ;;
  wr RSTK (cell (size - ss)) ;;;
  t <- clock ;;
  wr START_TIME (cell (Z.quot (1000 * t) (CLOCKS_PER_SEC P))) ;;;
  wr ARGV 0 ;;;
  wr ARGC 0 ;;;
  ss <- rd STACK_SIZE ;;
  o <- get ;;
  put (set_S o (size - cell (2 * ss))) ;;;
  forth_set_file_input fin.

Definition header : list Z := [ 255; 52; 84; 72; W; CORE_VERSION; 255; 255 ].

Definition make_header : list Z :=
  <[Z.to_nat ENDIAN := if big_endian P then 0 else 1]> header.

(** ** [forth_push], [forth_pop], [forth_stack_position] *)

Definition forth_push (f : Z) : M forth unit :=
  o <- get ;;
  assert (o_S o <? core_size o) ;;;
  top <- rd TOP ;;
  put (set_S o (o_S o + 1)) ;;;
  wr (o_S o + 1) top ;;;
  wr TOP f.

Definition forth_pop : M forth Z :=
  o <- get ;;
  assert (o_S o >? 0) ;;;
  f <- rd TOP ;;
  x <- rd (o_S o) ;;
  put (set_S o (o_S o - 1)) ;;;
  wr TOP x ;;;
  ret f.

Definition forth_stack_position : M forth Z :=
  o <- get ;;
  ss <- rd STACK_SIZE ;;
  ret (cell (o_S o - (core_size o - cell (2 * ss)))).

(** ** [check_bounds] and the [ck] macro (debug build) *)

Definition debug_line (f line : Z) : string :=
  (tab ++ "( debug" ++ tab ++ "0x" ++ fmt_x f ++ tab ++ fmt_u line ++ " )"
     ++ newline)%string.

Definition bounds_line (f size : Z) : string :=
  ("( fatal " ++ dquote ++ "bounds check failed: " ++ fmt_u f ++ " >= "
     ++ fmt_u size ++ dquote ++ " )" ++ newline)%string.

Definition check_bounds (f line : Z) : M forth Z :=
  dbg <- rd DEBUG ;;
  (if negb (dbg =? 0) then eprint (debug_line f line) else ret tt) ;;;
  o <- get ;;
  if f >=? core_size o then
    eprint (bounds_line f (core_size o)) ;;; longjmp
  else ret f.

(* ============================ Section 5 ================================== *)
(*                      The Forth Virtual Machine                            *)

Definition set_obj (v : vm) (o : forth) : vm :=
  {| obj := o; r_pc := r_pc v; r_S := r_S v; r_I := r_I v; r_f := r_f v |}.
Definition with_pc (v : vm) (x : Z) : vm :=
  {| obj := obj v; r_pc := x; r_S := r_S v; r_I := r_I v; r_f := r_f v |}.
Definition with_S (v : vm) (x : Z) : vm :=
  {| obj := obj v; r_pc := r_pc v; r_S := x; r_I := r_I v; r_f := r_f v |}.
Definition with_I (v : vm) (x : Z) : vm :=
  {| obj := obj v; r_pc := r_pc v; r_S := r_S v; r_I := x; r_f := r_f v |}.
Definition with_f (v : vm) (x : Z) : vm :=
  {| obj := obj v; r_pc := r_pc v; r_S := r_S v; r_I := r_I v; r_f := x |}.

(** Code that works on the object, run inside [forth_run]. *)
Definition lift {A} (c : M forth A) : M vm A :=
  fun v =>
    match c (obj v) with
    | Ok a o => Ok a (set_obj v o)
    | GotoEnd o => GotoEnd (set_obj v o)
    | LongJmp o => LongJmp (set_obj v o)
    | Fault e => Fault e
    end.

Definition get_pc : M vm Z := fun v => Ok (r_pc v) v.
Definition get_S : M vm Z := fun v => Ok (r_S v) v.
Definition get_I : M vm Z := fun v => Ok (r_I v) v.
Definition get_f : M vm Z := fun v => Ok (r_f v) v.

Definition set_pc (x : Z) : M vm unit := fun v => Ok tt (with_pc v x).
Definition set_rS (x : Z) : M vm unit := fun v => Ok tt (with_S v x).
Definition set_I (x : Z) : M vm unit := fun v => Ok tt (with_I v x).
Definition set_f (x : Z) : M vm unit := fun v => Ok tt (with_f v x).

(** [m[i]], [m[i] = x] and [ck(c)] inside [forth_run]; the second argument
    of [ck] is the source line of the use. *)
Definition mrd (i : Z) : M vm Z := lift (rd i).
Definition mwr (i x : Z) : M vm unit := lift (wr i x).
Definition ck (c line : Z) : M vm Z := lift (check_bounds c line).

(** [*++S = x] and [*S--]. *)
Definition push (x : Z) : M vm unit :=
  s <- get_S ;; set_rS (s + 1) ;;; mwr (s + 1) x.

Definition pop : M vm Z :=
  s <- get_S ;; x <- mrd s ;; set_rS (s - 1) ;;; ret x.

(** [o->s] as a byte offset in [m]. *)
Definition o_s : Z := STRING_OFFSET * W.

Definition not_a_word (s : list Z) : string :=
  ("( error " ++ dquote ++ string_of_bytes s ++ " is not a word" ++ dquote
     ++ " )" ++ newline)%string.

Definition div_by_zero : string :=
  ("( error " ++ dquote ++ "x/0" ++ dquote ++ " )" ++ newline)%string.

Definition illegal_op (w : Z) : string :=
  ("( fatal 'illegal-op " ++ fmt_u w ++ " )" ++ newline)%string.

(** Where control goes after a case of the switch: [break] leads to the
    head of the for loop, READ may [goto INNER]. *)
Inductive point := LOOP | INNER.

Definition b01 (b : bool) : Z := if b then 1 else 0.

(** The cases of the switch in [forth_run]. *)
Definition exec (i : instructions) : M vm point :=
  match i with
  | PUSH | QUOTE =>
      f <- get_f ;; push f ;;;
      I <- get_I ;; set_I (cell (I + 1)) ;;;
      a <- ck I (match i with PUSH => 924 | _ => 1032 end) ;;
      x <- mrd a ;; set_f x ;;; ret LOOP
  | COMPILE =>
      d <- mrd DIC ;; mwr DIC (cell (d + 1)) ;;;
      a <- ck d 925 ;;
      pc <- get_pc ;; mwr a pc ;;; ret LOOP
  | RUN =>
      r <- mrd RSTK ;; mwr RSTK (cell (r + 1)) ;;;
      r <- mrd RSTK ;;
      a <- ck r 926 ;;
      I <- get_I ;; mwr a I ;;;
      pc <- get_pc ;; set_I pc ;;; ret LOOP
  | DEFINE =>
      mwr STATE 1 ;;;
      n <- lift (forth_get_word o_s) ;;
      if n <? 0 then goto_end
      else
        name <- lift (rd_cstr o_s) ;;
        lift (compile COMPILE name) ;;;
        d <- mrd DIC ;; mwr DIC (cell (d + 1)) ;;;
        a <- ck d 938 ;;
        mwr a RUN ;;; ret LOOP
  | IMMEDIATE =>
      d <- mrd DIC ;; mwr DIC (cell (d - 2)) ;;;
      d <- mrd DIC ;; x <- mrd d ;;
      mwr d (Z.land x (cell (Z.lnot INSTRUCTION_MASK))) ;;;
      d <- mrd DIC ;; x <- mrd d ;;
      mwr d (Z.lor x RUN) ;;;
      d <- mrd DIC ;; mwr DIC (cell (d + 1)) ;;; ret LOOP
  | READ =>
      n <- lift (forth_get_word o_s) ;;
      if n <? 0 then goto_end
      else
        s <- lift (rd_cstr o_s) ;;
        w <- lift (forth_find s) ;;
        if w >? 1 then
          set_pc w ;;;
          st <- mrd STATE ;;
          (if st =? 0 then
             pc <- get_pc ;;
             a <- ck pc 983 ;;
             x <- mrd a ;;
             if instruction x =? COMPILE then set_pc (cell (pc + 1))
             else ret tt
           else ret tt) ;;;
          ret INNER
        else
          base <- mrd BASE ;;
          let (ok, w) := numberify (to_int base) s in
          if ok =? 0 then
            lift (eprint (not_a_word s)) ;;; ret LOOP
          else
            st <- mrd STATE ;;
            if negb (st =? 0) then
              d <- mrd DIC ;; mwr DIC (cell (d + 1)) ;;;
              mwr d 2 ;;;
              d <- mrd DIC ;; mwr DIC (cell (d + 1)) ;;;
              a <- ck d 992 ;;
              mwr a w ;;; ret LOOP
            else
              f <- get_f ;; push f ;;;
              set_f w ;;; ret LOOP
  | LOAD =>
      f <- get_f ;; a <- ck f 1006 ;; x <- mrd a ;; set_f x ;;; ret LOOP
  | STORE =>
      f <- get_f ;; a <- ck f 1007 ;;
      x <- pop ;; mwr a x ;;;
      y <- pop ;; set_f y ;;; ret LOOP
  | SUB => f <- get_f ;; x <- pop ;; set_f (cell (x - f)) ;;; ret LOOP
  | ADD => f <- get_f ;; x <- pop ;; set_f (cell (x + f)) ;;; ret LOOP
  | AND => f <- get_f ;; x <- pop ;; set_f (Z.land x f) ;;; ret LOOP
  | OR => f <- get_f ;; x <- pop ;; set_f (Z.lor x f) ;;; ret LOOP
  | XOR => f <- get_f ;; x <- pop ;; set_f (Z.lxor x f) ;;; ret LOOP
  | INV => f <- get_f ;; set_f (cell (Z.lnot f)) ;;; ret LOOP
  | SHL =>
      f <- get_f ;; x <- pop ;;
      if f >=? cell_bits then fail Undefined
      else set_f (cell (Z.shiftl x f)) ;;; ret LOOP
  | SHR =>
      f <- get_f ;; x <- pop ;;
      if f >=? cell_bits then fail Undefined
      else set_f (Z.shiftr x f) ;;; ret LOOP
  | MUL => f <- get_f ;; x <- pop ;; set_f (cell (x * f)) ;;; ret LOOP
  | DIV =>
      f <- get_f ;;
      if negb (f =? 0) then
        x <- pop ;; set_f (cell (x / f)) ;;; ret LOOP
      else
        lift (eprint div_by_zero) ;;; ret LOOP
  | LESS => f <- get_f ;; x <- pop ;; set_f (b01 (x <? f)) ;;; ret LOOP
  | MORE => f <- get_f ;; x <- pop ;; set_f (b01 (x >? f)) ;;; ret LOOP
  | EXIT =>
      r <- mrd RSTK ;; mwr RSTK (cell (r - 1)) ;;;
      a <- ck r 1024 ;;
      x <- mrd a ;; set_I x ;;; ret LOOP
  | EMIT =>
      f <- get_f ;; h <- mrd FOUT ;;
      lift (fput h [f mod 256]) ;;;
      x <- pop ;; set_f x ;;; ret LOOP
  | KEY =>
      f <- get_f ;; push f ;;;
      c <- lift forth_get_char ;;
      set_f (cell c) ;;; ret LOOP
  | FROMR =>
      f <- get_f ;; push f ;;;
      r <- mrd RSTK ;; mwr RSTK (cell (r - 1)) ;;;
      a <- ck r 1027 ;;
      x <- mrd a ;; set_f x ;;; ret LOOP
  | TOR =>
      r <- mrd RSTK ;; mwr RSTK (cell (r + 1)) ;;;
      r <- mrd RSTK ;;
      a <- ck r 1028 ;;
      f <- get_f ;; mwr a f ;;;
      x <- pop ;; set_f x ;;; ret LOOP
  | BRANCH =>
      I <- get_I ;; a <- ck I 1029 ;;
      x <- mrd a ;; set_I (cell (I + x)) ;;; ret LOOP
  | QBRANCH =>
      f <- get_f ;; I <- get_I ;;
      (if f =? 0 then x <- mrd I ;; set_I (cell (I + x))
       else set_I (cell (I + 1))) ;;;
      x <- pop ;; set_f x ;;; ret LOOP
  | PNUM =>
      f <- get_f ;; lift (print_cell f) ;;;
      x <- pop ;; set_f x ;;; ret LOOP
  | COMMA =>
      d <- mrd DIC ;; mwr DIC (cell (d + 1)) ;;;
      a <- ck d 1033 ;;
      f <- get_f ;; mwr a f ;;;
      x <- pop ;; set_f x ;;; ret LOOP
  | EQUAL => f <- get_f ;; x <- pop ;; set_f (b01 (x =? f)) ;;; ret LOOP
  | SWAP =>
      w <- get_f ;; x <- pop ;; set_f x ;;; push w ;;; ret LOOP
  | DUP => f <- get_f ;; push f ;;; ret LOOP
  | DROP => x <- pop ;; set_f x ;;; ret LOOP
  | OVER =>
      s <- get_S ;; w <- mrd s ;;
      f <- get_f ;; push f ;;;
      set_f w ;;; ret LOOP
  | TAIL => r <- mrd RSTK ;; mwr RSTK (cell (r - 1)) ;;; ret LOOP
  | BSAVE =>
      f <- get_f ;; x <- pop ;;
      r <- lift (blockio x f 119) ;;
      set_f (cell r) ;;; ret LOOP
  | BLOAD =>
      f <- get_f ;; x <- pop ;;
      r <- lift (blockio x f 114) ;;
      set_f (cell r) ;;; ret LOOP
  | FIND =>
      f <- get_f ;; push f ;;;
      n <- lift (forth_get_word o_s) ;;
      if n <? 0 then goto_end
      else
        s <- lift (rd_cstr o_s) ;;
        w <- lift (forth_find s) ;;
        set_f (if w <? DICTIONARY_START then 0 else w) ;;; ret LOOP
  | PRINT =>
      f <- get_f ;; h <- mrd FOUT ;;
      s <- lift (rd_cstr f) ;;
      lift (fput h s) ;;;
      x <- pop ;; set_f x ;;; ret LOOP
  | DEPTH =>
      s <- get_S ;; ss <- mrd STACK_SIZE ;;
      v <- get ;;
      let w := cell (s - (core_size (obj v) - cell (2 * ss))) in
      f <- get_f ;; push f ;;;
      set_f w ;;; ret LOOP
  | CLOCK =>
      f <- get_f ;; push f ;;;
      t <- lift clock ;;
      st <- mrd START_TIME ;;
      set_f (cell (cell (1000 * t) - st) / cell (CLOCKS_PER_SEC P)) ;;;
      ret LOOP
  end.

(** The head of the for loop: [pc = m[ck(I++)]], leaving the loop (and so
    reaching the label [end]) when that cell is 0. *)
Definition fetch : M vm point :=
  I <- get_I ;; set_I (cell (I + 1)) ;;;
  a <- ck I 919 ;;
  x <- mrd a ;; set_pc x ;;;
  if x =? 0 then goto_end else ret INNER.

(** The label INNER: the assert and the switch. *)
Definition inner : M vm point :=
  v <- get ;;
  assert ((r_S v >? 0) && (r_S v <? core_size (obj v))) ;;;
  pc <- get_pc ;; set_pc (cell (pc + 1)) ;;;
  a <- ck pc 923 ;;
  x <- mrd a ;;
  let w := instruction x in
  match decode w with
  | Some i => exec i
  | None => lift (eprint (illegal_op w)) ;;; longjmp
  end.

Definition step (p : point) : M vm point :=
  match p with LOOP => fetch | INNER => inner end.

Fixpoint run (fuel : nat) (p : point) : M vm point :=
  match fuel with
  | O => fail OutOfFuel
  | S fuel' => p' <- step p ;; run fuel' p'
  end.

(** The first [n] turns of the loop, when none of them leaves it. *)
Fixpoint steps (n : nat) (p : point) : M vm point :=
  match n with
  | O => ret p
  | S n' => p' <- step p ;; steps n' p'
  end.

(** The locals as [forth_run] initialises them ([pc] is not initialised). *)
Definition enter (o : forth) (I f : Z) : vm :=
  {| obj := o; r_pc := 0; r_S := o_S o; r_I := I; r_f := f |}.

(** [return -(o->m[INVALID] = 1)] *)
Definition poison : M forth Z := wr INVALID 1 ;;; ret (-1).

Definition forth_run (fuel : nat) : M forth Z :=
  inv <- rd INVALID ;;
  if negb (inv =? 0) then poison
  else
    I <- rd INSTRUCTION ;;
    f <- rd TOP ;;
    fun o =>
      match run fuel LOOP (enter o I f) with
      | Ok _ v | GotoEnd v =>
          (put (set_S (obj v) (r_S v)) ;;; wr TOP (r_f v) ;;; ret 0) (obj v)
      | LongJmp v => poison (obj v)
      | Fault e => Fault e
      end.

(** ** The API functions that run the interpreter *)

Definition forth_eval (fuel : nat) (s : Z) : M forth Z :=
  assert (negb (s =? 0)) ;;;
  forth_set_string_input s ;;;
  forth_run fuel.

(** printf's %31s: right justified in a field of 31. *)
Definition pad_left (width : Z) (l : list Z) : list Z :=
  repeat 32 (Z.to_nat (width - Z.of_nat (length l))) ++ l.

Definition forth_define_constant (fuel : nat) (name : list Z) (c : Z)
  : M forth Z :=
  assert (Z.of_nat (length name) <? MAX_WORD_LENGTH) ;;;
  e <- host_new_string
         (bytes_of_string ": " ++ pad_left 31 name ++ [32]
            ++ fmt_unsigned 10 c ++ bytes_of_string " ; " ++ [10]) ;;
  forth_eval fuel e.

Definition VERIFY (X : bool) : M forth unit := assert X.

(** [m[m[DIC]++] = x] *)
Definition dic_append (x : Z) : M forth unit :=
  d <- rd DIC ;; wr DIC (cell (d + 1)) ;;; wr d x.

Fixpoint compile_instructions (names : list string) (w : Z) : M forth unit :=
  match names with
  | [] => ret tt
  | n :: names' =>
      compile COMPILE (bytes_of_string n) ;;;
      dic_append w ;;;
      compile_instructions names' (w + 1)
  end.

Fixpoint name_registers (fuel : nat) (names : list string) (i : Z)
  : M forth unit :=
  match names with
  | [] => ret tt
  | n :: names' =>
      r <- forth_define_constant fuel (bytes_of_string n) (i + DIC) ;;
      VERIFY (r >=? 0) ;;;
      name_registers fuel names' (i + 1)
  end.

Definition eval_string (fuel : nat) (s : string) : M forth Z :=
  p <- host_new_string (bytes_of_string s) ;; forth_eval fuel p.

(** A function that returns a [forth_t*]: [None] is the null pointer,
    otherwise how the construction of the object ended. *)
Definition forth_init (fuel : nat) (size fin fout : Z) (w : world)
  : option (outcome forth unit) :=
  if (fin =? 0) || (fout =? 0) then Some (Fault Aborted)
  else if negb (size >=? MINIMUM_CORE_SIZE P) then Some (Fault Aborted)
  else if negb (can_alloc P (cell (sizeof_forth P + W * size))) then None
  else Some (
    (forth_make_default size fin fout ;;;
     o <- get ;;
     put {| o_header := make_header; core_size := core_size o;
            o_S := o_S o; o_m := o_m o; o_world := o_world o |} ;;;
     wr PWD 0 ;;;
     wr DIC DICTIONARY_START ;;;
     let t := DICTIONARY_START in
     dic_append TAIL ;;;
     w <- rd DIC ;;
     dic_append READ ;;;
     dic_append RUN ;;;
     d <- rd DIC ;; wr INSTRUCTION d ;;;
     dic_append w ;;;
     dic_append t ;;;
     i <- rd INSTRUCTION ;; dic_append (cell (i - 1)) ;;;
     compile DEFINE (bytes_of_string ":") ;;;
     compile IMMEDIATE (bytes_of_string "immediate") ;;;
     compile_instructions instruction_names READ ;;;
     r <- eval_string fuel ": state 8 exit : ; immediate ' exit , 0 state ! ;" ;;
     VERIFY (r >=? 0) ;;;
     name_registers fuel register_names 0 ;;;
     r <- eval_string fuel initial_forth_program ;;
     VERIFY (r >=? 0) ;;;
     r <- forth_define_constant fuel (bytes_of_string "size") W ;;
     VERIFY (r >=? 0) ;;;
     ss <- rd STACK_SIZE ;;
     r <- forth_define_constant fuel (bytes_of_string "stack-start")
            (cell (size - cell (2 * ss))) ;;
     VERIFY (r >=? 0) ;;;
     r <- forth_define_constant fuel (bytes_of_string "max-core") size ;;
     VERIFY (r >=? 0) ;;;
     forth_set_file_input fin)
    {| o_header := repeat 0 8; core_size := 0; o_S := 0;
       o_m := repeat 0 (Z.to_nat size); o_world := w |}).

(** ** Image save and load *)

(** An [n]-byte unsigned integer as it lies in the memory of the host. *)
Fixpoint le_bytes (n : nat) (x : Z) : list Z :=
  match n with
  | O => []
  | S n' => x mod 256 :: le_bytes n' (x / 256)
  end.

Fixpoint le_value (bs : list Z) : Z :=
  match bs with
  | [] => 0
  | b :: r => b + 256 * le_value r
  end.

Definition host_bytes (n : nat) (x : Z) : list Z :=
  if big_endian P then rev (le_bytes n x) else le_bytes n x.

Definition host_value (bs : list Z) : Z :=
  if big_endian P then le_value (rev bs) else le_value bs.

Fixpoint cells_of_bytes (n : nat) (bs : list Z) : list Z :=
  match n with
  | O => []
  | S n' => host_value (firstn (Z.to_nat W) bs)
              :: cells_of_bytes n' (skipn (Z.to_nat W) bs)
  end.

Definition uint64 (z : Z) : Z := z mod 2 ^ 64.

(** [dump] is the stream written to; it accepts [room] more bytes before
    its writes fail. *)
Definition forth_save_core (dump room : Z) : M forth Z :=
  assert (negb (dump =? 0)) ;;;
  o <- get ;;
  let core_size := uint64 (core_size o) in
  if Z.of_nat (length (o_m o)) <? core_size then fail Undefined
  else
    let image := o_header o ++ host_bytes 8 core_size
                   ++ flat_map (host_bytes (Z.to_nat W))
                        (firstn (Z.to_nat core_size) (o_m o)) in
    fput dump (firstn (Z.to_nat room) image) ;;;
    let r1 := Z.min 8 (Z.max room 0) in
    let r2 := if 16 <=? room then 1 else 0 in
    let r3 := Z.min (uint64 (W * core_size)) (Z.max (room - 16) 0) in
    ret (if negb (uint64 (r1 + r2 + r3) =? uint64 (8 + 1 + W * core_size))
         then -1 else 0).

(** [dump] is the unread content of the stream. *)
Definition forth_load_core (dump : list Z) (w : world)
  : option (outcome forth unit) :=
  let expected := make_header in
  let actual := firstn 8 dump in
  if negb (Z.of_nat (length actual) =? 8) then None
  else if negb (forallb (fun '(x, y) => x =? y) (combine expected actual))
  then None
  else
    let size_field := firstn 8 (skipn 8 dump) in
    let core_size := host_value size_field in
    if negb (Z.of_nat (length size_field) =? 8)
       || (core_size <? MINIMUM_CORE_SIZE P)
    then None
    else if negb (can_alloc P (uint64 (sizeof_forth P + W * core_size)))
    then None
    else
      let w' := uint64 (W * core_size) in
      let data := firstn (Z.to_nat w') (skipn 16 dump) in
      if negb (Z.of_nat (length data) =? w') then None
      else Some (
        forth_make_default core_size (c_stdin P) (c_stdout P)
          {| o_header := actual; core_size := cell core_size; o_S := 0;
             o_m := cells_of_bytes (Z.to_nat (w' / W)) data;
             o_world := w |}).

End Machine.

Arguments load : simpl never.
Arguments store : simpl never.
Arguments cell : simpl never.

(** ** Concrete platforms and instances used to exercise the model *)

(** A little-endian LP64 host. *)
Definition lp64 : platform :=
  {| cell_bytes := 8; big_endian := false; MINIMUM_CORE_SIZE := 2048;
     sizeof_forth := 64; CLOCKS_PER_SEC := 1000000; char_signed := true;
     c_stdin := 1000; c_stdout := 1001; c_stderr := 1002; addr_m := 4096;
     can_alloc := fun n => n <? 2 ^ 32; file_buffered := true |}.

(** A big-endian ILP32 host. *)
Definition be32 : platform :=
  {| cell_bytes := 4; big_endian := true; MINIMUM_CORE_SIZE := 2048;
     sizeof_forth := 48; CLOCKS_PER_SEC := 1000000; char_signed := false;
     c_stdin := 1000; c_stdout := 1001; c_stderr := 1002; addr_m := 4096;
     can_alloc := fun n => n <? 2 ^ 24; file_buffered := false |}.

Definition world0 : world :=
  {| w_stderr := []; w_output := []; w_input := fun _ => [];
     w_strings := []; w_clock := []; w_blocks := fun _ => None;
     w_disk := fun _ => None |}.

(** An instance of 128 cells with an empty dictionary: the stacks take the
    last 2 * 32 cells, nothing has been compiled yet. *)
Definition blank : forth :=
  {| o_header := make_header lp64; core_size := 128; o_S := 64;
     o_m := <[Z.to_nat DIC := DICTIONARY_START]>
              (<[Z.to_nat RSTK := 96]>
                 (<[Z.to_nat STACK_SIZE := 32]> (repeat 0 128)));
     o_world := world0 |}.

(** The instance [forth_init] builds on [lp64] with 2048 cells: the whole
    bootstrap, prelude included, run by the model. *)
Definition booted_result : option (outcome forth unit) :=
  Eval vm_compute in forth_init lp64 (100 * 1000) 2048 1000 1001 world0.

Definition booted : forth :=
  match booted_result with
  | Some (Ok _ o) => o
  | _ => blank
  end.

(** The number of cells [compile] reserves for a name: its [l]. *)
Definition name_cells (P : platform) (str : list Z) : Z :=
  Z.land (Z.of_nat (length str) + 1 + (cell_bytes P - 1))
         (Z.lnot (cell_bytes P - 1)) / cell_bytes P.

(** [blank] set up so that the first turn of the dispatch loop executes a
    COMMA with the dictionary pointer at [d]: the instruction stream at
    cell 70 names cell 72, which holds the opcode. *)
Definition at_comma (d : Z) : forth :=
  set_m blank
    (<[Z.to_nat DIC := d]>
       (<[Z.to_nat INSTRUCTION := 70]>
          (<[Z.to_nat TOP := 9]>
             (<[70%nat := 72]> (<[72%nat := opcode COMMA]> (o_m blank)))))).

(** Does the block file open, and does [fread] or [fwrite] then report
    [BLOCK_SIZE] bytes? *)
Definition reported (P : platform) (o : forth) (id rw : Z) : bool :=
  if rw =? 114 then
    match w_blocks (o_world o) (block_name id) with
    | Some data => BLOCK_SIZE <=? Z.of_nat (length data)
    | None => false
    end
  else
    match w_disk (o_world o) (block_name id) with
    | Some k => file_buffered P || (BLOCK_SIZE <=? k)
    | None => false
    end.

(** The character [blockio] is called with by BSAVE and by BLOAD. *)
Definition block_mode (i : instructions) : Z :=
  match i with BLOAD => 114 | _ => 119 end.

(** A host whose working directory holds block 5, 1024 bytes 'A', and a
    state of the dispatch loop over [blank] on that host with the cells 0
    (a byte offset) and 5 (a block id) on the data stack. *)
Definition world5 : world :=
  {| w_stderr := []; w_output := []; w_input := fun _ => [];
     w_strings := []; w_clock := [];
     w_blocks := fun n => if String.eqb n "0005.blk"
                          then Some (repeat 65 1024) else None;
     w_disk := fun _ => None |}.

Definition loading : vm :=
  {| obj := set_world blank world5;
     r_pc := 0; r_S := 65; r_I := 67; r_f := 5 |}.

(** A state of the dispatch loop over [blank]: two cells 42 and 5 on the
    data stack (42 in memory, 5 cached in [f]). *)
Definition running : vm :=
  {| obj := set_m blank (<[65%nat := 42]> (o_m blank));
     r_pc := 0; r_S := 65; r_I := 67; r_f := 5 |}.

(** The image file [forth_save_core] writes for [o] on [lp64] when the
    stream takes all of it. *)
Definition image_of (o : forth) : list Z :=
  match forth_save_core lp64 5 20000 o with
  | Ok _ o' =>
      match last (w_output (o_world o')) with
      | Some (_, bs) => bs
      | None => []
      end
  | _ => []
  end.

Definition booted_image : list Z := Eval vm_compute in image_of booted.

(** The 8-byte [core_size] field of an image. *)
Definition size_field (dump : list Z) : list Z := firstn 8 (skipn 8 dump).

(** The bootstrapped instance about to read the text [src] in mode
    [st] (0 is command mode, 1 is compile mode): the locals as [forth_run]
    sets them up after [forth_set_string_input]. *)
Definition reading (src : string) (st : Z) : vm :=
  match (p <- host_new_string (bytes_of_string src) ;;
         forth_set_string_input lp64 p ;;;
         wr STATE st) booted with
  | Ok _ o => enter o 67 0
  | _ => enter booted 67 0
  end.

(** The instance after [forth_get_word(o, o->s)]. *)
Definition after_word (P : platform) (v : vm) : forth :=
  match forth_get_word P (o_s P) (obj v) with
  | Ok _ o1 => o1
  | _ => obj v
  end.

(** The instance after the debug trace of [check_bounds], if tracing is
    on. *)
Definition debugged (f line : Z) (o : forth) : forth :=
  match load (o_m o) DEBUG with
  | Some 0 | None => o
  | Some _ => log (debug_line f line) o
  end.

(** What [compile code str] leaves behind when the dictionary pointer was
    [h] and PWD was [p]. *)
Definition header_at (P : platform) (code : Z) (str : list Z) (h p : Z)
    (o o' : forth) : Prop :=
  let L := name_cells P str in
  load (o_m o') DIC = Some (h + L + 2) /\
  load (o_m o') PWD = Some (h + L) /\
  load (o_m o') (h + L) = Some p /\
  load (o_m o') (h + L + 1)
    = Some (cell P (Z.lor (Z.shiftl L WORD_LENGTH_OFFSET) code)) /\
  (forall j, j < h -> j <> DIC -> j <> PWD ->
     load (o_m o') j = load (o_m o) j) /\
  length (o_m o') = length (o_m o) /\
  core_size o' = core_size o /\ o_S o' = o_S o /\ o_world o' = o_world o.

(** The cell a dictionary append writes: [f] for COMMA, the code field
    address [pc] for COMPILE. *)
Definition appended (i : instructions) (v : vm) : Z :=
  match i with COMMA => r_f v | _ => r_pc v end.

(** What a call of [forth_run] returned and what it wrote to its output
    stream. *)
Definition printed (r : outcome forth Z) : option (Z * list string) :=
  match r with
  | Ok rc o => Some (rc, map (fun x => string_of_bytes (snd x))
                             (w_output (o_world o)))
  | _ => None
  end.

(** Byte [a] of the memory [m], as [rd_byte] reads it. *)
Definition mem_byte (P : platform) (m : list Z) (a : Z) : option Z :=
  match load m (a / cell_bytes P) with
  | Some c => Some (Z.land (Z.shiftr c (8 * lane P a)) 255)
  | None => None
  end.

(** The bytes of a C string: none of them is NUL, each fits a byte. *)
Definition c_string (s : list Z) : Prop := Forall (fun b => 0 < b < 256) s.

(** The cells of a memory are values of [forth_cell_t]. *)
Definition cells (P : platform) (m : list Z) : Prop :=
  Forall (fun c => 0 <= c < 2 ^ cell_bits P) m.

(** The image file of [o]: header, [core_size] as a [uint64_t], memory. *)
Definition core_image (P : platform) (o : forth) : list Z :=
  o_header o ++ host_bytes P 8 (uint64 (core_size o))
    ++ flat_map (host_bytes P (Z.to_nat (cell_bytes P)))
         (firstn (Z.to_nat (uint64 (core_size o))) (o_m o)).

(** The object [forth_load_core] hands to [forth_make_default]. *)
Definition loaded (P : platform) (o : forth) (w : world) : forth :=
  {| o_header := o_header o; core_size := cell P (core_size o); o_S := 0;
     o_m := o_m o; o_world := w |}.

(** [blank] with the first turn of the dispatch loop at a cell that holds
    [x]. *)
Definition at_cell (x : Z) : forth :=
  set_m blank
    (<[Z.to_nat INSTRUCTION := 70]>
       (<[Z.to_nat TOP := 9]>
          (<[70%nat := 72]> (<[72%nat := x]> (o_m blank))))).

(** [blank] with a thread at cell 70: the word at cell 80, a PUSH, then
    the literal [lit], then the zero cell that ends the thread. *)
Definition at_literal (lit : Z) : forth :=
  set_m blank
    (<[Z.to_nat INSTRUCTION := 70]>
       (<[Z.to_nat TOP := 9]>
          (<[70%nat := 80]>
             (<[71%nat := lit]>
                (<[80%nat := opcode PUSH]> (o_m blank)))))).

(** A host on which every block file can be created and takes [room]
    bytes. *)
Definition disk (room : Z) : world :=
  {| w_stderr := []; w_output := []; w_input := fun _ => [];
     w_strings := []; w_clock := []; w_blocks := fun _ => None;
     w_disk := fun _ => Some room |}.



(** What a [blockio] in write mode, once past the offset test, leaves
    behind in [o']: the memory is as it was; when the file cannot be
    created there is the diagnostic and nothing else; otherwise the file
    holds, of the 1024 bytes at [poffset], those the device took. *)
Definition block_written (P : platform) (o o' : forth) (poffset : Z)
    (name : string) : Prop :=
  o_m o' = o_m o /\
  match w_disk (o_world o) name with
  | None => o' = log (file_open_error name) o
  | Some k =>
      exists bytes,
        length bytes = Z.to_nat BLOCK_SIZE /\
        (forall j, (j < length bytes)%nat ->
           mem_byte P (o_m o) (poffset + Z.of_nat j) = bytes !! j) /\
        w_blocks (o_world o') name
          = Some (firstn (Z.to_nat (Z.min (Z.max k 0) BLOCK_SIZE)) bytes)
  end.

(** What a [blockio] in read mode, once past the offset test, leaves
    behind in [o']: when the file does not open there is the diagnostic
    and nothing else; otherwise the bytes [fread] got, at most 1024, lie
    at [poffset] and no other byte of the memory has changed. *)
Definition block_read (P : platform) (o o' : forth) (poffset : Z)
    (name : string) : Prop :=
  match w_blocks (o_world o) name with
  | None => o' = log (file_open_error name) o
  | Some data =>
      Forall (fun b => 0 <= b < 256) data ->
      let got := firstn (Z.to_nat BLOCK_SIZE) data in
      o_world o' = o_world o /\
      (forall j, (j < length got)%nat ->
         mem_byte P (o_m o') (poffset + Z.of_nat j) = got !! j) /\
      (forall a, 0 <= a ->
         a < poffset \/ poffset + Z.of_nat (length got) <= a ->
         mem_byte P (o_m o') a = mem_byte P (o_m o) a)
  end.

(** A host whose device takes 100 bytes of a new block file, and a state
    of the dispatch loop over [blank] on that host with the cells 0 (a
    byte offset) and 7 (a block id) on the data stack. *)
Definition saving : vm :=
  {| obj := set_world blank (disk 100);
     r_pc := 0; r_S := 65; r_I := 67; r_f := 7 |}.

(** The input registers select the host string [str], with [idx] bytes of
    it consumed. *)
Definition string_input (P : platform) (o : forth) (str : list Z) (idx : Z)
  : Prop :=
  load (o_m o) SOURCE_ID = Some (cell P STRING_IN) /\
  load (o_m o) SIDX = Some idx /\
  exists p, load (o_m o) SIN = Some p /\ 0 < p /\
            w_strings (o_world o) !! Z.to_nat (p - 1) = Some str.

(** [blank] after [forth_set_string_input] on the text [src]. *)
Definition typed (src : string) : forth :=
  match (p <- host_new_string (bytes_of_string src) ;;
         forth_set_string_input lp64 p) blank with
  | Ok _ o => o
  | _ => blank
  end.

(** Two spellings of a name that differ in letter case only. *)
Definition same_modulo_case (s1 s2 : list Z) : Prop :=
  map tolower s1 = map tolower s2.

(* ========================================================================= *)
(*                              Properties                                   *)

(** ** The model at work

    The bootstrap succeeds, and programs run on the bootstrapped instance
    behave as the interpreter does. [printed] is what went to the output
    stream, one entry per call. *)

Example bootstrap_succeeds : exists o, booted_result = Some (Ok tt o).
Proof. eexists. reflexivity. Qed.

Example eval_add :
  printed (eval_string lp64 1000 "2 3 + pnum" booted) = Some (0, ["5"%string]).
Proof. vm_compute. reflexivity. Qed.

Example eval_colon_definition :
  printed (eval_string lp64 1000 ": sq dup * ; 7 sq pnum" booted)
    = Some (0, ["49"%string]).
Proof. vm_compute. reflexivity. Qed.

Example eval_loop :
  printed (eval_string lp64 1000
             ": count begin dup pnum 1 - dup 0 = until drop ; 3 count" booted)
    = Some (0, ["3"; "2"; "1"]%string).
Proof. vm_compute. reflexivity. Qed.

Example eval_depth :
  printed (eval_string lp64 1000 "1 2 3 depth pnum drop drop drop" booted)
    = Some (0, ["3"%string]).
Proof. vm_compute. reflexivity. Qed.

Example eval_hex :
  printed (eval_string lp64 1000 "255 16 base ! pnum" booted)
    = Some (0, ["0x00000000000000ff"%string]).
Proof. vm_compute. reflexivity. Qed.

Example eval_unknown_words :
  match eval_string lp64 1000 "hello world" booted with
  | Ok rc o => Some (rc, w_stderr (o_world o))
  | _ => None
  end = Some (0, [not_a_word (bytes_of_string "hello");
                  not_a_word (bytes_of_string "world")]).
Proof. vm_compute. reflexivity. Qed.

(** ** Memory *)

Lemma load_inv (m : list Z) i x :
  load m i = Some x -> 0 <= i < Z.of_nat (length m).
Proof.
  unfold load. destruct (Z.leb_spec 0 i); [|discriminate].
  intros H1. apply lookup_lt_Some in H1. lia.
Qed.

Lemma load_in_range (m : list Z) i :
  0 <= i < Z.of_nat (length m) -> exists x, load m i = Some x.
Proof.
  intros H. unfold load. destruct (Z.leb_spec 0 i); [|lia].
  destruct (lookup_lt_is_Some_2 m (Z.to_nat i)) as [x Hx]; [lia|]. eauto.
Qed.

Lemma store_in_range (m : list Z) i x :
  0 <= i < Z.of_nat (length m) ->
  store m i x = Some (<[Z.to_nat i := x]> m).
Proof.
  intros H. unfold store.
  destruct (Z.leb_spec 0 i); [|lia]. destruct (Z.ltb_spec i (Z.of_nat (length m))); [|lia].
  reflexivity.
Qed.

Lemma store_inv (m m' : list Z) i x :
  store m i x = Some m' ->
  0 <= i < Z.of_nat (length m) /\ m' = <[Z.to_nat i := x]> m.
Proof.
  unfold store.
  destruct (Z.leb_spec 0 i); [|discriminate].
  destruct (Z.ltb_spec i (Z.of_nat (length m))); [|discriminate].
  simpl. intros [= <-]. split; [lia | reflexivity].
Qed.

Lemma load_insert_eq (m : list Z) i x :
  0 <= i < Z.of_nat (length m) ->
  load (<[Z.to_nat i := x]> m) i = Some x.
Proof.
  intros H. unfold load. destruct (Z.leb_spec 0 i); [|lia].
  apply list_lookup_insert_eq. lia.
Qed.

Lemma load_insert_ne (m : list Z) i j x :
  0 <= i -> i <> j ->
  load (<[Z.to_nat i := x]> m) j = load m j.
Proof.
  intros Hi Hne. unfold load. destruct (Z.leb_spec 0 j); [|reflexivity].
  apply list_lookup_insert_ne. lia.
Qed.

Lemma length_insert_Z (m : list Z) (n : nat) x :
  Z.of_nat (length (<[n := x]> m)) = Z.of_nat (length m).
Proof. now rewrite length_insert. Qed.

(** ** The record updates *)

Create Rewrite HintDb forth.

Lemma o_m_set_m o m : o_m (set_m o m) = m.
Proof. reflexivity. Qed.
Lemma o_S_set_m o m : o_S (set_m o m) = o_S o.
Proof. reflexivity. Qed.
Lemma core_size_set_m o m : core_size (set_m o m) = core_size o.
Proof. reflexivity. Qed.
Lemma o_world_set_m o m : o_world (set_m o m) = o_world o.
Proof. reflexivity. Qed.
Lemma o_m_set_S o s : o_m (set_S o s) = o_m o.
Proof. reflexivity. Qed.
Lemma o_S_set_S o s : o_S (set_S o s) = s.
Proof. reflexivity. Qed.
Lemma core_size_set_S o s : core_size (set_S o s) = core_size o.
Proof. reflexivity. Qed.
Lemma o_world_set_S o s : o_world (set_S o s) = o_world o.
Proof. reflexivity. Qed.
Lemma o_m_set_world o w : o_m (set_world o w) = o_m o.
Proof. reflexivity. Qed.
Lemma o_S_set_world o w : o_S (set_world o w) = o_S o.
Proof. reflexivity. Qed.
Lemma core_size_set_world o w : core_size (set_world o w) = core_size o.
Proof. reflexivity. Qed.
Lemma o_world_set_world o w : o_world (set_world o w) = w.
Proof. reflexivity. Qed.

Lemma obj_set_obj v x : obj (set_obj v x) = x.
Proof. reflexivity. Qed.
Lemma r_pc_set_obj v x : r_pc (set_obj v x) = r_pc v.
Proof. reflexivity. Qed.
Lemma r_S_set_obj v x : r_S (set_obj v x) = r_S v.
Proof. reflexivity. Qed.
Lemma r_I_set_obj v x : r_I (set_obj v x) = r_I v.
Proof. reflexivity. Qed.
Lemma r_f_set_obj v x : r_f (set_obj v x) = r_f v.
Proof. reflexivity. Qed.
Lemma obj_with_pc v x : obj (with_pc v x) = obj v.
Proof. reflexivity. Qed.
Lemma r_pc_with_pc v x : r_pc (with_pc v x) = x.
Proof. reflexivity. Qed.
Lemma r_S_with_pc v x : r_S (with_pc v x) = r_S v.
Proof. reflexivity. Qed.
Lemma r_I_with_pc v x : r_I (with_pc v x) = r_I v.
Proof. reflexivity. Qed.
Lemma r_f_with_pc v x : r_f (with_pc v x) = r_f v.
Proof. reflexivity. Qed.
Lemma obj_with_S v x : obj (with_S v x) = obj v.
Proof. reflexivity. Qed.
Lemma r_pc_with_S v x : r_pc (with_S v x) = r_pc v.
Proof. reflexivity. Qed.
Lemma r_S_with_S v x : r_S (with_S v x) = x.
Proof. reflexivity. Qed.
Lemma r_I_with_S v x : r_I (with_S v x) = r_I v.
Proof. reflexivity. Qed.
Lemma r_f_with_S v x : r_f (with_S v x) = r_f v.
Proof. reflexivity. Qed.
Lemma obj_with_I v x : obj (with_I v x) = obj v.
Proof. reflexivity. Qed.
Lemma r_pc_with_I v x : r_pc (with_I v x) = r_pc v.
Proof. reflexivity. Qed.
Lemma r_S_with_I v x : r_S (with_I v x) = r_S v.
Proof. reflexivity. Qed.
Lemma r_I_with_I v x : r_I (with_I v x) = x.
Proof. reflexivity. Qed.
Lemma r_f_with_I v x : r_f (with_I v x) = r_f v.
Proof. reflexivity. Qed.
Lemma obj_with_f v x : obj (with_f v x) = obj v.
Proof. reflexivity. Qed.
Lemma r_pc_with_f v x : r_pc (with_f v x) = r_pc v.
Proof. reflexivity. Qed.
Lemma r_S_with_f v x : r_S (with_f v x) = r_S v.
Proof. reflexivity. Qed.
Lemma r_I_with_f v x : r_I (with_f v x) = r_I v.
Proof. reflexivity. Qed.
Lemma r_f_with_f v x : r_f (with_f v x) = x.
Proof. reflexivity. Qed.
Lemma o_m_log s o : o_m (log s o) = o_m o.
Proof. reflexivity. Qed.
Lemma o_S_log s o : o_S (log s o) = o_S o.
Proof. reflexivity. Qed.
Lemma core_size_log s o : core_size (log s o) = core_size o.
Proof. reflexivity. Qed.

#[global] Hint Rewrite o_m_set_m o_S_set_m core_size_set_m o_world_set_m
  o_m_set_S o_S_set_S core_size_set_S o_world_set_S
  o_m_set_world o_S_set_world core_size_set_world o_world_set_world
  length_insert_Z
  obj_set_obj r_pc_set_obj r_S_set_obj r_I_set_obj r_f_set_obj obj_with_pc r_pc_with_pc r_S_with_pc r_I_with_pc r_f_with_pc
  obj_with_S r_pc_with_S r_S_with_S r_I_with_S r_f_with_S obj_with_I r_pc_with_I r_S_with_I r_I_with_I r_f_with_I
  obj_with_f r_pc_with_f r_S_with_f r_I_with_f r_f_with_f o_m_log o_S_log core_size_log : forth.

Ltac msimpl := repeat (progress (cbv beta iota; autorewrite with forth)).
Ltac msimpl_in H :=
  repeat (progress (cbv beta iota in H; autorewrite with forth in H)).

(** Unfolding the monad and the accessors of the locals, down to [load]
    and [store] on the memory. *)
Ltac mrun :=
  repeat (progress (
    unfold bind, ret, get, put, assert, fail, goto_end, longjmp, lift,
      mrd, mwr, push, pop, get_pc, get_S, get_I, get_f,
      set_pc, set_rS, set_I, set_f, rd, wr, eprint;
    msimpl)).

(** Deciding the comparisons of the C code from linear facts. *)
Lemma ltb_t a b : a < b -> (a <? b) = true.
Proof. apply Z.ltb_lt. Qed.
Lemma ltb_f a b : b <= a -> (a <? b) = false.
Proof. apply Z.ltb_ge. Qed.
Lemma leb_t a b : a <= b -> (a <=? b) = true.
Proof. apply Z.leb_le. Qed.
Lemma leb_f a b : b < a -> (a <=? b) = false.
Proof. apply Z.leb_gt. Qed.
Lemma gtb_t a b : b < a -> (a >? b) = true.
Proof. rewrite Z.gtb_ltb. apply Z.ltb_lt. Qed.
Lemma gtb_f a b : a <= b -> (a >? b) = false.
Proof. rewrite Z.gtb_ltb. apply Z.ltb_ge. Qed.
Lemma geb_t a b : b <= a -> (a >=? b) = true.
Proof. rewrite Z.geb_leb. apply Z.leb_le. Qed.
Lemma geb_f a b : a < b -> (a >=? b) = false.
Proof. rewrite Z.geb_leb. apply Z.leb_gt. Qed.
Lemma eqb_t a b : a = b -> (a =? b) = true.
Proof. apply Z.eqb_eq. Qed.
Lemma eqb_f a b : a <> b -> (a =? b) = false.
Proof. apply Z.eqb_neq. Qed.

(** ** C10: a value pushed by the host is the value popped *)




(** ** C8: a poisoned instance stays poisoned *)

Lemma poison_spec (o : forth) (inv : Z) :
  load (o_m o) INVALID = Some inv ->
  poison o = Ok (-1) (set_m o (<[Z.to_nat INVALID := 1]> (o_m o))).
Proof.
  intros H. apply load_inv in H.
  unfold poison, bind, wr, ret. now rewrite store_in_range.
Qed.

(** An instance that [forth_run] accepts (it returns 0) had INVALID = 0. *)
Lemma forth_run_usable (P : platform) (fuel : nat) (o o' : forth) :
  forth_run P fuel o = Ok 0 o' -> load (o_m o) INVALID = Some 0.
Proof.
  unfold forth_run, bind, rd.
  destruct (load (o_m o) INVALID) as [inv|] eqn:E; [|discriminate].
  destruct (Z.eqb_spec inv 0) as [->|Hne]; [reflexivity|]. simpl.
  rewrite (poison_spec o inv E). discriminate.
Qed.

(** C8. When INVALID is not 0 on entry, [forth_run] returns -1 whatever
    the step budget (no turn of the dispatch loop is taken), the only
    cell it writes is INVALID, which becomes 1, and the instance it leaves
    is a fixed point: every later call returns -1 and leaves it as it is. *)
Theorem forth_run_invalid_sticky (P : platform) (fuel : nat) (o : forth)
    (inv : Z) :
  load (o_m o) INVALID = Some inv -> inv <> 0 ->
  let o' := set_m o (<[Z.to_nat INVALID := 1]> (o_m o)) in
  forth_run P fuel o = Ok (-1) o' /\
  load (o_m o') INVALID = Some 1 /\
  (forall i, i <> INVALID -> load (o_m o') i = load (o_m o) i) /\
  (forall fuel', forth_run P fuel' o' = Ok (-1) o').
Proof.
  intros H Hne o'.
  assert (Hrun : forall k p inv', load (o_m p) INVALID = Some inv' ->
            inv' <> 0 ->
            forth_run P k p = Ok (-1) (set_m p (<[Z.to_nat INVALID := 1]> (o_m p)))).
  { intros k p inv' Hp Hinv'. unfold forth_run, bind, rd. rewrite Hp.
    rewrite eqb_f by assumption. simpl. now apply poison_spec with inv'. }
  pose proof (load_inv _ _ _ H) as Hin.
  assert (H1 : load (o_m o') INVALID = Some 1).
  { subst o'. msimpl. now apply load_insert_eq. }
  split; [now apply Hrun with inv|]. split; [exact H1|]. split.
  - intros i Hi. subst o'. msimpl. apply load_insert_ne; [lia | congruence].
  - intros fuel'. rewrite (Hrun fuel' o' 1 H1) by lia.
    subst o'. msimpl. unfold set_m; cbn. now rewrite list_insert_insert_eq.
Qed.

(** A poisoned 128-cell instance. *)
Lemma forth_run_invalid_sticky_witness :
  let o := set_m blank (<[Z.to_nat INVALID := 7]> (o_m blank)) in
  let o' := set_m o (<[Z.to_nat INVALID := 1]> (o_m o)) in
  forth_run lp64 0 o = Ok (-1) o' /\
  load (o_m o') INVALID = Some 1 /\
  (forall i, i <> INVALID -> load (o_m o') i = load (o_m o) i) /\
  (forall fuel', forth_run lp64 fuel' o' = Ok (-1) o').
Proof.
  intros o.
  apply (forth_run_invalid_sticky lp64 0 o 7); [reflexivity | lia].
Defined.

(** ** C2: division *)

Lemma cell_small (P : platform) (z : Z) :
  0 <= z < 2 ^ cell_bits P -> cell P z = z.
Proof. intros H. unfold cell. now apply Z.mod_small. Qed.



(** ** C5: dictionary search ignores letter case *)

Lemma tolower_zero c : tolower c = 0 <-> c = 0.
Proof.
  unfold tolower.
  destruct (Z.leb_spec 65 c), (Z.leb_spec c 90); cbn; lia.
Qed.

(** [istrcmp] looks at its first argument through [tolower] only. *)
Lemma istrcmp_modulo_case (s1 : list Z) :
  forall s2 b, same_modulo_case s1 s2 -> istrcmp s1 b = istrcmp s2 b.
Proof.
  unfold same_modulo_case.
  induction s1 as [|c1 s1 IH]; intros [|c2 s2] b H; try discriminate.
  - reflexivity.
  - injection H as Hc Hs. cbn [istrcmp].
    assert (Hz : (c1 =? 0) = (c2 =? 0)).
    { destruct (Z.eqb_spec c1 0) as [->|N1], (Z.eqb_spec c2 0) as [->|N2];
        try reflexivity; exfalso.
      - apply N2, tolower_zero. now rewrite <- Hc.
      - apply N1, tolower_zero. now rewrite Hc. }
    assert (He : forall c, ((c =? hd 0 b) || (tolower c =? tolower (hd 0 b)))
                           = (tolower c =? tolower (hd 0 b))).
    { intros c. destruct (Z.eqb_spec c (hd 0 b)) as [->|]; cbn; [|reflexivity].
      symmetry. apply Z.eqb_refl. }
    rewrite !He, Hz, Hc.
    destruct ((tolower c2 =? tolower (hd 0 b)) && negb (c2 =? 0)
              && negb (hd 0 b =? 0)); [now apply IH | reflexivity].
Qed.

Lemma bind_cong {St A B} (c1 c2 : M St A) (k1 k2 : A -> M St B) (s : St) :
  c1 s = c2 s -> (forall a s', k1 a s' = k2 a s') ->
  bind c1 k1 s = bind c2 k2 s.
Proof. intros Hc H. unfold bind. rewrite Hc. destruct (c2 s); auto. Qed.

Lemma bind_ext {St A B} (c : M St A) (k1 k2 : A -> M St B) (s : St) :
  (forall a s', k1 a s' = k2 a s') -> bind c k1 s = bind c k2 s.
Proof. now apply bind_cong. Qed.

Lemma find_loop_modulo_case (fuel : nat) (s1 s2 : list Z) :
  same_modulo_case s1 s2 ->
  forall (P : platform) w len o,
    find_loop P fuel s1 w len o = find_loop P fuel s2 w len o.
Proof.
  intros H P. induction fuel as [|fuel IH]; intros w len o; [reflexivity|].
  cbn [find_loop]. destruct (w >? DICTIONARY_START); [|reflexivity].
  apply bind_ext; intros x o1.
  assert (Hskip : forall o',
    (if negb (WORD_HIDDEN x =? 0) then ret true
     else name <- rd_cstr P (cell P (w - len) * cell_bytes P) ;;
          ret (negb (istrcmp s1 name =? 0))) o'
    = (if negb (WORD_HIDDEN x =? 0) then ret true
       else name <- rd_cstr P (cell P (w - len) * cell_bytes P) ;;
            ret (negb (istrcmp s2 name =? 0))) o').
  { intros o'. destruct (negb (WORD_HIDDEN x =? 0)); [reflexivity|].
    apply bind_ext; intros name o2.
    now rewrite (istrcmp_modulo_case s1 s2 name H). }
  apply bind_cong; [apply Hskip|]. intros [|] o2; [|reflexivity].
  apply bind_ext; intros w' o3. apply bind_ext; intros x' o4. apply IH.
Qed.

(** C5. Two spellings that differ in letter case only get the same answer
    from [forth_find], on every instance: the same offset when the search
    ends (the MISC cell of the word, or 0), and the same failure when it
    does not. *)
Theorem forth_find_case_insensitive (P : platform) (o : forth)
    (s1 s2 : list Z) :
  same_modulo_case s1 s2 ->
  forth_find P s1 o = forth_find P s2 o.
Proof.
  intros H. unfold forth_find.
  apply bind_ext; intros w o1. apply bind_ext; intros x o2.
  apply bind_ext; intros o3 o4.
  apply bind_cong; [now apply find_loop_modulo_case | reflexivity].
Qed.

(** On the bootstrapped dictionary the three spellings of the spec are
    found, at the MISC cell of the primitive [dup]. *)
Lemma forth_find_case_insensitive_witness :
  forth_find lp64 (bytes_of_string "DUP") booted
    = forth_find lp64 (bytes_of_string "dup") booted /\
  forth_find lp64 (bytes_of_string "Dup") booted
    = forth_find lp64 (bytes_of_string "dup") booted /\
  forth_find lp64 (bytes_of_string "dup") booted = Ok 187 booted.
Proof.
  split; [|split].
  - apply (forth_find_case_insensitive lp64 booted); reflexivity.
  - apply (forth_find_case_insensitive lp64 booted); reflexivity.
  - vm_compute. reflexivity.
Defined.

(** ** Writing bytes into cells *)

Ltac mem :=
  repeat first
    [ progress msimpl
    | rewrite cell_small by lia
    | rewrite load_insert_eq by (msimpl; lia)
    | rewrite load_insert_ne by lia
    | rewrite store_in_range by (msimpl; lia) ].

(** [strcpy] and [fread] into [m] succeed when all the bytes lie inside
    [m], and change no cell below the first one they write to. *)
Lemma wr_bytes_frame (P : platform) (bs : list Z) :
  0 < cell_bytes P ->
  forall a o,
    0 <= a ->
    a + Z.of_nat (length bs) <= cell_bytes P * Z.of_nat (length (o_m o)) ->
    exists m',
      wr_bytes P a bs o = Ok tt (set_m o m') /\
      length m' = length (o_m o) /\
      forall j, j < a / cell_bytes P -> load m' j = load (o_m o) j.
Proof.
  intros HW. induction bs as [|b bs IH]; intros a o Ha Hfit.
  - exists (o_m o). destruct o; cbn. auto.
  - cbn [wr_bytes]. cbn [length] in Hfit.
    assert (Hq : 0 <= a / cell_bytes P) by (apply Z.div_pos; lia).
    assert (Hlt : a / cell_bytes P < Z.of_nat (length (o_m o)))
      by (apply Z.div_lt_upper_bound; lia).
    assert (Hle1 : a / cell_bytes P <= (a + 1) / cell_bytes P)
      by (apply Z.div_le_mono; lia).
    destruct (load_in_range (o_m o) (a / cell_bytes P)) as [c Hc]; [lia|].
    unfold wr_byte. mrun. rewrite Hc. mem.
    match goal with |- context [set_m o ?m1] => set (o1 := set_m o m1) end.
    destruct (IH (a + 1) o1) as (m' & Hwr & Hlen & Hfr).
    + lia.
    + subst o1. mem. lia.
    + exists m'. rewrite Hwr. subst o1. split; [reflexivity|].
      split; [now rewrite Hlen; mem; rewrite length_insert|].
      intros j Hj. rewrite Hfr by lia. mem. reflexivity.
Qed.

(** Reading [n] bytes that lie inside [m]. *)
Lemma rd_bytes_ok (P : platform) (n : nat) :
  0 < cell_bytes P ->
  forall a o,
    0 <= a ->
    a + Z.of_nat n <= cell_bytes P * Z.of_nat (length (o_m o)) ->
    exists bs, rd_bytes P n a o = Ok bs o /\ length bs = n.
Proof.
  intros HW. induction n as [|n IH]; intros a o Ha Hfit.
  - exists []. auto.
  - cbn [rd_bytes].
    assert (Hq : 0 <= a / cell_bytes P) by (apply Z.div_pos; lia).
    assert (Hlt : a / cell_bytes P < Z.of_nat (length (o_m o)))
      by (apply Z.div_lt_upper_bound; lia).
    destruct (load_in_range (o_m o) (a / cell_bytes P)) as [c Hc]; [lia|].
    destruct (IH (a + 1) o) as (bs & Hrd & Hl); [lia | lia |].
    unfold rd_byte. mrun. rewrite Hc. msimpl. rewrite Hrd.
    eexists. split; [reflexivity|]. cbn [length]. now rewrite Hl.
Qed.

(** For a cell size that is a power of two the aligned length holds the
    name and its NUL. *)
Lemma name_cells_fits (P : platform) (k : Z) (str : list Z) :
  0 <= k -> cell_bytes P = 2 ^ k ->
  0 <= name_cells P str /\
  Z.of_nat (length str) + 1 <= name_cells P str * cell_bytes P.
Proof.
  intros Hk HW. unfold name_cells. rewrite HW.
  set (n := Z.of_nat (length str) + 1).
  assert (H2 : 0 < 2 ^ k) by (apply Z.pow_pos_nonneg; lia).
  replace (2 ^ k - 1) with (Z.ones k) by (rewrite Z.ones_equiv; lia).
  rewrite <- Z.ldiff_land, Z.ldiff_ones_r by lia.
  rewrite Z.shiftl_mul_pow2, Z.shiftr_div_pow2 by lia.
  rewrite Z.div_mul by lia.
  rewrite Z.ones_equiv.
  pose proof (Z.div_mod (n + Z.pred (2 ^ k)) (2 ^ k) ltac:(lia)) as Hdm.
  pose proof (Z.mod_pos_bound (n + Z.pred (2 ^ k)) (2 ^ k) H2) as Hmb.
  split.
  - apply Z.div_pos; lia.
  - nia.
Qed.

(** ** The word header [compile] lays down *)

Lemma compile_spec (P : platform) (k : Z) (code : Z) (str : list Z)
    (o : forth) (h p : Z) :
  0 <= k -> cell_bytes P = 2 ^ k ->
  code < LAST ->
  load (o_m o) DIC = Some h ->
  load (o_m o) PWD = Some p ->
  PWD < h ->
  h + name_cells P str + 1 < Z.of_nat (length (o_m o)) ->
  Z.of_nat (length (o_m o)) < 2 ^ cell_bits P ->
  exists o', compile P code str o = Ok tt o' /\ header_at P code str h p o o'.
Proof.
  intros Hk HW Hcode Hh Hp Hph Hfit Hsz.
  destruct (name_cells_fits P k str Hk HW) as [HL0 HLfit].
  assert (HWpos : 0 < cell_bytes P) by (rewrite HW; apply Z.pow_pos_nonneg; lia).
  unfold header_at. fold (name_cells P str) in *.
  set (L := name_cells P str) in *.
  unfold PWD, DIC in *.
  destruct (wr_bytes_frame P (str ++ [0]) HWpos (h * cell_bytes P) o)
    as (m1 & Hwr & Hlen1 & Hfr1).
  { lia. }
  { rewrite length_app. cbn [length]. nia. }
  rewrite Z.div_mul in Hfr1 by lia.
  assert (Hlen1' : Z.of_nat (length m1) = Z.of_nat (length (o_m o))) by lia.
  unfold compile. fold (name_cells P str). fold L. unfold DIC, PWD.
  mrun. rewrite ltb_t by assumption. rewrite Hh. mrun. rewrite Hwr. mrun.
  rewrite (Hfr1 6), Hh by lia.
  assert (Hp1 : load m1 10 = Some p) by (rewrite Hfr1; [assumption | lia]).
  mem. rewrite Hp1. mem.
  replace (h + L + 1 - 1) with (h + L) by lia.
  mem.
  eexists. split; [reflexivity|]. mem.
  split; [f_equal; lia|]. split; [reflexivity|]. split; [reflexivity|].
  split; [reflexivity|].
  split; [|split; [|auto]].
  - intros j Hj H6 H10. mem. apply Hfr1. assumption.
  - rewrite !length_insert. assumption.
Qed.

(** ** C4: the chain of word headers *)

(** C4 as the spec states it fails: after two headers are compiled into an
    empty dictionary, the second header starts at h = 67 with an L = 1 cell
    name; PWD is 68, the link cell, not the MISC cell h + L + 1 = 69, and the
    link cell holds 65, the link cell of the first word, not its MISC cell
    66. [forth_find] adds the 1 when it answers. *)
Lemma compile_links_counterexample :
  exists o1 o2,
    compile lp64 COMPILE (bytes_of_string "dup") blank = Ok tt o1 /\
    compile lp64 COMPILE (bytes_of_string "drop") o1 = Ok tt o2 /\
    load (o_m o1) DIC = Some 67 /\
    name_cells lp64 (bytes_of_string "drop") = 1 /\
    load (o_m o1) PWD = Some 65 /\
    load (o_m o1) 66 = Some (Z.lor (Z.shiftl 1 8) COMPILE) /\
    load (o_m o2) PWD <> Some (67 + 1 + 1) /\
    load (o_m o2) (67 + 1) <> Some 66 /\
    forth_find lp64 (bytes_of_string "dup") o2 = Ok 66 o2.
Proof.
  eexists _, _. split; [vm_compute; reflexivity|].
  split; [vm_compute; reflexivity|].
  repeat split; try (vm_compute; reflexivity); vm_compute; discriminate.
Qed.

(** C4, amended. After [compile code str] on a dictionary whose pointer
    was [h] and whose PWD was [p], with [L = name_cells str]: PWD holds
    [h + L], the offset of the new PWD-link cell; that cell holds [p], the
    former PWD (the link cell of the previous word, or the initial 0); the
    MISC cell at [h + L + 1] holds [(L << 8) | code]; and DIC is
    [h + L + 2]. *)
Theorem compile_links (P : platform) (k : Z) (code : Z) (str : list Z)
    (o : forth) (h p : Z) :
  0 <= k -> cell_bytes P = 2 ^ k ->
  code < LAST ->
  load (o_m o) DIC = Some h ->
  load (o_m o) PWD = Some p ->
  PWD < h ->
  h + name_cells P str + 1 < Z.of_nat (length (o_m o)) ->
  Z.of_nat (length (o_m o)) < 2 ^ cell_bits P ->
  exists o',
    compile P code str o = Ok tt o' /\
    load (o_m o') PWD = Some (h + name_cells P str) /\
    load (o_m o') (h + name_cells P str) = Some p /\
    load (o_m o') (h + name_cells P str + 1)
      = Some (cell P (Z.lor (Z.shiftl (name_cells P str) WORD_LENGTH_OFFSET)
                            code)) /\
    load (o_m o') DIC = Some (h + name_cells P str + 2).
Proof.
  intros Hk HW Hcode Hh Hp Hph Hfit Hsz.
  destruct (compile_spec P k code str o h p) as (o' & Hc & Hhd); try assumption.
  destruct Hhd as (H1 & H2 & H3 & H4 & _).
  exists o'. auto.
Qed.

Lemma compile_links_witness :
  exists o',
    compile lp64 COMPILE (bytes_of_string "dup") blank = Ok tt o' /\
    load (o_m o') PWD = Some 65 /\
    load (o_m o') 65 = Some 0 /\
    load (o_m o') 66 = Some 257 /\
    load (o_m o') DIC = Some 67.
Proof.
  apply (compile_links lp64 3 COMPILE (bytes_of_string "dup") blank 64 0);
    vm_compute; first [reflexivity | discriminate].
Defined.

(** ** The bounds check *)

Lemma o_m_debugged f line o : o_m (debugged f line o) = o_m o.
Proof. unfold debugged. destruct (load (o_m o) DEBUG) as [[| |]|]; reflexivity. Qed.
Lemma o_S_debugged f line o : o_S (debugged f line o) = o_S o.
Proof. unfold debugged. destruct (load (o_m o) DEBUG) as [[| |]|]; reflexivity. Qed.
Lemma core_size_debugged f line o :
  core_size (debugged f line o) = core_size o.
Proof. unfold debugged. destruct (load (o_m o) DEBUG) as [[| |]|]; reflexivity. Qed.

#[global] Hint Rewrite o_m_debugged o_S_debugged core_size_debugged : forth.

Lemma check_bounds_pass (o : forth) (f line : Z) :
  DEBUG < Z.of_nat (length (o_m o)) ->
  f < core_size o ->
  check_bounds f line o = Ok f (debugged f line o).
Proof.
  intros Hd Hf. destruct (load_in_range (o_m o) DEBUG) as [dbg Hdbg];
    [unfold DEBUG in *; lia|].
  unfold check_bounds, debugged. mrun. rewrite Hdbg.
  destruct dbg; cbn [Z.eqb negb]; mrun; now rewrite geb_f by lia.
Qed.

Lemma check_bounds_fatal (o : forth) (f line : Z) :
  DEBUG < Z.of_nat (length (o_m o)) ->
  core_size o <= f ->
  check_bounds f line o
    = LongJmp (log (bounds_line f (core_size o)) (debugged f line o)).
Proof.
  intros Hd Hf. destruct (load_in_range (o_m o) DEBUG) as [dbg Hdbg];
    [unfold DEBUG in *; lia|].
  unfold check_bounds, debugged. mrun. rewrite Hdbg.
  destruct dbg; cbn [Z.eqb negb]; mrun; now rewrite geb_t by lia.
Qed.

Lemma ck_pass (v : vm) (f line : Z) :
  DEBUG < Z.of_nat (length (o_m (obj v))) ->
  f < core_size (obj v) ->
  ck f line v = Ok f (set_obj v (debugged f line (obj v))).
Proof. intros. unfold ck, lift. now rewrite check_bounds_pass. Qed.

Lemma ck_fatal (v : vm) (f line : Z) :
  DEBUG < Z.of_nat (length (o_m (obj v))) ->
  core_size (obj v) <= f ->
  ck f line v
    = LongJmp (set_obj v (log (bounds_line f (core_size (obj v)))
                                 (debugged f line (obj v)))).
Proof. intros. unfold ck, lift. now rewrite check_bounds_fatal. Qed.

(** ** The dispatch loop *)

Lemma run_steps (P : platform) (k n : nat) :
  forall p v p' v',
    steps P k p v = Ok p' v' -> run P (k + n) p v = run P n p' v'.
Proof.
  induction k as [|k IH]; intros p v p' v' H.
  - cbn in H. injection H as -> ->. reflexivity.
  - cbn [steps] in H. cbn [Nat.add run]. unfold bind in *.
    destruct (step P p v) as [p1 v1| | |]; try discriminate.
    now apply IH.
Qed.

Lemma run_longjmp (P : platform) (n : nat) (p : point) (v v' : vm) :
  step P p v = LongJmp v' -> run P (S n) p v = LongJmp v'.
Proof. intros H. cbn [run]. unfold bind. now rewrite H. Qed.

(** The error trampoline: a [longjmp] out of the loop poisons the
    instance and makes [forth_run] return -1. *)
Lemma forth_run_longjmp (P : platform) (fuel : nat) (o : forth) (I f : Z)
    (v' : vm) :
  load (o_m o) INVALID = Some 0 ->
  load (o_m o) INSTRUCTION = Some I ->
  load (o_m o) TOP = Some f ->
  run P fuel LOOP (enter o I f) = LongJmp v' ->
  INVALID < Z.of_nat (length (o_m (obj v'))) ->
  forth_run P fuel o
    = Ok (-1) (set_m (obj v') (<[Z.to_nat INVALID := 1]> (o_m (obj v')))).
Proof.
  intros Hinv HI Hf Hrun Hlen.
  unfold forth_run. mrun. rewrite Hinv. cbn [Z.eqb negb].
  rewrite HI, Hf, Hrun.
  destruct (load_in_range (o_m (obj v')) INVALID) as [x Hx];
    [unfold INVALID in *; lia|].
  now apply poison_spec with x.
Qed.

(** Entering the switch at a cell that holds instruction [i]. *)
Lemma inner_dispatch (P : platform) (v : vm) (x : Z) (i : instructions) :
  0 < r_S v < core_size (obj v) ->
  DEBUG < Z.of_nat (length (o_m (obj v))) ->
  r_pc v < core_size (obj v) ->
  load (o_m (obj v)) (r_pc v) = Some x ->
  decode (instruction x) = Some i ->
  inner P v
    = exec P i (set_obj (with_pc v (cell P (r_pc v + 1)))
                        (debugged (r_pc v) 923 (obj v))).
Proof.
  intros HS Hd Hpc Hx Hi. unfold inner.
  unfold bind at 1. unfold get. unfold bind at 1. unfold assert.
  rewrite gtb_t, ltb_t by lia. cbn [andb].
  unfold bind at 1. unfold get_pc. unfold bind at 1. unfold set_pc.
  unfold bind at 1. rewrite ck_pass by (msimpl; assumption).
  unfold bind at 1. unfold mrd, lift, rd. msimpl. rewrite Hx. now rewrite Hi.
Qed.

(** ** C3: how far the dictionary can grow *)

Lemma exec_append_ok (P : platform) (i : instructions) (u : vm) (d : Z) :
  i = COMMA \/ i = COMPILE ->
  Z.of_nat (length (o_m (obj u))) = core_size (obj u) ->
  START_TIME < core_size (obj u) < 2 ^ cell_bits P ->
  0 <= r_S u < core_size (obj u) ->
  load (o_m (obj u)) DIC = Some d ->
  DICTIONARY_START <= d < core_size (obj u) ->
  exists u',
    exec P i u = Ok LOOP u' /\
    load (o_m (obj u')) d = Some (appended i u) /\
    load (o_m (obj u')) DIC = Some (d + 1) /\
    (forall j, j <> d -> j <> DIC ->
       load (o_m (obj u')) j = load (o_m (obj u)) j).
Proof.
  intros Hi Hlen Hsz HS Hd Hdr.
  unfold START_TIME, DICTIONARY_START, STRING_OFFSET, MAX_WORD_LENGTH, DIC in *.
  destruct Hi as [-> | ->]; unfold exec, appended, DIC.
  - unfold bind at 1. unfold mrd at 1, lift, rd. rewrite Hd.
    unfold bind at 1. unfold mwr at 1, lift, wr.
    msimpl. rewrite store_in_range by lia. msimpl.
    unfold bind at 1. rewrite ck_pass by (unfold DEBUG; msimpl; lia).
    mrun. rewrite cell_small by lia. mem.
    destruct (load_in_range
                (<[Z.to_nat d := r_f u]> (<[Z.to_nat 6 := d + 1]> (o_m (obj u))))
                (r_S u)) as [x Hx]; [msimpl; lia|].
    rewrite Hx. eexists. split; [reflexivity|]. mem.
    split; [reflexivity|]. split; [reflexivity|].
    intros j Hj1 Hj2. now mem.
  - unfold bind at 1. unfold mrd at 1, lift, rd. rewrite Hd.
    unfold bind at 1. unfold mwr at 1, lift, wr.
    msimpl. rewrite store_in_range by lia. msimpl.
    unfold bind at 1. rewrite ck_pass by (unfold DEBUG; msimpl; lia).
    mrun. rewrite cell_small by lia. mem.
    eexists. split; [reflexivity|]. mem.
    split; [reflexivity|]. split; [reflexivity|].
    intros j Hj1 Hj2. now mem.
Qed.

Lemma exec_append_fatal (P : platform) (i : instructions) (u : vm) (d : Z) :
  i = COMMA \/ i = COMPILE ->
  Z.of_nat (length (o_m (obj u))) = core_size (obj u) ->
  START_TIME < core_size (obj u) ->
  load (o_m (obj u)) DIC = Some d ->
  core_size (obj u) <= d ->
  exists u',
    exec P i u = LongJmp u' /\
    length (o_m (obj u')) = length (o_m (obj u)) /\
    last (w_stderr (o_world (obj u')))
      = Some (bounds_line d (core_size (obj u))).
Proof.
  intros Hi Hlen Hsz Hd Hdr.
  unfold START_TIME, DIC in *.
  assert (Hex : forall line (k : Z -> M vm point),
    exists u',
      (d <- mrd DIC ;; mwr DIC (cell P (d + 1)) ;;; a <- ck d line ;; k a) u
        = LongJmp u' /\
      length (o_m (obj u')) = length (o_m (obj u)) /\
      last (w_stderr (o_world (obj u')))
        = Some (bounds_line d (core_size (obj u)))).
  { intros line k. unfold DIC.
    unfold bind at 1. unfold mrd at 1, lift, rd. rewrite Hd.
    unfold bind at 1. unfold mwr at 1, lift, wr.
    msimpl. rewrite store_in_range by lia. msimpl.
    unfold bind at 1. rewrite ck_fatal by (unfold DEBUG; msimpl; lia).
    eexists. split; [reflexivity|]. msimpl.
    split; [now rewrite length_insert|].
    unfold log. msimpl. cbn [w_stderr]. apply last_snoc. }
  destruct Hi as [-> | ->]; unfold exec; apply Hex.
Qed.

Lemma decode_opcode (i : instructions) : decode (opcode i) = Some i.
Proof. destruct i; reflexivity. Qed.

(** C3 as the spec states it fails. On the bootstrapped 2048-cell instance
    the stacks take 2 * 64 cells, so the stack base is cell 1920. With DIC
    moved there, one more COMMA writes cell 1920 and leaves DIC = 1921,
    past the stack base, and [forth_run] returns 0 with INVALID still 0. *)
Lemma stack_base_counterexample :
  exists o',
    load (o_m booted) STACK_SIZE = Some 64 /\
    core_size booted - 2 * 64 = 1920 /\
    eval_string lp64 1000 "1920 h ! 5 ," booted = Ok 0 o' /\
    load (o_m o') 1920 = Some 5 /\
    load (o_m o') DIC = Some 1921 /\
    load (o_m o') INVALID = Some 0.
Proof.
  eexists. split; [vm_compute; reflexivity|]. split; [vm_compute; reflexivity|].
  split; [vm_compute; reflexivity|].
  repeat split; vm_compute; reflexivity.
Qed.

(** C3, amended. The append of COMMA and of COMPILE is checked against
    the size of the memory, not against the stack base. When the dispatch
    loop is about to execute one of them with DIC = d:
    - if [d < core_size], the turn succeeds, writes cell [d] and leaves
      DIC = d + 1;
    - if [core_size <= d], [check_bounds] reports the violation and jumps
      out: [forth_run] returns -1 and leaves INVALID = 1. *)
Theorem dictionary_append_bounds (P : platform) (o : forth) (I f : Z)
    (k : nat) (v : vm) (i : instructions) (x d : Z) :
  i = COMMA \/ i = COMPILE ->
  load (o_m o) INVALID = Some 0 ->
  load (o_m o) INSTRUCTION = Some I ->
  load (o_m o) TOP = Some f ->
  steps P k LOOP (enter o I f) = Ok INNER v ->
  Z.of_nat (length (o_m (obj v))) = core_size (obj v) ->
  START_TIME < core_size (obj v) < 2 ^ cell_bits P ->
  0 < r_S v < core_size (obj v) ->
  r_pc v < core_size (obj v) ->
  load (o_m (obj v)) (r_pc v) = Some x ->
  instruction x = i ->
  load (o_m (obj v)) DIC = Some d ->
  DICTIONARY_START <= d ->
  (d < core_size (obj v) ->
   exists v',
     step P INNER v = Ok LOOP v' /\
     load (o_m (obj v')) d
       = Some (appended i (with_pc v (cell P (r_pc v + 1)))) /\
     load (o_m (obj v')) DIC = Some (d + 1)) /\
  (core_size (obj v) <= d ->
   forall fuel, exists o',
     forth_run P (k + S fuel) o = Ok (-1) o' /\
     load (o_m o') INVALID = Some 1 /\
     last (w_stderr (o_world o'))
       = Some (bounds_line d (core_size (obj v)))).
Proof.
  intros Hi Hinv HI Hf Hsteps Hlen Hsz HS Hpc Hx Hix Hd Hds.
  assert (Hdec : decode (instruction x) = Some i)
    by (rewrite Hix; apply decode_opcode).
  assert (Hdbg : DEBUG < Z.of_nat (length (o_m (obj v))))
    by (unfold DEBUG, START_TIME in *; lia).
  pose proof (inner_dispatch P v x i HS Hdbg Hpc Hx Hdec) as Hin.
  set (u := set_obj (with_pc v (cell P (r_pc v + 1)))
                    (debugged (r_pc v) 923 (obj v))) in *.
  split.
  - intros Hlt.
    destruct (exec_append_ok P i u d Hi) as (u' & He & H1 & H2 & _);
      subst u; msimpl; try assumption; try lia.
    exists u'. cbn [step]. rewrite Hin, He.
    split; [reflexivity|]. split; [|assumption].
    rewrite H1. destruct Hi as [-> | ->]; reflexivity.
  - intros Hge fuel.
    destruct (exec_append_fatal P i u d Hi) as (u' & He & Hl & Hlast);
      subst u; msimpl; try assumption; try lia.
    msimpl_in Hl. msimpl_in Hlast.
    assert (Hrun : run P (k + S fuel) LOOP (enter o I f) = LongJmp u').
    { rewrite (run_steps P k (S fuel) _ _ _ _ Hsteps).
      apply run_longjmp. cbn [step]. now rewrite Hin. }
    assert (Hlen' : INVALID < Z.of_nat (length (o_m (obj u'))))
      by (rewrite Hl; unfold INVALID, START_TIME in *; lia).
    eexists. split; [now apply (forth_run_longjmp P _ o I f u')|].
    msimpl. split; [apply load_insert_eq; unfold INVALID in *; lia|].
    exact Hlast.
Qed.

(** Both halves on the 128-cell instance: with DIC = 100, beyond the stack
    base 64, the COMMA succeeds; with DIC = 128 it is fatal. *)
Lemma dictionary_append_bounds_witness :
  (exists v',
     step lp64 INNER (with_I (with_pc (enter (at_comma 100) 70 9) 72) 71)
       = Ok LOOP v' /\
     load (o_m (obj v')) 100 = Some 9 /\
     load (o_m (obj v')) DIC = Some 101) /\
  (exists o',
     forth_run lp64 2 (at_comma 128) = Ok (-1) o' /\
     load (o_m o') INVALID = Some 1 /\
     last (w_stderr (o_world o')) = Some (bounds_line 128 128)).
Proof.
  split.
  - apply (proj1 (dictionary_append_bounds lp64 (at_comma 100) 70 9 1
             (with_I (with_pc (enter (at_comma 100) 70 9) 72) 71)
             COMMA COMMA 100
             (or_introl eq_refl) eq_refl eq_refl eq_refl eq_refl eq_refl
             ltac:(vm_compute; split; reflexivity)
             ltac:(vm_compute; split; reflexivity)
             eq_refl eq_refl eq_refl eq_refl
             ltac:(vm_compute; discriminate))).
    reflexivity.
  - apply (proj2 (dictionary_append_bounds lp64 (at_comma 128) 70 9 1
             (with_I (with_pc (enter (at_comma 128) 70 9) 72) 71)
             COMMA COMMA 128
             (or_introl eq_refl) eq_refl eq_refl eq_refl eq_refl eq_refl
             ltac:(vm_compute; split; reflexivity)
             ltac:(vm_compute; split; reflexivity)
             eq_refl eq_refl eq_refl eq_refl
             ltac:(vm_compute; discriminate))
             ltac:(vm_compute; discriminate) 0%nat).
Defined.

(** ** C6: loading an image checks its header *)

Lemma memcmp_eq (l1 l2 : list Z) :
  length l1 = length l2 ->
  forallb (fun '(x, y) => x =? y) (combine l1 l2) = true -> l1 = l2.
Proof.
  revert l2. induction l1 as [|a l1 IH]; intros [|b l2] Hl H;
    try discriminate; [reflexivity|].
  cbn in H. apply andb_prop in H as [Hab Hr]. apply Z.eqb_eq in Hab.
  f_equal; [assumption|]. apply IH; [now injection Hl | assumption].
Qed.

Lemma length_make_header (P : platform) : length (make_header P) = 8%nat.
Proof. unfold make_header. now rewrite length_insert. Qed.

Lemma forth_load_core_inv (P : platform) (dump : list Z) (w : world) :
  forth_load_core P dump w <> None ->
  firstn 8 dump = make_header P /\
  length (size_field dump) = 8%nat /\
  MINIMUM_CORE_SIZE P <= host_value P (size_field dump).
Proof.
  unfold forth_load_core, size_field. intros H.
  destruct (Z.eqb_spec (Z.of_nat (length (firstn 8 dump))) 8) as [Hl|];
    [|now contradiction H].
  cbn [negb] in H.
  destruct (forallb _ (combine (make_header P) (firstn 8 dump))) eqn:Hcmp;
    [|now contradiction H].
  cbn [negb] in H.
  destruct (Z.eqb_spec (Z.of_nat (length (firstn 8 (skipn 8 dump)))) 8) as [Hs|];
    [|now contradiction H].
  cbn [negb orb] in H.
  destruct (Z.ltb_spec (host_value P (firstn 8 (skipn 8 dump)))
                       (MINIMUM_CORE_SIZE P)) as [|Hmin];
    [now contradiction H|].
  split; [|split; [lia | assumption]].
  symmetry. apply memcmp_eq; [|assumption].
  rewrite length_make_header. lia.
Qed.

(** C6. [forth_load_core] returns the null pointer unless the first eight
    bytes of the file are the header of the running host and the
    [core_size] field that follows is complete and at least
    [MINIMUM_CORE_SIZE]. In particular an image that starts with the
    header of a host [Q] of another cell width or endianness, or whose
    version byte is not [CORE_VERSION], gives the null pointer. *)
Theorem forth_load_core_header (P : platform) (dump : list Z) (w : world) :
  (forth_load_core P dump w <> None ->
   firstn 8 dump = make_header P /\
   length (size_field dump) = 8%nat /\
   MINIMUM_CORE_SIZE P <= host_value P (size_field dump)) /\
  (forall Q : platform,
     firstn 8 dump = make_header Q ->
     cell_bytes Q <> cell_bytes P \/ big_endian Q <> big_endian P ->
     forth_load_core P dump w = None) /\
  (dump !! 5%nat <> Some CORE_VERSION -> forth_load_core P dump w = None).
Proof.
  split; [apply forth_load_core_inv|]. split.
  - intros Q HQ Hdiff.
    destruct (forth_load_core P dump w) eqn:E; [|reflexivity]. exfalso.
    destruct (forth_load_core_inv P dump w) as [Hh _]; [congruence|].
    rewrite HQ in Hh. unfold make_header, header in Hh. cbn in Hh.
    injection Hh as HW He. destruct Hdiff as [Hd|Hd]; [congruence|].
    destruct (big_endian Q), (big_endian P); congruence.
  - intros Hv.
    destruct (forth_load_core P dump w) eqn:E; [|reflexivity]. exfalso.
    destruct (forth_load_core_inv P dump w) as [Hh _]; [congruence|].
    apply Hv. rewrite <- (lookup_take_lt dump 8 5) by lia.
    change (take 8 dump) with (firstn 8 dump). now rewrite Hh.
Qed.

(** The image of the bootstrapped instance loads on the host that wrote it
    and is refused by a big-endian 32-bit host, as is a copy with version
    byte 3. *)
Lemma forth_load_core_header_witness :
  (forth_load_core lp64 booted_image world0 <> None /\
   firstn 8 booted_image = make_header lp64 /\
   length (size_field booted_image) = 8%nat /\
   MINIMUM_CORE_SIZE lp64 <= host_value lp64 (size_field booted_image)) /\
  forth_load_core be32 booted_image world0 = None /\
  forth_load_core lp64 (<[5%nat := 3]> booted_image) world0 = None.
Proof.
  split; [|split].
  - assert (H : forth_load_core lp64 booted_image world0 <> None)
      by (vm_compute; discriminate).
    split; [exact H|].
    exact (proj1 (forth_load_core_header lp64 booted_image world0) H).
  - apply (proj1 (proj2 (forth_load_core_header be32 booted_image world0)) lp64);
      [reflexivity | left; discriminate].
  - apply (proj2 (proj2 (forth_load_core_header lp64
                           (<[5%nat := 3]> booted_image) world0))).
    vm_compute. discriminate.
Defined.

(** ** C1: READ on a token that is not a word *)




(** ** C9: immediate words *)

Lemma cell_bits_ge (P : platform) (k : Z) :
  0 <= k -> cell_bytes P = 2 ^ k -> 8 <= cell_bits P.
Proof.
  intros Hk HW. unfold cell_bits. rewrite HW.
  assert (0 < 2 ^ k) by (apply Z.pow_pos_nonneg; lia). lia.
Qed.

(** Clearing the opcode field and setting it to RUN, as IMMEDIATE does,
    leaves RUN in the instruction field. *)
Lemma instruction_set_RUN (P : platform) (x : Z) :
  8 <= cell_bits P ->
  instruction (Z.lor (Z.land x (cell P (Z.lnot INSTRUCTION_MASK))) RUN) = RUN.
Proof.
  intros Hb. unfold instruction, INSTRUCTION_MASK, cell.
  rewrite Z.land_lor_distr_l, <- Z.land_assoc.
  assert (Hz : Z.land (Z.lnot 127 mod 2 ^ cell_bits P) 127 = 0).
  { change 127 with (Z.ones 7) at 2. rewrite Z.land_ones by lia.
    rewrite Z.mod_mod_divide; [reflexivity|].
    exists (2 ^ (cell_bits P - 7)). rewrite <- Z.pow_add_r by lia.
    f_equal. lia. }
  rewrite Hz, Z.land_0_r. reflexivity.
Qed.

(** DEFINE: the header of the new word, then a RUN cell. *)
Lemma exec_DEFINE_spec (P : platform) (k : Z) (v : vm) (n : Z)
    (name : list Z) (o1 : forth) (h p : Z) :
  0 <= k -> cell_bytes P = 2 ^ k ->
  STATE < Z.of_nat (length (o_m (obj v))) ->
  forth_get_word P (o_s P)
    (set_m (obj v) (<[Z.to_nat STATE := 1]> (o_m (obj v)))) = Ok n o1 ->
  0 <= n ->
  rd_cstr P (o_s P) o1 = Ok name o1 ->
  load (o_m o1) DIC = Some h ->
  load (o_m o1) PWD = Some p ->
  DICTIONARY_START <= h ->
  Z.of_nat (length (o_m o1)) = core_size o1 ->
  h + name_cells P name + 2 < core_size o1 < 2 ^ cell_bits P ->
  exists v1,
    exec P DEFINE v = Ok LOOP v1 /\
    load (o_m (obj v1)) DIC = Some (h + name_cells P name + 3) /\
    load (o_m (obj v1)) PWD = Some (h + name_cells P name) /\
    load (o_m (obj v1)) (h + name_cells P name + 1)
      = Some (cell P (Z.lor (Z.shiftl (name_cells P name) WORD_LENGTH_OFFSET)
                            COMPILE)) /\
    load (o_m (obj v1)) (h + name_cells P name + 2) = Some (opcode RUN) /\
    Z.of_nat (length (o_m (obj v1))) = core_size (obj v1) /\
    core_size (obj v1) = core_size o1.
Proof.
  intros Hk HW Hst Hgw Hn Hname Hh Hp Hhs Hlen Hsz.
  destruct (name_cells_fits P k name Hk HW) as [HL0 _].
  unfold DICTIONARY_START, STRING_OFFSET, MAX_WORD_LENGTH, STATE in *.
  destruct (compile_spec P k COMPILE name o1 h p) as (o2 & Hc & Hhd);
    try assumption; try (unfold PWD, LAST; cbn; lia); try lia.
  destruct Hhd as (H1 & H2 & H3 & H4 & _ & Hl2 & Hcs2 & _).
  set (L := name_cells P name) in *. unfold DIC, PWD in *.
  unfold exec, STATE, DIC.
  unfold bind at 1. unfold mwr at 1, lift at 1, wr.
  rewrite store_in_range by lia. msimpl.
  unfold bind at 1. unfold lift at 1. msimpl. rewrite Hgw.
  rewrite ltb_f by lia.
  unfold bind at 1. unfold lift at 1. msimpl. rewrite Hname.
  unfold bind at 1. unfold lift at 1. msimpl. rewrite Hc.
  unfold bind at 1. unfold mrd at 1, lift at 1, rd. msimpl. rewrite H1.
  assert (Hl2' : Z.of_nat (length (o_m o2)) = core_size o2) by lia.
  unfold bind at 1. unfold mwr at 1, lift at 1, wr. mem.
  unfold bind at 1. rewrite ck_pass by (unfold DEBUG; msimpl; lia).
  mrun. mem.
  eexists. split; [reflexivity|]. mem.
  split; [f_equal; lia|]. rewrite H2, H4.
  split; [reflexivity|]. split; [reflexivity|]. split; [reflexivity|].
  split; [lia | assumption].
Qed.

Lemma exec_IMMEDIATE_spec (P : platform) (v : vm) (d x : Z) :
  load (o_m (obj v)) DIC = Some d ->
  load (o_m (obj v)) (d - 2) = Some x ->
  DICTIONARY_START + 2 <= d < 2 ^ cell_bits P ->
  exists v2,
    exec P IMMEDIATE v = Ok LOOP v2 /\
    load (o_m (obj v2)) (d - 2)
      = Some (Z.lor (Z.land x (cell P (Z.lnot INSTRUCTION_MASK))) RUN) /\
    load (o_m (obj v2)) DIC = Some (d - 1) /\
    (forall j, j <> d - 2 -> j <> DIC ->
       load (o_m (obj v2)) j = load (o_m (obj v)) j).
Proof.
  intros Hd Hx Hdr.
  pose proof (load_inv _ _ _ Hd) as Hd'. pose proof (load_inv _ _ _ Hx) as Hx'.
  unfold DICTIONARY_START, STRING_OFFSET, MAX_WORD_LENGTH, DIC in *.
  unfold exec, DIC. mrun. rewrite Hd. mem. rewrite Hx. mem.
  replace (d - 2 + 1) with (d - 1) by lia.
  eexists. split; [reflexivity|]. mem.
  split; [reflexivity|]. split; [reflexivity|].
  intros j H1 H2. now mem.
Qed.

(** READ on a word whose MISC cell holds RUN: whatever STATE is, control
    goes to INNER with [pc] at the MISC cell. *)
Lemma read_dispatch_RUN (P : platform) (u : vm) (n : Z) (s : list Z)
    (o1 : forth) (w misc st : Z) :
  forth_get_word P (o_s P) (obj u) = Ok n o1 -> 0 <= n ->
  rd_cstr P (o_s P) o1 = Ok s o1 ->
  forth_find P s o1 = Ok w o1 ->
  1 < w < core_size o1 ->
  load (o_m o1) w = Some misc ->
  instruction misc = RUN ->
  load (o_m o1) STATE = Some st ->
  DEBUG < Z.of_nat (length (o_m o1)) ->
  exists u',
    exec P READ u = Ok INNER u' /\
    r_pc u' = w /\ o_m (obj u') = o_m o1 /\
    core_size (obj u') = core_size o1 /\
    r_S u' = r_S u /\ r_I u' = r_I u /\ r_f u' = r_f u.
Proof.
  intros Hgw Hn Hs Hfind Hw Hmisc Hrun Hst Hdbg.
  unfold exec.
  unfold bind at 1. unfold lift at 1. rewrite Hgw.
  rewrite ltb_f by lia.
  unfold bind at 1. unfold lift at 1. msimpl. rewrite Hs.
  unfold bind at 1. unfold lift at 1. msimpl. rewrite Hfind.
  rewrite gtb_t by lia.
  unfold bind at 1. unfold set_pc at 1.
  unfold bind at 1. unfold mrd at 1, lift at 1, rd. msimpl. rewrite Hst.
  destruct (Z.eqb_spec st 0) as [->|Hne].
  - unfold bind at 1. unfold bind at 1. unfold get_pc. msimpl.
    unfold bind at 1. rewrite ck_pass by (msimpl; lia).
    unfold bind at 1. unfold mrd at 1, lift at 1, rd. msimpl. rewrite Hmisc.
    rewrite Hrun. cbn [opcode Z.eqb Pos.eqb]. unfold ret.
    eexists. split; [reflexivity|]. msimpl. auto 10.
  - unfold bind at 1. unfold ret.
    eexists. split; [reflexivity|]. msimpl. auto 10.
Qed.

(** The turn of the loop that starts at a MISC cell holding RUN calls the
    body: the return address goes on the return stack and [I] becomes the
    cell after the MISC cell. *)
Lemma inner_RUN (P : platform) (u : vm) (misc r : Z) :
  load (o_m (obj u)) (r_pc u) = Some misc ->
  instruction misc = RUN ->
  Z.of_nat (length (o_m (obj u))) = core_size (obj u) ->
  START_TIME < core_size (obj u) < 2 ^ cell_bits P ->
  0 < r_S u < core_size (obj u) ->
  load (o_m (obj u)) RSTK = Some r ->
  DICTIONARY_START <= r -> r + 1 < core_size (obj u) ->
  exists u'',
    step P INNER u = Ok LOOP u'' /\
    r_I u'' = r_pc u + 1 /\
    load (o_m (obj u'')) RSTK = Some (r + 1) /\
    load (o_m (obj u'')) (r + 1) = Some (r_I u).
Proof.
  intros Hmisc Hrun Hlen Hsz HS Hr Hrs Hr1.
  pose proof (load_inv _ _ _ Hmisc) as Hpc.
  unfold START_TIME, DICTIONARY_START, STRING_OFFSET, MAX_WORD_LENGTH, RSTK in *.
  cbn [step].
  rewrite (inner_dispatch P u misc RUN); try assumption; try lia;
    [| unfold DEBUG; lia | rewrite Hrun; reflexivity].
  unfold exec, RSTK. mrun. rewrite Hr. mem.
  rewrite ck_pass by (unfold DEBUG; mem; lia). mem.
  eexists. split; [reflexivity|]. mem. auto.
Qed.

(** C9. DEFINE reads the name of a new word W and lays down its header at
    [h] (name of [L] cells, link, MISC, RUN cell); IMMEDIATE right after it
    rewrites the MISC cell at [h + L + 1]. Then the instruction field of
    that cell is RUN, PWD designates W and DIC is back at [h + L + 2].
    Whenever READ later finds W while its MISC cell still holds that
    value, whatever STATE is, READ goes to INNER with [pc] at the MISC
    cell, and that turn of the loop calls the body of W: the return address
    is pushed on the return stack and [I] becomes [h + L + 2]. *)
Theorem immediate_word_dispatch (P : platform) (k : Z) (v : vm) (n : Z)
    (name : list Z) (o1 : forth) (h p : Z) :
  0 <= k -> cell_bytes P = 2 ^ k ->
  STATE < Z.of_nat (length (o_m (obj v))) ->
  forth_get_word P (o_s P)
    (set_m (obj v) (<[Z.to_nat STATE := 1]> (o_m (obj v)))) = Ok n o1 ->
  0 <= n ->
  rd_cstr P (o_s P) o1 = Ok name o1 ->
  load (o_m o1) DIC = Some h ->
  load (o_m o1) PWD = Some p ->
  DICTIONARY_START <= h ->
  Z.of_nat (length (o_m o1)) = core_size o1 ->
  h + name_cells P name + 2 < core_size o1 < 2 ^ cell_bits P ->
  let W := h + name_cells P name + 1 in
  exists v1 v2 misc,
    exec P DEFINE v = Ok LOOP v1 /\
    exec P IMMEDIATE v1 = Ok LOOP v2 /\
    load (o_m (obj v2)) PWD = Some (W - 1) /\
    load (o_m (obj v2)) W = Some misc /\
    instruction misc = RUN /\
    load (o_m (obj v2)) DIC = Some (W + 1) /\
    forall (u : vm) (n' : Z) (s : list Z) (o' : forth) (st r : Z),
      forth_get_word P (o_s P) (obj u) = Ok n' o' -> 0 <= n' ->
      rd_cstr P (o_s P) o' = Ok s o' ->
      forth_find P s o' = Ok W o' ->
      load (o_m o') W = Some misc ->
      load (o_m o') STATE = Some st ->
      Z.of_nat (length (o_m o')) = core_size o' ->
      START_TIME < core_size o' < 2 ^ cell_bits P ->
      0 < r_S u < core_size o' ->
      load (o_m o') RSTK = Some r ->
      DICTIONARY_START <= r -> r + 1 < core_size o' ->
      exists u' u'',
        exec P READ u = Ok INNER u' /\
        r_pc u' = W /\
        step P INNER u' = Ok LOOP u'' /\
        r_I u'' = W + 1 /\
        load (o_m (obj u'')) (r + 1) = Some (r_I u).
Proof.
  intros Hk HW Hst Hgw Hn Hname Hh Hp Hhs Hlen Hsz W.
  destruct (name_cells_fits P k name Hk HW) as [HL0 _].
  destruct (exec_DEFINE_spec P k v n name o1 h p)
    as (v1 & Hdef & D1 & D2 & D3 & D4 & D5 & D6); try assumption.
  destruct (exec_IMMEDIATE_spec P v1 (h + name_cells P name + 3)
              (cell P (Z.lor (Z.shiftl (name_cells P name) WORD_LENGTH_OFFSET)
                             COMPILE)))
    as (v2 & Himm & I1 & I2 & I3).
  { assumption. }
  { replace (h + name_cells P name + 3 - 2) with (h + name_cells P name + 1)
      by lia. assumption. }
  { unfold DICTIONARY_START, STRING_OFFSET, MAX_WORD_LENGTH in *. lia. }
  replace (h + name_cells P name + 3 - 2) with W in * by (subst W; lia).
  replace (h + name_cells P name + 3 - 1) with (W + 1) in * by (subst W; lia).
  assert (Hbits : 8 <= cell_bits P) by (now apply cell_bits_ge with k).
  pose proof (instruction_set_RUN P
    (cell P (Z.lor (Z.shiftl (name_cells P name) WORD_LENGTH_OFFSET) COMPILE))
    Hbits) as Hrun.
  set (misc := Z.lor _ RUN) in *.
  exists v1, v2, misc. split; [exact Hdef|]. split; [exact Himm|].
  split.
  { rewrite I3; unfold PWD, DIC, DICTIONARY_START, STRING_OFFSET,
      MAX_WORD_LENGTH in *; [|subst W; lia | lia].
    rewrite D2. f_equal. subst W. lia. }
  split; [exact I1|]. split; [exact Hrun|].
  split; [exact I2|].
  intros u n' s o' st r Gw Gn Gs Gf Gm Gst Glen Gsz GS Gr Grs Gr1.
  assert (HW1 : 1 < W < core_size o').
  { apply load_inv in Gm.
    unfold DICTIONARY_START, STRING_OFFSET, MAX_WORD_LENGTH in *.
    subst W. lia. }
  destruct (read_dispatch_RUN P u n' s o' W misc st Gw Gn Gs Gf HW1 Gm
              Hrun Gst)
    as (u' & Hread & R1 & R2 & R3 & R4 & R5 & R6).
  { unfold DEBUG, START_TIME in *. lia. }
  destruct (inner_RUN P u' misc r) as (u'' & Hstep & S1 & S2 & S3).
  - rewrite R1, R2. exact Gm.
  - exact Hrun.
  - now rewrite R2, R3.
  - now rewrite R3.
  - now rewrite R3, R4.
  - now rewrite R2.
  - assumption.
  - now rewrite R3.
  - exists u', u''. split; [exact Hread|]. split; [exact R1|].
    split; [exact Hstep|]. split; [now rewrite S1, R1|].
    now rewrite S3, R5.
Qed.

(** On the bootstrapped instance: DEFINE reads the name foo (the header
    goes to cell 608, the MISC cell is 610), IMMEDIATE follows. And a
    whole program: an immediate word that prints 7 runs when it is typed in
    command mode and again while another definition is compiled. *)
Lemma immediate_word_dispatch_witness :
  (exists v1 v2 misc,
     exec lp64 DEFINE (reading "foo" 0) = Ok LOOP v1 /\
     exec lp64 IMMEDIATE v1 = Ok LOOP v2 /\
     load (o_m (obj v2)) PWD = Some 609 /\
     load (o_m (obj v2)) 610 = Some misc /\
     instruction misc = RUN /\
     load (o_m (obj v2)) DIC = Some 611) /\
  (exists v1 v2,
     exec lp64 DEFINE (reading "foo" 0) = Ok LOOP v1 /\
     exec lp64 IMMEDIATE v1 = Ok LOOP v2 /\
     load (o_m (obj v2)) 610 = Some 258) /\
  (exists o',
     eval_string lp64 1000 ": foo immediate 7 pnum ; foo : bar foo ; " booted
       = Ok 0 o' /\
     map snd (w_output (o_world o')) = [[55]; [55]]).
Proof.
  split; [|split].
  - destruct (immediate_word_dispatch lp64 3 (reading "foo" 0) 3
                (bytes_of_string "foo")
                (after_word lp64
                   (set_obj (reading "foo" 0)
                      (set_m (obj (reading "foo" 0))
                         (<[Z.to_nat STATE := 1]> (o_m (obj (reading "foo" 0)))))))
                608 602
                ltac:(vm_compute; discriminate) eq_refl
                ltac:(vm_compute; reflexivity) ltac:(vm_compute; reflexivity)
                ltac:(vm_compute; discriminate) ltac:(vm_compute; reflexivity)
                ltac:(vm_compute; reflexivity) ltac:(vm_compute; reflexivity)
                ltac:(vm_compute; discriminate) ltac:(vm_compute; reflexivity)
                ltac:(vm_compute; split; reflexivity))
      as (v1 & v2 & misc & H1 & H2 & H3 & H4 & H5 & H6 & _).
    exists v1, v2, misc. auto 10.
  - eexists _, _. split; [vm_compute; reflexivity|].
    split; [vm_compute; reflexivity|]. vm_compute. reflexivity.
  - eexists. split; [vm_compute; reflexivity|]. reflexivity.
Defined.

(* ========================================================================= *)
(*                          Further properties                               *)

(** ** Bytes inside cells *)

Lemma testbit_255 (n : Z) : 0 <= n -> Z.testbit 255 n = (n <? 8).
Proof.
  intros Hn. change 255 with (Z.ones 8).
  destruct (Z.ltb_spec n 8).
  - apply Z.ones_spec_low. lia.
  - apply Z.ones_spec_high. lia.
Qed.

Lemma testbit_byte_high (b n : Z) :
  0 <= b < 256 -> 8 <= n -> Z.testbit b n = false.
Proof.
  intros Hb Hn. destruct (Z.eq_dec b 0) as [->|Hb0]; [apply Z.bits_0|].
  apply Z.bits_above_log2; [lia|].
  apply Z.lt_le_trans with 8; [|assumption].
  apply Z.log2_lt_pow2; [lia|]. change (2 ^ 8) with 256. lia.
Qed.

Lemma byte_set_get (c s b : Z) :
  0 <= s -> 0 <= b < 256 ->
  Z.land (Z.shiftr (Z.lor (Z.land c (Z.lnot (Z.shiftl 255 s)))
                          (Z.shiftl b s)) s) 255 = b.
Proof.
  intros Hs Hb. apply Z.bits_inj'. intros n Hn.
  rewrite Z.land_spec, Z.shiftr_spec, Z.lor_spec, Z.land_spec, Z.lnot_spec,
    !Z.shiftl_spec by lia.
  replace (n + s - s) with n by lia. rewrite testbit_255 by lia.
  destruct (Z.ltb_spec n 8).
  - cbn. now rewrite andb_false_r, andb_true_r.
  - rewrite (testbit_byte_high b n) by lia. now rewrite andb_false_r.
Qed.

Lemma byte_set_other (c s s' b : Z) :
  0 <= s -> 0 <= s' -> 0 <= b < 256 ->
  s + 8 <= s' \/ s' + 8 <= s ->
  Z.land (Z.shiftr (Z.lor (Z.land c (Z.lnot (Z.shiftl 255 s)))
                          (Z.shiftl b s)) s') 255
  = Z.land (Z.shiftr c s') 255.
Proof.
  intros Hs Hs' Hb Hfar. apply Z.bits_inj'. intros n Hn.
  rewrite !Z.land_spec, !Z.shiftr_spec, Z.lor_spec, Z.land_spec, Z.lnot_spec
    by lia.
  rewrite testbit_255 by lia.
  destruct (Z.ltb_spec n 8); [|now rewrite !andb_false_r].
  rewrite !andb_true_r.
  destruct (Z.le_gt_cases s (n + s')) as [Hge|Hlt].
  - rewrite !Z.shiftl_spec by lia.
    rewrite testbit_255 by lia.
    destruct (Z.ltb_spec (n + s' - s) 8); [lia|].
    rewrite (testbit_byte_high b) by lia. cbn.
    now rewrite andb_true_r, orb_false_r.
  - rewrite !Z.shiftl_spec_low by lia. cbn.
    now rewrite andb_true_r, orb_false_r.
Qed.

Lemma byte_set_id (c s : Z) :
  0 <= s ->
  Z.lor (Z.land c (Z.lnot (Z.shiftl 255 s)))
        (Z.shiftl (Z.land (Z.shiftr c s) 255) s) = c.
Proof.
  intros Hs. apply Z.bits_inj'. intros n Hn.
  rewrite Z.lor_spec, Z.land_spec, Z.lnot_spec by lia.
  destruct (Z.le_gt_cases s n) as [Hge|Hlt].
  - rewrite !Z.shiftl_spec, Z.land_spec, Z.shiftr_spec by lia.
    replace (n - s + s) with n by lia. rewrite testbit_255 by lia.
    destruct (n - s <? 8), (Z.testbit c n); reflexivity.
  - rewrite !Z.shiftl_spec_low by lia. cbn.
    now rewrite andb_true_r, orb_false_r.
Qed.

Lemma bits_lt_pow2 (x n : Z) :
  0 <= n -> 0 <= x ->
  (forall k, n <= k -> Z.testbit x k = false) -> x < 2 ^ n.
Proof.
  intros Hn Hx Hbits.
  destruct (Z.eq_dec x 0) as [->|Hx0]; [apply Z.pow_pos_nonneg; lia|].
  apply Z.log2_lt_pow2; [lia|].
  destruct (Z.lt_ge_cases (Z.log2 x) n) as [Hlt|Hge]; [assumption|].
  pose proof (Z.bit_log2 x ltac:(lia)) as Hb.
  rewrite Hbits in Hb by lia. discriminate.
Qed.

Lemma bits_above_pow2 (x n k : Z) :
  0 <= x < 2 ^ n -> n <= k -> Z.testbit x k = false.
Proof.
  intros Hx Hk.
  destruct (Z.eq_dec x 0) as [->|Hx0]; [apply Z.bits_0|].
  apply Z.bits_above_log2; [lia|].
  apply Z.lt_le_trans with n; [|assumption].
  apply Z.log2_lt_pow2; lia.
Qed.

Lemma byte_set_range (c s b n : Z) :
  0 <= s -> s + 8 <= n -> 0 <= b < 256 -> 0 <= c < 2 ^ n ->
  0 <= Z.lor (Z.land c (Z.lnot (Z.shiftl 255 s))) (Z.shiftl b s) < 2 ^ n.
Proof.
  intros Hs Hn Hb Hc.
  assert (H0 : 0 <= Z.lor (Z.land c (Z.lnot (Z.shiftl 255 s))) (Z.shiftl b s)).
  { apply Z.lor_nonneg. split.
    - apply Z.land_nonneg. left. lia.
    - apply Z.shiftl_nonneg. lia. }
  split; [exact H0|].
  apply bits_lt_pow2; [lia | exact H0 |].
  intros k Hk.
  rewrite Z.lor_spec, Z.land_spec, Z.shiftl_spec by lia.
  rewrite (bits_above_pow2 c n k) by lia.
  now rewrite (testbit_byte_high b (k - s)) by lia.
Qed.

(** ** Bytes of the memory *)

Lemma lane_range (P : platform) (a : Z) :
  0 < cell_bytes P -> 0 <= lane P a < cell_bytes P.
Proof.
  intros HW. unfold lane.
  pose proof (Z.mod_pos_bound a (cell_bytes P) HW).
  destruct (big_endian P); lia.
Qed.

Lemma lane_far (P : platform) (a a' : Z) :
  0 < cell_bytes P ->
  a / cell_bytes P = a' / cell_bytes P -> a <> a' ->
  8 * lane P a + 8 <= 8 * lane P a' \/ 8 * lane P a' + 8 <= 8 * lane P a.
Proof.
  intros HW Hq Hne. unfold lane.
  pose proof (Z.div_mod a (cell_bytes P) ltac:(lia)).
  pose proof (Z.div_mod a' (cell_bytes P) ltac:(lia)).
  assert (a mod cell_bytes P <> a' mod cell_bytes P) by (rewrite Hq in *; lia).
  destruct (big_endian P); lia.
Qed.

Lemma rd_byte_mem (P : platform) (a : Z) (o : forth) :
  rd_byte P a o = match mem_byte P (o_m o) a with
                  | Some b => Ok b o
                  | None => Fault Undefined
                  end.
Proof.
  unfold rd_byte, mem_byte, bind, rd, ret.
  now destruct (load (o_m o) (a / cell_bytes P)).
Qed.

Lemma cells_insert (P : platform) (m : list Z) (i : nat) (x : Z) :
  cells P m -> 0 <= x < 2 ^ cell_bits P -> cells P (<[i := x]> m).
Proof.
  unfold cells. rewrite !Forall_lookup. intros Hm Hx j y Hj.
  destruct (decide (i = j)) as [->|Hij].
  - destruct (decide (j < length m)%nat).
    + rewrite list_lookup_insert_eq in Hj by assumption. now injection Hj as <-.
    + rewrite list_insert_ge in Hj by lia. now apply Hm with j.
  - rewrite list_lookup_insert_ne in Hj by assumption. now apply Hm with j.
Qed.

Lemma cells_load (P : platform) (m : list Z) (i c : Z) :
  cells P m -> load m i = Some c -> 0 <= c < 2 ^ cell_bits P.
Proof.
  unfold cells, load. rewrite Forall_lookup. intros Hm H.
  destruct (0 <=? i); [|discriminate]. now apply Hm with (Z.to_nat i).
Qed.

(** Storing one byte: that byte reads back, every other byte of the memory
    is as before, and the cells stay cells. *)
Lemma wr_byte_spec (P : platform) (a b : Z) (o : forth) :
  0 < cell_bytes P -> 0 <= a ->
  a / cell_bytes P < Z.of_nat (length (o_m o)) ->
  0 <= b < 256 ->
  exists m',
    wr_byte P a b o = Ok tt (set_m o m') /\
    length m' = length (o_m o) /\
    mem_byte P m' a = Some b /\
    (forall a', 0 <= a' -> a' <> a ->
       mem_byte P m' a' = mem_byte P (o_m o) a') /\
    (cells P (o_m o) -> cells P m').
Proof.
  intros HW Ha Hlt Hb.
  assert (Hq : 0 <= a / cell_bytes P) by (apply Z.div_pos; lia).
  pose proof (lane_range P a HW) as Hl.
  destruct (load_in_range (o_m o) (a / cell_bytes P)) as [c Hc]; [lia|].
  unfold wr_byte. mrun. rewrite Hc. mem.
  eexists. split; [reflexivity|]. split; [apply length_insert|].
  split; [|split].
  - unfold mem_byte. mem. f_equal. apply byte_set_get; lia.
  - intros a' Ha' Hne. unfold mem_byte.
    destruct (Z.eq_dec (a' / cell_bytes P) (a / cell_bytes P)) as [He|He].
    + rewrite He. mem. rewrite Hc. f_equal.
      pose proof (lane_range P a' HW).
      apply byte_set_other; try lia.
      destruct (lane_far P a a' HW (eq_sym He) (not_eq_sym Hne)); lia.
    + now rewrite load_insert_ne by lia.
  - intros Hcells. apply cells_insert; [assumption|].
    apply byte_set_range; try lia.
    + unfold cell_bits. lia.
    + now apply cells_load with (o_m o) (a / cell_bytes P).
Qed.

(** Storing a run of bytes ([strcpy], [fread], [sscanf]). *)
Lemma wr_bytes_spec (P : platform) (bs : list Z) :
  0 < cell_bytes P ->
  forall a o,
    0 <= a ->
    a + Z.of_nat (length bs) <= cell_bytes P * Z.of_nat (length (o_m o)) ->
    Forall (fun b => 0 <= b < 256) bs ->
    exists m',
      wr_bytes P a bs o = Ok tt (set_m o m') /\
      length m' = length (o_m o) /\
      (forall i, (i < length bs)%nat ->
         mem_byte P m' (a + Z.of_nat i) = bs !! i) /\
      (forall a', 0 <= a' -> a' < a \/ a + Z.of_nat (length bs) <= a' ->
         mem_byte P m' a' = mem_byte P (o_m o) a') /\
      (cells P (o_m o) -> cells P m').
Proof.
  intros HW. induction bs as [|b bs IH]; intros a o Ha Hfit Hbs.
  - exists (o_m o). destruct o; cbn. repeat split; auto. intros i Hi; lia.
  - cbn [wr_bytes]. cbn [length] in Hfit.
    apply Forall_cons in Hbs as [Hb Hbs].
    assert (Hlt : a / cell_bytes P < Z.of_nat (length (o_m o)))
      by (apply Z.div_lt_upper_bound; lia).
    destruct (wr_byte_spec P a b o HW Ha Hlt Hb)
      as (m1 & Hw1 & Hl1 & Hsame & Hother & Hc1).
    destruct (IH (a + 1) (set_m o m1)) as (m' & Hwr & Hl & Hin & Hout & Hc);
      [lia | msimpl; lia | assumption |].
    msimpl_in Hl. msimpl_in Hout. msimpl_in Hc.
    exists m'. unfold bind. rewrite Hw1, Hwr.
    split; [reflexivity|]. split; [lia|]. split; [|split].
    + intros [|i] Hi.
      * cbn. rewrite Z.add_0_r. rewrite Hout by lia. assumption.
      * cbn [lookup list_lookup]. cbn [length] in Hi.
        replace (a + Z.of_nat (S i)) with (a + 1 + Z.of_nat i) by lia.
        apply Hin. lia.
    + intros a' Ha' Hfar. cbn [length] in Hfar.
      rewrite Hout by lia. apply Hother; lia.
    + auto.
Qed.

Lemma rd_bytes_spec (P : platform) (bs : list Z) :
  forall a o,
    (forall i, (i < length bs)%nat ->
       mem_byte P (o_m o) (a + Z.of_nat i) = bs !! i) ->
    rd_bytes P (length bs) a o = Ok bs o.
Proof.
  induction bs as [|b bs IH]; intros a o H; [reflexivity|].
  cbn [length rd_bytes]. unfold bind. rewrite rd_byte_mem.
  pose proof (H 0%nat ltac:(cbn; lia)) as H0. cbn in H0.
  rewrite Z.add_0_r in H0. rewrite H0.
  rewrite IH; [reflexivity|].
  intros i Hi. replace (a + 1 + Z.of_nat i) with (a + Z.of_nat (S i)) by lia.
  apply (H (S i)). cbn. lia.
Qed.

Lemma rd_cstr_from_spec (P : platform) (s : list Z) :
  forall fuel a o,
    c_string s ->
    (forall i, (i < length s)%nat ->
       mem_byte P (o_m o) (a + Z.of_nat i) = s !! i) ->
    mem_byte P (o_m o) (a + Z.of_nat (length s)) = Some 0 ->
    (length s < fuel)%nat ->
    rd_cstr_from P fuel a o = Ok s o.
Proof.
  induction s as [|b s IH]; intros fuel a o Hs H Hz Hf.
  - destruct fuel; [lia|]. cbn [rd_cstr_from]. unfold bind.
    rewrite rd_byte_mem. cbn in Hz. rewrite Z.add_0_r in Hz. now rewrite Hz.
  - destruct fuel; [cbn in Hf; lia|]. cbn [rd_cstr_from]. unfold bind.
    rewrite rd_byte_mem.
    pose proof (H 0%nat ltac:(cbn; lia)) as H0. cbn in H0.
    rewrite Z.add_0_r in H0. rewrite H0.
    apply Forall_cons in Hs as [Hb Hs].
    rewrite eqb_f by lia.
    rewrite (IH fuel (a + 1) o); [reflexivity | assumption | | |].
    + intros i Hi. replace (a + 1 + Z.of_nat i) with (a + Z.of_nat (S i)) by lia.
      apply (H (S i)). cbn. lia.
    + replace (a + 1 + Z.of_nat (length s))
        with (a + Z.of_nat (length (b :: s))) by (cbn [length]; lia).
      assumption.
    + cbn in Hf. lia.
Qed.

(** ** istrcmp *)

Lemma tolower_nonzero (c : Z) : c <> 0 -> tolower c <> 0.
Proof. intros H Hz. now apply H, tolower_zero. Qed.

(** X1. On C strings [istrcmp] answers 0 exactly when the two strings are
    the same up to letter case. *)
Theorem istrcmp_zero_iff (a b : list Z) :
  c_string a -> c_string b ->
  (istrcmp a b = 0 <-> same_modulo_case a b).
Proof.
  unfold c_string, same_modulo_case. revert b.
  induction a as [|ca a IH]; intros [|cb b] Ha Hb.
  - cbn. tauto.
  - apply Forall_cons in Hb as [Hcb _]. cbn [istrcmp hd map].
    pose proof (tolower_nonzero cb ltac:(lia)).
    change (tolower 0) with 0. split; [lia | discriminate].
  - apply Forall_cons in Ha as [Hca _]. cbn [istrcmp hd map].
    rewrite Z.eqb_refl. cbn [negb]. rewrite andb_false_r.
    pose proof (tolower_nonzero ca ltac:(lia)).
    change (tolower 0) with 0. split; [lia | discriminate].
  - apply Forall_cons in Ha as [Hca Ha]. apply Forall_cons in Hb as [Hcb Hb].
    cbn [istrcmp hd tl map].
    rewrite (eqb_f ca 0), (eqb_f cb 0) by lia. cbn [negb]. rewrite !andb_true_r.
    destruct (Z.eqb_spec (tolower ca) (tolower cb)) as [He|Hne].
    + rewrite orb_true_r. rewrite (IH b Ha Hb). rewrite He.
      split; [now intros -> | now intros [= ->]].
    + destruct (Z.eqb_spec ca cb) as [->|_]; [contradiction|]. cbn [orb].
      split; [lia | intros [= Hc _]; contradiction].
Qed.

Lemma c_string_check (s : list Z) :
  forallb (fun b => (0 <? b) && (b <? 256)) s = true -> c_string s.
Proof.
  unfold c_string. induction s as [|b s IH]; intros H; [constructor|].
  cbn in H. apply andb_prop in H as [Hb Hs]. constructor; [lia | auto].
Qed.

Lemma istrcmp_zero_iff_witness :
  istrcmp (bytes_of_string "Dup") (bytes_of_string "dUP") = 0 /\
  istrcmp (bytes_of_string "dup") (bytes_of_string "dupe") <> 0.
Proof.
  split.
  - apply (proj2 (istrcmp_zero_iff (bytes_of_string "Dup")
                    (bytes_of_string "dUP")
                    (c_string_check (bytes_of_string "Dup") eq_refl)
                    (c_string_check (bytes_of_string "dUP") eq_refl))).
    reflexivity.
  - intros H.
    apply (proj1 (istrcmp_zero_iff (bytes_of_string "dup")
                    (bytes_of_string "dupe")
                    (c_string_check (bytes_of_string "dup") eq_refl)
                    (c_string_check (bytes_of_string "dupe") eq_refl))) in H.
    discriminate.
Defined.

(** ** The MISC field *)

Lemma misc_small (L code : Z) :
  0 <= L < 256 -> 0 <= code < 128 ->
  0 <= Z.lor (Z.shiftl L WORD_LENGTH_OFFSET) code < 2 ^ 16.
Proof.
  intros HL Hc. unfold WORD_LENGTH_OFFSET.
  assert (H0 : 0 <= Z.lor (Z.shiftl L 8) code).
  { apply Z.lor_nonneg. split; [apply Z.shiftl_nonneg|]; lia. }
  split; [exact H0|]. apply bits_lt_pow2; [lia | exact H0 |].
  intros k Hk. rewrite Z.lor_spec, Z.shiftl_spec by lia.
  rewrite (testbit_byte_high L (k - 8)), (testbit_byte_high code k) by lia.
  reflexivity.
Qed.

(** X2. The MISC cell [compile] builds from a name length [L] and an
    opcode unpacks to them: [WORD_LENGTH] gives [L], [instruction] gives
    the opcode, and the hidden bit is clear. *)
Theorem misc_field_round_trip (P : platform) (L code : Z) :
  16 <= cell_bits P -> 0 <= L < 256 -> 0 <= code < 128 ->
  WORD_LENGTH (cell P (Z.lor (Z.shiftl L WORD_LENGTH_OFFSET) code)) = L /\
  WORD_HIDDEN (cell P (Z.lor (Z.shiftl L WORD_LENGTH_OFFSET) code)) = 0 /\
  instruction (cell P (Z.lor (Z.shiftl L WORD_LENGTH_OFFSET) code)) = code.
Proof.
  intros Hb HL Hc. pose proof (misc_small L code HL Hc) as Hs.
  assert (Hp : 2 ^ 16 <= 2 ^ cell_bits P) by (apply Z.pow_le_mono_r; lia).
  rewrite cell_small by lia.
  unfold WORD_LENGTH, WORD_HIDDEN, instruction, INSTRUCTION_MASK,
    WORD_LENGTH_OFFSET.
  split; [|split]; apply Z.bits_inj'; intros n Hn.
  - rewrite Z.land_spec, Z.shiftr_spec, Z.lor_spec, Z.shiftl_spec by lia.
    replace (n + 8 - 8) with n by lia.
    rewrite (testbit_byte_high code (n + 8)) by lia.
    rewrite testbit_255, orb_false_r by lia.
    destruct (Z.ltb_spec n 8); [apply andb_true_r|].
    rewrite (testbit_byte_high L n) by lia. reflexivity.
  - rewrite Z.land_spec, Z.lor_spec, Z.bits_0.
    change 128 with (2 ^ 7). rewrite Z.pow2_bits_eqb by lia.
    destruct (Z.eqb_spec 7 n) as [<-|]; [|apply andb_false_r].
    rewrite Z.shiftl_spec_low by lia.
    rewrite (bits_above_pow2 code 7 7) by (change (2 ^ 7) with 128; lia).
    reflexivity.
  - rewrite Z.land_spec, Z.lor_spec.
    change 127 with (Z.ones 7).
    destruct (Z.ltb_spec n 7).
    + rewrite Z.ones_spec_low, Z.shiftl_spec_low by lia.
      now rewrite andb_true_r.
    + rewrite Z.ones_spec_high by lia.
      rewrite (bits_above_pow2 code 7 n) by (change (2 ^ 7) with 128; lia).
      apply andb_false_r.
Qed.

Lemma misc_field_round_trip_witness :
  WORD_LENGTH (cell lp64 (Z.lor (Z.shiftl 3 WORD_LENGTH_OFFSET) COMPILE)) = 3 /\
  WORD_HIDDEN (cell lp64 (Z.lor (Z.shiftl 3 WORD_LENGTH_OFFSET) COMPILE)) = 0 /\
  instruction (cell lp64 (Z.lor (Z.shiftl 3 WORD_LENGTH_OFFSET) COMPILE))
    = COMPILE.
Proof.
  apply (misc_field_round_trip lp64 3 COMPILE); vm_compute;
    first [discriminate | split; first [discriminate | reflexivity]].
Defined.

(** ** A compiled word is found *)

Lemma mem_byte_insert_ne (P : platform) (m : list Z) (j x a : Z) :
  0 <= j -> a / cell_bytes P <> j ->
  mem_byte P (<[Z.to_nat j := x]> m) a = mem_byte P m a.
Proof. intros Hj Hne. unfold mem_byte. now rewrite load_insert_ne by lia. Qed.

Lemma set_m_inj (o : forth) (m1 m2 : list Z) :
  @Ok forth unit tt (set_m o m1) = Ok tt (set_m o m2) -> m1 = m2.
Proof. intros H. injection H. auto. Qed.

(** The name [compile] stores reads back from the header, byte by byte,
    with its NUL. *)
Lemma compile_bytes (P : platform) (k : Z) (code : Z) (str : list Z)
    (o : forth) (h p : Z) :
  0 <= k -> cell_bytes P = 2 ^ k ->
  code < LAST ->
  load (o_m o) DIC = Some h ->
  load (o_m o) PWD = Some p ->
  PWD < h ->
  h + name_cells P str + 1 < Z.of_nat (length (o_m o)) ->
  Z.of_nat (length (o_m o)) < 2 ^ cell_bits P ->
  c_string str ->
  exists o',
    compile P code str o = Ok tt o' /\
    header_at P code str h p o o' /\
    (forall i, (i < length str)%nat ->
       mem_byte P (o_m o') (h * cell_bytes P + Z.of_nat i) = str !! i) /\
    mem_byte P (o_m o') (h * cell_bytes P + Z.of_nat (length str)) = Some 0.
Proof.
  intros Hk HW Hcode Hh Hp Hph Hfit Hsz Hstr.
  destruct (compile_spec P k code str o h p Hk HW Hcode Hh Hp Hph Hfit Hsz)
    as (o' & Hc & Hhd).
  exists o'. split; [exact Hc|]. split; [exact Hhd|].
  destruct (name_cells_fits P k str Hk HW) as [HL0 HLfit].
  assert (HWpos : 0 < cell_bytes P) by (rewrite HW; apply Z.pow_pos_nonneg; lia).
  set (L := name_cells P str) in *.
  unfold PWD, DIC in *.
  assert (Hbs : Forall (fun b => 0 <= b < 256) (str ++ [0])).
  { apply Forall_app. split.
    - unfold c_string in Hstr. eapply Forall_impl; [exact Hstr|].
      cbn. intros; lia.
    - repeat constructor; lia. }
  destruct (wr_bytes_spec P (str ++ [0]) HWpos (h * cell_bytes P) o)
    as (m1 & Hwr & Hlen1 & Hin & _); [lia | rewrite length_app; cbn [length]; nia
                                     | exact Hbs |].
  destruct (wr_bytes_frame P (str ++ [0]) HWpos (h * cell_bytes P) o)
    as (m1' & Hwr' & _ & Hfr1); [lia | rewrite length_app; cbn [length]; nia |].
  rewrite Hwr in Hwr'. apply set_m_inj in Hwr'. subst m1'.
  rewrite Z.div_mul in Hfr1 by lia.
  assert (Hlen1' : Z.of_nat (length m1) = Z.of_nat (length (o_m o))) by lia.
  assert (Hp1 : load m1 10 = Some p) by (rewrite Hfr1; [assumption | lia]).
  revert Hc. unfold compile. fold (name_cells P str). fold L. unfold DIC, PWD.
  mrun. rewrite ltb_t by assumption. rewrite Hh. mrun. rewrite Hwr. mrun.
  rewrite (Hfr1 6), Hh by lia.
  mem. rewrite Hp1. mem.
  replace (h + L + 1 - 1) with (h + L) by lia. mem.
  intros [= <-]. msimpl.
  assert (Hcellof : forall i, (i < length (str ++ [0%Z]))%nat ->
            h <= (h * cell_bytes P + Z.of_nat i) / cell_bytes P < h + L).
  { intros i Hi. rewrite length_app in Hi. cbn [length] in Hi. split.
    - apply Z.div_le_lower_bound; nia.
    - apply Z.div_lt_upper_bound; nia. }
  assert (Hbyte : forall i, (i < length (str ++ [0%Z]))%nat ->
            mem_byte P
              (<[Z.to_nat (h + L + 1) :=
                   cell P (Z.lor (Z.shiftl L WORD_LENGTH_OFFSET) code)]>
                 (<[Z.to_nat 6 := h + L + 1 + 1]>
                    (<[Z.to_nat 10 := h + L]>
                       (<[Z.to_nat (h + L) := p]>
                          (<[Z.to_nat 6 := h + L + 1]>
                             (<[Z.to_nat 6 := h + L]> m1))))))
              (h * cell_bytes P + Z.of_nat i) = (str ++ [0]) !! i).
  { intros i Hi. pose proof (Hcellof i Hi).
    rewrite !mem_byte_insert_ne by lia. now apply Hin. }
  split.
  - intros i Hi. rewrite Hbyte by (rewrite length_app; cbn [length]; lia).
    now apply lookup_app_l.
  - rewrite Hbyte by (rewrite length_app; cbn [length]; lia).
    rewrite lookup_app_r by lia. now rewrite Nat.sub_diag.
Qed.

Lemma rd_cstr_spec (P : platform) (s : list Z) (a : Z) (o : forth) :
  0 < cell_bytes P ->
  c_string s ->
  (forall i, (i < length s)%nat ->
     mem_byte P (o_m o) (a + Z.of_nat i) = s !! i) ->
  mem_byte P (o_m o) (a + Z.of_nat (length s)) = Some 0 ->
  0 <= a ->
  rd_cstr P a o = Ok s o.
Proof.
  intros HW Hs Hin Hz Ha. unfold rd_cstr.
  apply rd_cstr_from_spec; try assumption.
  assert (Hcell : (a + Z.of_nat (length s)) / cell_bytes P
                  < Z.of_nat (length (o_m o))).
  { unfold mem_byte in Hz.
    destruct (load (o_m o) ((a + Z.of_nat (length s)) / cell_bytes P)) eqn:E;
      [|discriminate].
    apply load_inv in E. lia. }
  assert (a + Z.of_nat (length s) < cell_bytes P * Z.of_nat (length (o_m o))).
  { apply Z.lt_le_trans
      with (cell_bytes P * ((a + Z.of_nat (length s)) / cell_bytes P + 1)).
    - pose proof (Z.div_mod (a + Z.of_nat (length s)) (cell_bytes P) ltac:(lia)).
      pose proof (Z.mod_pos_bound (a + Z.of_nat (length s)) (cell_bytes P) HW).
      lia.
    - apply Z.mul_le_mono_nonneg_l; lia. }
  apply Nat2Z.inj_lt. rewrite Nat2Z.inj_succ, Nat2Z.inj_mul, Z2Nat.id by lia.
  lia.
Qed.

(** X3. A word that [compile] has just added is found by [forth_find]
    under every spelling that differs from its name in letter case only,
    and the answer is the offset of its MISC cell: older words of the same
    name are shadowed. *)
Theorem find_after_compile (P : platform) (k : Z) (code : Z)
    (str str' : list Z) (o : forth) (h p : Z) :
  1 <= k -> cell_bytes P = 2 ^ k ->
  0 <= code < LAST ->
  load (o_m o) DIC = Some h ->
  load (o_m o) PWD = Some p ->
  DICTIONARY_START <= h ->
  name_cells P str < 256 ->
  h + name_cells P str + 1 < Z.of_nat (length (o_m o)) ->
  Z.of_nat (length (o_m o)) < 2 ^ cell_bits P ->
  c_string str ->
  same_modulo_case str' str ->
  exists o',
    compile P code str o = Ok tt o' /\
    forth_find P str' o' = Ok (h + name_cells P str + 1) o'.
Proof.
  intros Hk HW Hcode Hh Hp Hhs HL256 Hfit Hsz Hstr Hcase.
  assert (HWpos : 0 < cell_bytes P) by (rewrite HW; apply Z.pow_pos_nonneg; lia).
  assert (Hbits : 16 <= cell_bits P).
  { unfold cell_bits. rewrite HW.
    assert (2 ^ 1 <= 2 ^ k) by (apply Z.pow_le_mono_r; lia). lia. }
  destruct (name_cells_fits P k str ltac:(lia) HW) as [HL0 HLfit].
  unfold DICTIONARY_START, STRING_OFFSET, MAX_WORD_LENGTH, LAST in *.
  destruct (compile_bytes P k code str o h p) as (o' & Hc & Hhd & Hin & Hz);
    try assumption; try (unfold PWD, LAST; lia).
  destruct Hhd as (H1 & H2 & H3 & H4 & _ & Hlen & _).
  set (L := name_cells P str) in *.
  assert (HL1 : 1 <= L) by nia.
  destruct (misc_field_round_trip P L code Hbits) as (ML & MH & _); [lia | lia |].
  exists o'. split; [exact Hc|].
  assert (Hname : rd_cstr P (h * cell_bytes P) o' = Ok str o').
  { apply rd_cstr_spec; try assumption. nia. }
  assert (Hlen' : Z.of_nat (length (o_m o')) < 2 ^ cell_bits P) by lia.
  assert (Hcmp : istrcmp str' str = 0).
  { rewrite (istrcmp_modulo_case str' str str Hcase).
    apply istrcmp_zero_iff; try assumption. reflexivity. }
  unfold forth_find. unfold PWD in *.
  unfold bind at 1. unfold rd at 1. rewrite H2.
  unfold bind at 1. unfold rd at 1. rewrite cell_small by lia. rewrite H4.
  unfold bind at 1. unfold get.
  unfold bind at 1. cbn [find_loop].
  unfold DICTIONARY_START, STRING_OFFSET, MAX_WORD_LENGTH.
  rewrite gtb_t by lia.
  unfold bind at 1. unfold rd at 1. rewrite cell_small by lia. rewrite H4.
  rewrite MH, ML. cbn [Z.eqb negb].
  unfold bind at 1. unfold bind at 1.
  replace (h + L - L) with h by lia. rewrite cell_small by lia.
  rewrite Hname. unfold ret at 1. rewrite Hcmp. cbn [Z.eqb negb].
  unfold ret. rewrite gtb_t by lia. now rewrite cell_small by lia.
Qed.

(** The word drop compiled into the 128-cell instance is found as DROP. *)
Lemma find_after_compile_witness :
  exists o',
    compile lp64 DROP (bytes_of_string "drop") blank = Ok tt o' /\
    forth_find lp64 (bytes_of_string "DROP") o' = Ok 66 o'.
Proof.
  apply (find_after_compile lp64 3 DROP (bytes_of_string "drop")
           (bytes_of_string "DROP") blank 64 0);
    first [ apply (c_string_check (bytes_of_string "drop")); reflexivity
          | reflexivity
          | vm_compute; first [discriminate
                              | split; first [discriminate | reflexivity] ]
          | vm_compute; reflexivity ].
Defined.

(** ** The stack words compose *)

Lemma load_lookup (m : list Z) (i x : Z) :
  load m i = Some x -> m !! Z.to_nat i = Some x.
Proof. unfold load. destruct (0 <=? i); [auto | discriminate]. Qed.

(** X4. SWAP is an involution: two SWAPs in a row leave the locals and
    the whole instance exactly as they were. *)
Theorem exec_SWAP_twice (P : platform) (v : vm) (x : Z) :
  load (o_m (obj v)) (r_S v) = Some x ->
  exists v1,
    exec P SWAP v = Ok LOOP v1 /\
    r_f v1 = x /\ load (o_m (obj v1)) (r_S v1) = Some (r_f v) /\
    exec P SWAP v1 = Ok LOOP v.
Proof.
  intros Hx. pose proof (load_inv _ _ _ Hx) as Hr.
  unfold exec. mrun. rewrite Hx. mem.
  replace (r_S v - 1 + 1) with (r_S v) by lia. mem.
  eexists. split; [reflexivity|]. mem.
  split; [reflexivity|]. split; [reflexivity|].
  replace (r_S v - 1 + 1) with (r_S v) by lia. mem.
  rewrite list_insert_insert_eq.
  rewrite (list_insert_id (o_m (obj v)) (Z.to_nat (r_S v)) x)
    by (now apply load_lookup).
  destruct v as [[hd cs sS m w] pc S I f]. reflexivity.
Qed.

Lemma exec_SWAP_twice_witness :
  exists v1,
    exec lp64 SWAP running = Ok LOOP v1 /\
    r_f v1 = 42 /\ load (o_m (obj v1)) (r_S v1) = Some 5 /\
    exec lp64 SWAP v1 = Ok LOOP running.
Proof. apply (exec_SWAP_twice lp64 running 42). reflexivity. Defined.

(** X5. DUP followed by DROP restores the cached top [f] and the stack
    pointer; the only cell written is the one above the stack. *)
Theorem exec_DUP_DROP (P : platform) (v : vm) :
  0 <= r_S v + 1 < Z.of_nat (length (o_m (obj v))) ->
  exists v1 v2,
    exec P DUP v = Ok LOOP v1 /\
    r_f v1 = r_f v /\ r_S v1 = r_S v + 1 /\
    load (o_m (obj v1)) (r_S v1) = Some (r_f v) /\
    exec P DROP v1 = Ok LOOP v2 /\
    r_f v2 = r_f v /\ r_S v2 = r_S v /\ r_I v2 = r_I v /\
    (forall j, j <> r_S v + 1 ->
       load (o_m (obj v2)) j = load (o_m (obj v)) j).
Proof.
  intros HS. unfold exec. mrun. mem.
  eexists _, _. split; [reflexivity|]. mem.
  split; [reflexivity|]. split; [reflexivity|]. split; [reflexivity|].
  split; [reflexivity|]. mem.
  split; [reflexivity|]. split; [lia|]. split; [reflexivity|].
  intros j Hj. now mem.
Qed.

Lemma exec_DUP_DROP_witness :
  exists v1 v2,
    exec lp64 DUP running = Ok LOOP v1 /\
    r_f v1 = 5 /\ r_S v1 = 66 /\
    load (o_m (obj v1)) (r_S v1) = Some 5 /\
    exec lp64 DROP v1 = Ok LOOP v2 /\
    r_f v2 = 5 /\ r_S v2 = 65 /\ r_I v2 = r_I running /\
    (forall j, j <> 66 -> load (o_m (obj v2)) j = load (o_m (obj running)) j).
Proof.
  apply (exec_DUP_DROP lp64 running). vm_compute.
  split; [discriminate | reflexivity].
Defined.

(** X6. TOR followed by FROMR moves the top of the data stack to the
    return stack and back: [f], [S] and RSTK are restored, and the only
    cell of the memory that changes is the return-stack slot used. *)
Theorem exec_TOR_FROMR (P : platform) (v : vm) (r x : Z) :
  Z.of_nat (length (o_m (obj v))) = core_size (obj v) ->
  START_TIME < core_size (obj v) < 2 ^ cell_bits P ->
  load (o_m (obj v)) RSTK = Some r ->
  DICTIONARY_START <= r -> r + 1 < core_size (obj v) ->
  load (o_m (obj v)) (r_S v) = Some x ->
  DICTIONARY_START <= r_S v -> r_S v <> r + 1 ->
  exists v1 v2,
    exec P TOR v = Ok LOOP v1 /\
    r_f v1 = x /\ r_S v1 = r_S v - 1 /\
    load (o_m (obj v1)) RSTK = Some (r + 1) /\
    load (o_m (obj v1)) (r + 1) = Some (r_f v) /\
    exec P FROMR v1 = Ok LOOP v2 /\
    r_f v2 = r_f v /\ r_S v2 = r_S v /\
    load (o_m (obj v2)) RSTK = Some r /\
    (forall j, j <> r + 1 -> load (o_m (obj v2)) j = load (o_m (obj v)) j).
Proof.
  intros Hlen Hsz Hr Hrs Hr1 Hx HSs HSr.
  pose proof (load_inv _ _ _ Hx) as HS.
  unfold START_TIME, DICTIONARY_START, STRING_OFFSET, MAX_WORD_LENGTH, RSTK in *.
  unfold exec, RSTK. mrun. rewrite Hr. mem.
  rewrite ck_pass by (unfold DEBUG; mem; lia). mem. rewrite Hx. mem.
  eexists _, _. split; [reflexivity|]. mem.
  split; [reflexivity|]. split; [reflexivity|]. split; [reflexivity|].
  split; [reflexivity|].
  replace (r_S v - 1 + 1) with (r_S v) by lia. mem.
  rewrite ck_pass by (unfold DEBUG; mem; lia). mem.
  replace (r + 1 - 1) with r by lia.
  split; [reflexivity|]. mem.
  split; [reflexivity|]. split; [reflexivity|]. split; [reflexivity|].
  intros j Hj.
  destruct (Z.eq_dec j 7) as [->|H7]; [now mem|].
  destruct (Z.eq_dec j (r_S v)) as [->|HjS]; [now mem|].
  now mem.
Qed.

(** A state of the dispatch loop over [blank] with the return stack
    pointer at its base, cell 96. *)
Lemma exec_TOR_FROMR_witness :
  exists v1 v2,
    exec lp64 TOR running = Ok LOOP v1 /\
    r_f v1 = 42 /\ r_S v1 = 64 /\
    load (o_m (obj v1)) RSTK = Some 97 /\
    load (o_m (obj v1)) 97 = Some 5 /\
    exec lp64 FROMR v1 = Ok LOOP v2 /\
    r_f v2 = 5 /\ r_S v2 = 65 /\
    load (o_m (obj v2)) RSTK = Some 96 /\
    (forall j, j <> 97 -> load (o_m (obj v2)) j = load (o_m (obj running)) j).
Proof.
  apply (exec_TOR_FROMR lp64 running 96 42);
    first [ reflexivity
          | vm_compute; first [discriminate
                              | split; first [discriminate | reflexivity] ] ].
Defined.

(** X7. RUN followed by EXIT is a call that returns at once: the return
    address goes through the return stack, and [I] and RSTK end as they
    were before the call. *)
Theorem exec_RUN_EXIT (P : platform) (v : vm) (r : Z) :
  Z.of_nat (length (o_m (obj v))) = core_size (obj v) ->
  START_TIME < core_size (obj v) < 2 ^ cell_bits P ->
  load (o_m (obj v)) RSTK = Some r ->
  DICTIONARY_START <= r -> r + 1 < core_size (obj v) ->
  exists v1 v2,
    exec P RUN v = Ok LOOP v1 /\
    r_I v1 = r_pc v /\
    load (o_m (obj v1)) RSTK = Some (r + 1) /\
    load (o_m (obj v1)) (r + 1) = Some (r_I v) /\
    exec P EXIT v1 = Ok LOOP v2 /\
    r_I v2 = r_I v /\ r_f v2 = r_f v /\ r_S v2 = r_S v /\
    load (o_m (obj v2)) RSTK = Some r /\
    (forall j, j <> r + 1 -> load (o_m (obj v2)) j = load (o_m (obj v)) j).
Proof.
  intros Hlen Hsz Hr Hrs Hr1.
  unfold START_TIME, DICTIONARY_START, STRING_OFFSET, MAX_WORD_LENGTH, RSTK in *.
  unfold exec, RSTK. mrun. rewrite Hr. mem.
  rewrite ck_pass by (unfold DEBUG; mem; lia). mem.
  eexists _, _. split; [reflexivity|]. mem.
  split; [reflexivity|]. split; [reflexivity|]. split; [reflexivity|].
  rewrite ck_pass by (unfold DEBUG; mem; lia). mem.
  replace (r + 1 - 1) with r by lia.
  split; [reflexivity|]. mem.
  split; [reflexivity|]. split; [reflexivity|]. split; [reflexivity|].
  split; [reflexivity|].
  intros j Hj.
  destruct (Z.eq_dec j 7) as [->|H7]; [now mem|].
  now mem.
Qed.

Lemma exec_RUN_EXIT_witness :
  exists v1 v2,
    exec lp64 RUN (with_pc running 80) = Ok LOOP v1 /\
    r_I v1 = 80 /\
    load (o_m (obj v1)) RSTK = Some 97 /\
    load (o_m (obj v1)) 97 = Some 67 /\
    exec lp64 EXIT v1 = Ok LOOP v2 /\
    r_I v2 = 67 /\ r_f v2 = 5 /\ r_S v2 = 65 /\
    load (o_m (obj v2)) RSTK = Some 96 /\
    (forall j, j <> 97 -> load (o_m (obj v2)) j = load (o_m (obj running)) j).
Proof.
  apply (exec_RUN_EXIT lp64 (with_pc running 80) 96);
    first [ reflexivity
          | vm_compute; first [discriminate
                              | split; first [discriminate | reflexivity] ] ].
Defined.

(** X8. INV is an involution on cells: two INVs in a row restore [f]. *)
Theorem exec_INV_twice (P : platform) (v : vm) :
  0 <= cell_bits P ->
  0 <= r_f v < 2 ^ cell_bits P ->
  exists v1,
    exec P INV v = Ok LOOP v1 /\
    r_f v1 = 2 ^ cell_bits P - 1 - r_f v /\
    exec P INV v1 = Ok LOOP v.
Proof.
  intros Hb Hf.
  assert (Hinv : forall x, 0 <= x < 2 ^ cell_bits P ->
            cell P (Z.lnot x) = 2 ^ cell_bits P - 1 - x).
  { intros x Hx. unfold cell, Z.lnot.
    symmetry. apply Z.mod_unique with (-1); lia. }
  unfold exec. mrun. rewrite Hinv by assumption.
  eexists. split; [reflexivity|]. split; [reflexivity|]. msimpl.
  rewrite Hinv by lia.
  replace (2 ^ cell_bits P - 1 - (2 ^ cell_bits P - 1 - r_f v)) with (r_f v)
    by lia.
  destruct v. reflexivity.
Qed.

Lemma exec_INV_twice_witness :
  exists v1,
    exec lp64 INV running = Ok LOOP v1 /\
    r_f v1 = 2 ^ 64 - 1 - 5 /\
    exec lp64 INV v1 = Ok LOOP running.
Proof.
  apply (exec_INV_twice lp64 running); vm_compute;
    first [discriminate | split; first [discriminate | reflexivity]].
Defined.

(** ** What [forth_run] reports *)

(** Reading the locals of a state that is written out. *)
Ltac locals :=
  cbn [r_I r_S r_pc r_f obj with_I with_pc with_S with_f set_obj]; msimpl.

Lemma debugged_off (f line : Z) (o : forth) :
  load (o_m o) DEBUG = Some 0 -> debugged f line o = o.
Proof. intros H. unfold debugged. now rewrite H. Qed.



Lemma poison_inv (o o' : forth) (rc : Z) :
  poison o = Ok rc o' -> rc = -1 /\ load (o_m o') INVALID = Some 1.
Proof.
  unfold poison, bind, wr, ret.
  destruct (store (o_m o) INVALID 1) as [m'|] eqn:E; [|discriminate].
  intros [= <- <-]. apply store_inv in E as [Hr ->].
  split; [reflexivity|]. msimpl. now apply load_insert_eq.
Qed.

(** X10. [forth_run] has two return values only.  When it returns 0 the
    instance was valid on entry (INVALID was 0); when it returns -1 the
    instance is invalid afterwards (INVALID is 1), whichever of the two
    ways to -1 was taken: the test on entry, or the [longjmp] of a fatal
    error caught by [setjmp]. *)
Theorem forth_run_status (P : platform) (fuel : nat) (o o' : forth)
    (rc : Z) :
  forth_run P fuel o = Ok rc o' ->
  (rc = 0 /\ load (o_m o) INVALID = Some 0) \/
  (rc = -1 /\ load (o_m o') INVALID = Some 1).
Proof.
  unfold forth_run, bind, rd.
  destruct (load (o_m o) INVALID) as [inv|] eqn:E; [|discriminate].
  destruct (Z.eqb_spec inv 0) as [->|Hne]; cbn [negb].
  - destruct (load (o_m o) INSTRUCTION) as [I|]; [|discriminate].
    destruct (load (o_m o) TOP) as [f|]; [|discriminate].
    destruct (run P fuel LOOP (enter o I f)) as [p v|v|v|e];
      try discriminate.
    + unfold put, wr, ret.
      destruct (store _ TOP (r_f v)); [|discriminate].
      intros [= <- <-]. now left.
    + unfold put, wr, ret.
      destruct (store _ TOP (r_f v)); [|discriminate].
      intros [= <- <-]. now left.
    + intros H. right. now apply poison_inv with (obj v).
  - intros H. right. now apply poison_inv with o.
Qed.

Lemma forth_run_status_witness :
  (-1 = 0 /\ load (o_m (at_cell 99)) INVALID = Some 0) \/
  (-1 = -1 /\
   load (o_m (set_m (log (illegal_op 99) (at_cell 99))
                (<[Z.to_nat INVALID := 1]> (o_m (at_cell 99))))) INVALID
     = Some 1).
Proof.
  apply (forth_run_status lp64 2 (at_cell 99)). vm_compute. reflexivity.
Defined.

(** ** Input from a string *)

Lemma hd_skipn (n : nat) (s : list Z) :
  hd 0 (skipn n s) = nth n (s ++ [0]) 0.
Proof.
  revert s. induction n as [|n IH]; intros [|c s]; cbn; try reflexivity.
  - now destruct n.
  - apply IH.
Qed.

Lemma cell_STRING_IN (P : platform) :
  0 < cell_bytes P -> cell P STRING_IN <> FILE_IN.
Proof.
  intros HW. unfold cell, STRING_IN, FILE_IN, cell_bits.
  assert (H : 2 ^ 1 <= 2 ^ (8 * cell_bytes P))
    by (apply Z.pow_le_mono_r; lia).
  rewrite <- (Z.mod_unique (-1) (2 ^ (8 * cell_bytes P)) (-1)
                (2 ^ (8 * cell_bytes P) - 1)); lia.
Qed.

(** X11. Reading characters from a string.  [forth_set_string_input] sets
    SLEN to [strlen(s) + 1], so [forth_get_char] hands out the bytes of the
    string and then its terminating NUL as one more character, advancing
    SIDX each time; only after that does it return EOF, and then it changes
    nothing. *)
Theorem forth_get_char_string (P : platform) (o : forth) (str : list Z)
    (idx : Z) :
  0 < cell_bytes P ->
  string_input P o str idx ->
  load (o_m o) SLEN = Some (Z.of_nat (length str) + 1) ->
  0 <= idx ->
  (idx <= Z.of_nat (length str) ->
   forth_get_char P o
     = Ok (as_char P (nth (Z.to_nat idx) (str ++ [0]) 0))
          (set_m o (<[Z.to_nat SIDX := cell P (idx + 1)]> (o_m o)))) /\
  (Z.of_nat (length str) < idx -> forth_get_char P o = Ok EOF o).
Proof.
  intros HW (Hsrc & Hidx & p & Hp & Hp0 & Hstr) Hlen H0.
  pose proof (cell_STRING_IN P HW) as Hne.
  pose proof (load_inv _ _ _ Hidx) as Hr. unfold SIDX in Hr.
  unfold forth_get_char, host_string. mrun. rewrite Hsrc. msimpl.
  rewrite eqb_f by assumption. rewrite Z.eqb_refl.
  rewrite Hidx. msimpl. rewrite Hlen. msimpl.
  split; intros Hi.
  - rewrite geb_f by lia. rewrite Hp. msimpl.
    rewrite leb_f by lia. rewrite Hstr.
    rewrite !leb_t by lia. cbn [andb]. msimpl.
    unfold SIDX. rewrite store_in_range by lia. msimpl.
    now rewrite hd_skipn.
  - now rewrite geb_t by lia.
Qed.

Lemma forth_get_char_string_witness :
  (3 <= Z.of_nat (length (bytes_of_string "dup")) ->
   forth_get_char lp64 (set_m (typed "dup") (<[Z.to_nat SIDX := 3]> (o_m (typed "dup"))))
     = Ok (as_char lp64 (nth (Z.to_nat 3) (bytes_of_string "dup" ++ [0]) 0))
          (set_m (set_m (typed "dup") (<[Z.to_nat SIDX := 3]> (o_m (typed "dup"))))
             (<[Z.to_nat SIDX := cell lp64 (3 + 1)]>
                (o_m (set_m (typed "dup") (<[Z.to_nat SIDX := 3]> (o_m (typed "dup")))))))) /\
  (Z.of_nat (length (bytes_of_string "dup")) < 3 ->
   forth_get_char lp64 (set_m (typed "dup") (<[Z.to_nat SIDX := 3]> (o_m (typed "dup"))))
     = Ok EOF (set_m (typed "dup") (<[Z.to_nat SIDX := 3]> (o_m (typed "dup"))))).
Proof.
  apply (forth_get_char_string lp64
           (set_m (typed "dup") (<[Z.to_nat SIDX := 3]> (o_m (typed "dup"))))
           (bytes_of_string "dup") 3).
  - reflexivity.
  - split; [vm_compute; reflexivity|]. split; [vm_compute; reflexivity|].
    exists 1. split; [vm_compute; reflexivity|].
    split; [reflexivity | vm_compute; reflexivity].
  - vm_compute; reflexivity.
  - vm_compute; discriminate.
Defined.

Lemma skip_space_spec (s : list Z) :
  forall r k, skip_space s = (r, k) ->
    exists sp, s = sp ++ r /\ forallb isspace sp = true /\
               k = Z.of_nat (length sp) /\
               (r = [] \/ isspace (hd 0 r) = false).
Proof.
  induction s as [|c s IH]; intros r k H; cbn in H.
  - injection H as <- <-. exists []. auto.
  - destruct (isspace c) eqn:Ec.
    + destruct (skip_space s) as [r1 k1]. injection H as <- <-.
      destruct (IH r1 k1 eq_refl) as (sp & -> & Hsp & -> & Hr).
      exists (c :: sp). cbn. rewrite Ec, Hsp.
      repeat split; [lia | assumption].
    + injection H as <- <-. exists []. cbn. auto.
Qed.

Lemma take_token_spec (w : nat) :
  forall s t rest, take_token w s = (t, rest) ->
    s = t ++ rest /\ (length t <= w)%nat /\
    forallb (fun c => negb (isspace c)) t = true /\
    ((length t < w)%nat -> rest = [] \/ isspace (hd 0 rest) = true).
Proof.
  induction w as [|w IH]; intros s t rest H.
  - destruct s; cbn in H; injection H as <- <-; cbn; repeat split; lia.
  - destruct s as [|c s]; cbn in H.
    + injection H as <- <-. cbn. repeat split; auto; lia.
    + destruct (isspace c) eqn:Ec.
      * injection H as <- <-. cbn. repeat split; auto; lia.
      * destruct (take_token w s) as [t1 r1] eqn:E. injection H as <- <-.
        destruct (IH s t1 r1 E) as (-> & Hl & Hns & Hd).
        cbn. rewrite Ec, Hns. repeat split; [lia|]. intros; apply Hd; lia.
Qed.

Lemma take_token_pos (w : nat) (c : Z) (r t rest : list Z) :
  isspace c = false -> take_token (S w) (c :: r) = (t, rest) ->
  (0 < length t)%nat.
Proof.
  intros Hc. cbn [take_token]. rewrite Hc.
  destruct (take_token w r). intros [= <- <-]. cbn. lia.
Qed.

(** What scanf's [%31s%n] makes of a text: nothing when it is white space
    only, else the first token cut at 31 bytes. *)
Lemma scan_word_spec (s : list Z) :
  match scan_word s with
  | None => forallb isspace s = true
  | Some (t, rest, n) =>
      exists sp, s = sp ++ t ++ rest /\ forallb isspace sp = true /\
        forallb (fun c => negb (isspace c)) t = true /\
        (0 < length t <= 31)%nat /\
        ((length t < 31)%nat -> rest = [] \/ isspace (hd 0 rest) = true) /\
        n = Z.of_nat (length sp) + Z.of_nat (length t)
  end.
Proof.
  unfold scan_word. destruct (skip_space s) as [r k] eqn:E.
  destruct (skip_space_spec s r k E) as (sp & -> & Hsp & -> & Hr).
  destruct r as [|c r].
  - now rewrite app_nil_r.
  - destruct Hr as [Hr|Hr]; [discriminate|]. cbn [hd] in Hr.
    destruct (take_token _ (c :: r)) as [t rest] eqn:Et.
    change (Z.to_nat (MAX_WORD_LENGTH - 1)) with 31%nat in Et.
    pose proof (take_token_spec _ _ _ _ Et) as (Hs & Hl & Hns & Hd).
    exists sp. rewrite Hs. repeat split; try assumption; try lia.
    now apply (take_token_pos 30 c r t rest).
Qed.

(** [wr_bytes] changes no cell outside the bytes it writes. *)
Lemma wr_bytes_frame2 (P : platform) (bs : list Z) :
  0 < cell_bytes P ->
  forall a o,
    0 <= a ->
    a + Z.of_nat (length bs) <= cell_bytes P * Z.of_nat (length (o_m o)) ->
    exists m',
      wr_bytes P a bs o = Ok tt (set_m o m') /\
      length m' = length (o_m o) /\
      forall j, j < a / cell_bytes P \/
                a + Z.of_nat (length bs) <= j * cell_bytes P ->
                load m' j = load (o_m o) j.
Proof.
  intros HW. induction bs as [|b bs IH]; intros a o Ha Hfit.
  - exists (o_m o). destruct o; cbn. auto.
  - cbn [wr_bytes]. cbn [length] in Hfit.
    assert (Hq : 0 <= a / cell_bytes P) by (apply Z.div_pos; lia).
    assert (Hlt : a / cell_bytes P < Z.of_nat (length (o_m o)))
      by (apply Z.div_lt_upper_bound; lia).
    assert (Hle1 : a / cell_bytes P <= (a + 1) / cell_bytes P)
      by (apply Z.div_le_mono; lia).
    destruct (load_in_range (o_m o) (a / cell_bytes P)) as [c Hc]; [lia|].
    unfold wr_byte. mrun. rewrite Hc. mem.
    match goal with |- context [set_m o ?m1] => set (o1 := set_m o m1) end.
    destruct (IH (a + 1) o1) as (m' & Hwr & Hlen & Hfr).
    + lia.
    + subst o1. mem. lia.
    + exists m'. rewrite Hwr. subst o1. split; [reflexivity|].
      split; [now rewrite Hlen; mem; rewrite length_insert|].
      intros j Hj. cbn [length] in Hj.
      assert (Hne : j <> a / cell_bytes P).
      { destruct Hj as [Hj|Hj]; [lia|]. intros ->.
        pose proof (Z.mul_div_le a (cell_bytes P) HW). lia. }
      rewrite Hfr by (destruct Hj; [left|right]; lia). mem. reflexivity.
Qed.

Lemma c_string_app (a b : list Z) :
  c_string (a ++ b) -> c_string a /\ c_string b.
Proof. unfold c_string. apply Forall_app. Qed.

(** X12. Reading a word from a string.  When only white space is left of
    the text, [forth_get_word] returns EOF and changes nothing.  Otherwise
    it skips the white space, takes the token up to the next white space
    or the end, cut at 31 bytes, and stores it as a C string in the buffer
    [o->s]; it returns the number of bytes consumed and adds it to SIDX.
    Nothing but SIDX and the 32 bytes of the buffer changes. *)
Theorem forth_get_word_string (P : platform) (o : forth) (str : list Z)
    (idx : Z) :
  0 < cell_bytes P ->
  DICTIONARY_START <= Z.of_nat (length (o_m o)) ->
  string_input P o str idx ->
  0 <= idx <= Z.of_nat (length str) ->
  c_string str ->
  (forallb isspace (skipn (Z.to_nat idx) str) = true /\
   forth_get_word P (o_s P) o = Ok EOF o) \/
  (exists sp t rest o',
     skipn (Z.to_nat idx) str = sp ++ t ++ rest /\
     forallb isspace sp = true /\
     forallb (fun c => negb (isspace c)) t = true /\
     (0 < length t <= 31)%nat /\
     ((length t < 31)%nat -> rest = [] \/ isspace (hd 0 rest) = true) /\
     forth_get_word P (o_s P) o
       = Ok (Z.of_nat (length sp) + Z.of_nat (length t)) o' /\
     rd_cstr P (o_s P) o' = Ok t o' /\
     load (o_m o') SIDX
       = Some (cell P (idx + (Z.of_nat (length sp) + Z.of_nat (length t)))) /\
     (forall j, j <> SIDX -> j < STRING_OFFSET \/ DICTIONARY_START <= j ->
                load (o_m o') j = load (o_m o) j) /\
     o_world o' = o_world o).
Proof.
  intros HW Hlen (Hsrc & Hidx & p & Hp & Hp0 & Hstr) Hi Hcs.
  pose proof (cell_STRING_IN P HW) as Hne.
  unfold DICTIONARY_START, STRING_OFFSET, MAX_WORD_LENGTH in *.
  unfold forth_get_word, host_string. mrun. rewrite Hsrc. msimpl.
  rewrite eqb_f by assumption. rewrite Z.eqb_refl.
  rewrite Hp. msimpl. rewrite Hidx. msimpl.
  rewrite leb_f by lia. rewrite Hstr.
  rewrite !leb_t by lia. cbn [andb]. msimpl.
  pose proof (scan_word_spec (skipn (Z.to_nat idx) str)) as Hsc.
  destruct (scan_word (skipn (Z.to_nat idx) str)) as [[[t rest] n]|].
  2:{ left. split; [assumption | reflexivity]. }
  right. destruct Hsc as (sp & Hsplit & Hsp & Hns & Hl & Hd & ->).
  assert (Hct : c_string t).
  { rewrite <- (take_drop (Z.to_nat idx) str) in Hcs.
    apply c_string_app in Hcs as [_ Hcs]. change drop with (@skipn Z) in Hcs.
    rewrite Hsplit in Hcs.
    apply c_string_app in Hcs as [_ Hcs].
    now apply c_string_app in Hcs as [Hcs _]. }
  assert (Hfit : o_s P + Z.of_nat (length (t ++ [0]))
                 <= cell_bytes P * Z.of_nat (length (o_m o))).
  { unfold o_s, STRING_OFFSET. rewrite length_app. cbn [length]. nia. }
  assert (Hos : 0 <= o_s P) by (unfold o_s, STRING_OFFSET; lia).
  assert (Hbytes : Forall (fun b => 0 <= b < 256) (t ++ [0])).
  { apply Forall_app. split.
    - eapply Forall_impl; [exact Hct|]. cbn. lia.
    - repeat constructor; lia. }
  destruct (wr_bytes_spec P (t ++ [0]) HW (o_s P) o Hos Hfit Hbytes)
    as (m1 & Hwr & Hlen1 & Hrd & _ & _).
  destruct (wr_bytes_frame2 P (t ++ [0]) HW (o_s P) o Hos Hfit)
    as (m2 & Hwr2 & _ & Hfr).
  rewrite Hwr in Hwr2. apply set_m_inj in Hwr2. subst m2.
  assert (Hdiv : o_s P / cell_bytes P = 32).
  { unfold o_s, STRING_OFFSET. apply Z.div_mul. lia. }
  rewrite Hwr. msimpl.
  rewrite (Hfr SIDX) by (left; rewrite Hdiv; unfold SIDX; lia).
  rewrite Hidx. msimpl.
  unfold SIDX. rewrite store_in_range by lia. msimpl.
  exists sp, t, rest. eexists. split; [assumption|].
  do 4 (split; [assumption|]). split; [reflexivity|]. msimpl.
  split; [|split; [|split]].
  - apply rd_cstr_spec; try assumption; msimpl.
    + intros i Hi'. rewrite mem_byte_insert_ne.
      * rewrite Hrd by (rewrite length_app; cbn; lia).
        now rewrite lookup_app_l by lia.
      * lia.
      * assert (o_s P / cell_bytes P <= (o_s P + Z.of_nat i) / cell_bytes P)
          by (apply Z.div_le_mono; lia). lia.
    + rewrite mem_byte_insert_ne.
      * rewrite Hrd by (rewrite length_app; cbn; lia).
        rewrite lookup_app_r by lia. now rewrite Nat.sub_diag.
      * lia.
      * assert (o_s P / cell_bytes P
                <= (o_s P + Z.of_nat (length t)) / cell_bytes P)
          by (apply Z.div_le_mono; lia). lia.
  - now mem.
  - intros j Hj Hr. unfold SIDX in Hj. mem. apply Hfr.
    rewrite Hdiv. destruct Hr as [Hr|Hr]; [left; lia|right].
    unfold o_s, STRING_OFFSET. rewrite length_app. cbn [length]. nia.
  - reflexivity.
Qed.

Lemma forth_get_word_string_witness :
  (forallb isspace (skipn (Z.to_nat 0) (bytes_of_string " dup 1")) = true /\
   forth_get_word lp64 (o_s lp64) (typed " dup 1")
     = Ok EOF (typed " dup 1")) \/
  (exists sp t rest o',
     skipn (Z.to_nat 0) (bytes_of_string " dup 1") = sp ++ t ++ rest /\
     forallb isspace sp = true /\
     forallb (fun c => negb (isspace c)) t = true /\
     (0 < length t <= 31)%nat /\
     ((length t < 31)%nat -> rest = [] \/ isspace (hd 0 rest) = true) /\
     forth_get_word lp64 (o_s lp64) (typed " dup 1")
       = Ok (Z.of_nat (length sp) + Z.of_nat (length t)) o' /\
     rd_cstr lp64 (o_s lp64) o' = Ok t o' /\
     load (o_m o') SIDX
       = Some (cell lp64 (0 + (Z.of_nat (length sp) + Z.of_nat (length t)))) /\
     (forall j, j <> SIDX -> j < STRING_OFFSET \/ DICTIONARY_START <= j ->
                load (o_m o') j = load (o_m (typed " dup 1")) j) /\
     o_world o' = o_world (typed " dup 1")).
Proof.
  apply (forth_get_word_string lp64 (typed " dup 1")
           (bytes_of_string " dup 1") 0).
  - reflexivity.
  - vm_compute; discriminate.
  - split; [vm_compute; reflexivity|]. split; [vm_compute; reflexivity|].
    exists 1. split; [vm_compute; reflexivity|].
    split; [reflexivity | vm_compute; reflexivity].
  - vm_compute. split; discriminate.
  - apply (c_string_check (bytes_of_string " dup 1")). reflexivity.
Defined.

(** ** Saving an image and loading it again *)

Lemma le_value_le_bytes (n : nat) :
  forall x, le_value (le_bytes n x) = x mod 256 ^ Z.of_nat n.
Proof.
  induction n as [|n IH]; intros x.
  - cbn. now rewrite Z.mod_1_r.
  - cbn [le_bytes le_value]. rewrite IH.
    rewrite Nat2Z.inj_succ, Z.pow_succ_r by lia.
    rewrite Z.rem_mul_r by lia. reflexivity.
Qed.

Lemma length_le_bytes (n : nat) : forall x, length (le_bytes n x) = n.
Proof. induction n; intros x; cbn; [reflexivity | now rewrite IHn]. Qed.

Lemma length_host_bytes (P : platform) (n : nat) (x : Z) :
  length (host_bytes P n x) = n.
Proof.
  unfold host_bytes. destruct (big_endian P);
    [rewrite length_rev|]; apply length_le_bytes.
Qed.

Lemma host_value_host_bytes (P : platform) (n : nat) (x : Z) :
  host_value P (host_bytes P n x) = x mod 256 ^ Z.of_nat n.
Proof.
  unfold host_value, host_bytes. destruct (big_endian P);
    [rewrite rev_involutive|]; apply le_value_le_bytes.
Qed.

Lemma length_flat_map_host_bytes (P : platform) (n : nat) (l : list Z) :
  length (flat_map (host_bytes P n) l) = (n * length l)%nat.
Proof.
  induction l as [|c l IH]; cbn [flat_map length]; [lia|].
  rewrite length_app, length_host_bytes, IH. lia.
Qed.

(** The cells read back from the bytes the cells were written as. *)
Lemma cells_of_bytes_flat_map (P : platform) (l : list Z) :
  0 < cell_bytes P ->
  cells P l ->
  cells_of_bytes P (length l)
    (flat_map (host_bytes P (Z.to_nat (cell_bytes P))) l) = l.
Proof.
  intros HW. induction l as [|c l IH]; intros Hc; [reflexivity|].
  apply Forall_cons in Hc as [Hc Hl].
  cbn [length cells_of_bytes flat_map].
  change (@firstn Z) with (@take Z). change (@skipn Z) with (@drop Z).
  rewrite take_app_length' by now rewrite length_host_bytes.
  rewrite drop_app_length' by now rewrite length_host_bytes.
  rewrite host_value_host_bytes, IH by assumption.
  f_equal. rewrite Z2Nat.id by lia.
  unfold cell_bits in Hc. rewrite Z.pow_mul_r in Hc by lia.
  now apply Z.mod_small.
Qed.

Lemma memcmp_refl (l : list Z) :
  forallb (fun '(x, y) => x =? y) (combine l l) = true.
Proof. induction l as [|a l IH]; cbn; [|rewrite Z.eqb_refl]; auto. Qed.

(** The three parts of an image. *)
Lemma core_image_parts (P : platform) (o : forth) :
  length (o_header o) = 8%nat ->
  firstn 8 (core_image P o) = o_header o /\
  firstn 8 (skipn 8 (core_image P o))
    = host_bytes P 8 (uint64 (core_size o)) /\
  skipn 16 (core_image P o)
    = flat_map (host_bytes P (Z.to_nat (cell_bytes P)))
        (firstn (Z.to_nat (uint64 (core_size o))) (o_m o)).
Proof.
  intros Hh. unfold core_image.
  change (@firstn Z) with (@take Z). change (@skipn Z) with (@drop Z).
  split; [now apply take_app_length'|].
  rewrite drop_app_length' by now rewrite Hh.
  split; [apply take_app_length'; now rewrite length_host_bytes|].
  change 16%nat with (8 + 8)%nat. rewrite <- drop_drop.
  rewrite drop_app_length' by now rewrite Hh.
  apply drop_app_length'. now rewrite length_host_bytes.
Qed.

(** Loading the image of [o]: the checks pass, and the cells read back
    are those of [o]. *)
Lemma load_core_image (P : platform) (o : forth) (w : world) :
  0 < cell_bytes P ->
  o_header o = make_header P ->
  Z.of_nat (length (o_m o)) = core_size o ->
  MINIMUM_CORE_SIZE P <= core_size o ->
  cell_bytes P * core_size o < 2 ^ 64 ->
  can_alloc P (uint64 (sizeof_forth P + cell_bytes P * core_size o)) = true ->
  cells P (o_m o) ->
  forth_load_core P (core_image P o) w
    = Some (forth_make_default P (core_size o) (c_stdin P) (c_stdout P)
              (loaded P o w)).
Proof.
  intros HW Hh Hlen Hmin Hsz Hal Hc.
  assert (Hcs : 0 <= core_size o < 2 ^ 64) by nia.
  assert (Hu : uint64 (core_size o) = core_size o)
    by (apply Z.mod_small; assumption).
  assert (Hh8 : length (o_header o) = 8%nat)
    by (rewrite Hh; apply length_make_header).
  destruct (core_image_parts P o Hh8) as (H1 & H2 & H3).
  rewrite Hu in H2, H3.
  rewrite firstn_all2 in H3 by lia.
  unfold forth_load_core. cbv zeta.
  rewrite H1, H2, H3, Hh8, length_host_bytes.
  rewrite <- Hh at 1. rewrite memcmp_refl.
  rewrite host_value_host_bytes.
  assert (Hm : core_size o mod 256 ^ Z.of_nat 8 = core_size o)
    by (apply Z.mod_small; exact Hcs).
  rewrite Hm.
  assert (Hw : uint64 (cell_bytes P * core_size o)
               = cell_bytes P * core_size o)
    by (apply Z.mod_small; nia).
  rewrite Hw, Hal.
  rewrite (ltb_f (core_size o)) by assumption.
  rewrite firstn_all2
    by (rewrite length_flat_map_host_bytes; nia).
  rewrite length_flat_map_host_bytes.
  rewrite (eqb_t (Z.of_nat 8)) by reflexivity.
  rewrite eqb_t by nia. cbn [negb orb].
  replace (cell_bytes P * core_size o / cell_bytes P) with (core_size o)
    by (rewrite Z.mul_comm, Z.div_mul; lia).
  replace (Z.to_nat (core_size o)) with (length (o_m o)) by lia.
  rewrite cells_of_bytes_flat_map by assumption.
  reflexivity.
Qed.

(** Running a sequence of register writes. *)
Ltac crunch Hfin :=
  repeat first
    [ progress cbn [o_m o_header core_size o_S o_world]
    | rewrite store_in_range by (msimpl; rewrite ?length_insert; lia)
    | rewrite load_insert_eq by (msimpl; rewrite ?length_insert; lia)
    | rewrite load_insert_ne by lia
    | rewrite eqb_f by exact Hfin
    | progress cbn [negb]
    | progress mrun ].

(** What [forth_make_default] resets, and what it keeps. *)
Lemma forth_make_default_spec (P : platform) (size fin fout : Z)
    (o : forth) :
  START_TIME < Z.of_nat (length (o_m o)) ->
  fin <> 0 ->
  let ss := if size / 64 >? 64 then size / 64 else 64 in
  exists o',
    forth_make_default P size fin fout o = Ok tt o' /\
    o_header o' = o_header o /\
    core_size o' = size /\
    length (o_m o') = length (o_m o) /\
    o_S o' = size - cell P (2 * ss) /\
    load (o_m o') STACK_SIZE = Some ss /\
    load (o_m o') RSTK = Some (cell P (size - ss)) /\
    load (o_m o') SOURCE_ID = Some FILE_IN /\
    load (o_m o') FIN = Some fin /\
    load (o_m o') FOUT = Some fout /\
    (forall j, j <> RSTK -> j <> SOURCE_ID -> j < START_ADDR \/ ARGV < j ->
               j <> STACK_SIZE -> j <> START_TIME ->
               load (o_m o') j = load (o_m o) j).
Proof.
  intros Hlen Hfin ss.
  unfold START_TIME, STACK_SIZE, RSTK, SOURCE_ID, FIN, FOUT, START_ADDR,
    ARGV in *.
  unfold forth_make_default, forth_set_file_input, clock.
  unfold STACK_SIZE, FOUT, START_ADDR, STDIN, STDOUT, STDERR, RSTK,
    START_TIME, ARGV, ARGC, SOURCE_ID, FIN, FILE_IN.
  mrun. fold ss.
  crunch Hfin.
  destruct (w_clock (o_world o)) as [|t ts]; crunch Hfin;
    (eexists; split; [reflexivity|]);
    repeat first
      [ progress cbn [o_m o_header core_size o_S o_world set_S set_m]
      | progress msimpl ];
    rewrite ?length_insert;
    repeat (split; [first [reflexivity | now mem]|]);
    intros j H1 H2 H3 H4 H5; now mem.
Qed.

(** X13. Save and load round trip.  For an instance with the header of the
    host, [forth_load_core] accepts the image [forth_save_core] writes and
    returns an instance of the same size whose memory holds the cells of
    the saved one: the dictionary, both stacks and the registers DIC, PWD,
    STATE, BASE, INVALID, TOP and INSTRUCTION among them.  Only the
    registers [forth_make_default] sets are replaced: input comes from
    [stdin] again, and RSTK and the stack pointer [S] are back at the
    bases of their stacks. *)
Theorem forth_load_saved_core (P : platform) (o : forth) (w : world) :
  0 < cell_bytes P ->
  c_stdin P <> 0 ->
  o_header o = make_header P ->
  Z.of_nat (length (o_m o)) = core_size o ->
  START_TIME < core_size o ->
  MINIMUM_CORE_SIZE P <= core_size o ->
  cell_bytes P * core_size o < 2 ^ 64 ->
  can_alloc P (uint64 (sizeof_forth P + cell_bytes P * core_size o)) = true ->
  cells P (o_m o) ->
  let ss := if core_size o / 64 >? 64 then core_size o / 64 else 64 in
  exists o',
    forth_load_core P (core_image P o) w = Some (Ok tt o') /\
    o_header o' = o_header o /\
    core_size o' = core_size o /\
    length (o_m o') = length (o_m o) /\
    o_S o' = core_size o - cell P (2 * ss) /\
    load (o_m o') STACK_SIZE = Some ss /\
    load (o_m o') RSTK = Some (cell P (core_size o - ss)) /\
    load (o_m o') SOURCE_ID = Some FILE_IN /\
    load (o_m o') FIN = Some (c_stdin P) /\
    load (o_m o') FOUT = Some (c_stdout P) /\
    (forall j, j <> RSTK -> j <> SOURCE_ID -> j < START_ADDR \/ ARGV < j ->
               j <> STACK_SIZE -> j <> START_TIME ->
               load (o_m o') j = load (o_m o) j).
Proof.
  intros HW Hin Hh Hlen Hst Hmin Hsz Hal Hc ss.
  rewrite (load_core_image P o w) by assumption.
  destruct (forth_make_default_spec P (core_size o) (c_stdin P) (c_stdout P)
              (loaded P o w)) as (o' & Hd & Hrest); [cbn; lia | assumption|].
  exists o'. now rewrite Hd.
Qed.

Lemma cells_check (P : platform) (m : list Z) :
  forallb (fun c => (0 <=? c) && (c <? 2 ^ cell_bits P)) m = true ->
  cells P m.
Proof.
  unfold cells. induction m as [|c m IH]; intros H; [constructor|].
  cbn [forallb] in H. apply andb_prop in H as [Hb Hs].
  constructor; [lia | auto].
Qed.

(** The bootstrapped instance, saved and loaded on the host [lp64]. *)
Lemma forth_load_saved_core_witness :
  let ss := if core_size booted / 64 >? 64 then core_size booted / 64
            else 64 in
  exists o',
    forth_load_core lp64 (core_image lp64 booted) world0 = Some (Ok tt o') /\
    o_header o' = o_header booted /\
    core_size o' = core_size booted /\
    length (o_m o') = length (o_m booted) /\
    o_S o' = core_size booted - cell lp64 (2 * ss) /\
    load (o_m o') STACK_SIZE = Some ss /\
    load (o_m o') RSTK = Some (cell lp64 (core_size booted - ss)) /\
    load (o_m o') SOURCE_ID = Some FILE_IN /\
    load (o_m o') FIN = Some (c_stdin lp64) /\
    load (o_m o') FOUT = Some (c_stdout lp64) /\
    (forall j, j <> RSTK -> j <> SOURCE_ID -> j < START_ADDR \/ ARGV < j ->
               j <> STACK_SIZE -> j <> START_TIME ->
               load (o_m o') j = load (o_m booted) j).
Proof.
  apply (forth_load_saved_core lp64 booted world0).
  - reflexivity.
  - vm_compute; discriminate.
  - vm_compute; reflexivity.
  - vm_compute; reflexivity.
  - vm_compute; reflexivity.
  - vm_compute; discriminate.
  - vm_compute; reflexivity.
  - vm_compute; reflexivity.
  - apply cells_check. vm_compute; reflexivity.
Defined.

(** X14. [forth_save_core] writes the header, the size as eight bytes and
    the cells, as far as the stream takes them, and returns 0 exactly when
    the stream took all [16 + sizeof(forth_cell_t) * core_size] bytes; a
    short write gives -1.  The instance itself is not changed. *)
Theorem forth_save_core_spec (P : platform) (dump room : Z) (o : forth) :
  0 < cell_bytes P ->
  dump <> 0 ->
  length (o_header o) = 8%nat ->
  Z.of_nat (length (o_m o)) = core_size o ->
  cell_bytes P * core_size o + 9 < 2 ^ 64 ->
  exists o',
    forth_save_core P dump room o
      = Ok (if 16 + cell_bytes P * core_size o <=? room then 0 else -1) o' /\
    o_m o' = o_m o /\ o_S o' = o_S o /\ core_size o' = core_size o /\
    w_output (o_world o')
      = w_output (o_world o)
          ++ [(dump, firstn (Z.to_nat room) (core_image P o))] /\
    Z.of_nat (length (core_image P o)) = 16 + cell_bytes P * core_size o.
Proof.
  intros HW Hd Hh Hlen Hsz.
  assert (Hcs : 0 <= core_size o < 2 ^ 64) by nia.
  assert (Hu : uint64 (core_size o) = core_size o)
    by (apply Z.mod_small; assumption).
  unfold forth_save_core, fput. mrun.
  rewrite eqb_f by assumption. cbn [negb]. msimpl.
  rewrite Hu. rewrite ltb_f by lia.
  set (n := cell_bytes P * core_size o) in *.
  assert (Hn : 0 <= n) by (subst n; nia).
  assert (Hrc : negb (uint64 (Z.min 8 (Z.max room 0)
                               + (if 16 <=? room then 1 else 0)
                               + Z.min (uint64 n) (Z.max (room - 16) 0))
                      =? uint64 (8 + 1 + n))
                = negb (16 + n <=? room)).
  { unfold uint64.
    rewrite (Z.mod_small n) by lia.
    rewrite (Z.mod_small (8 + 1 + n)) by lia.
    destruct (Z.leb_spec 16 room), (Z.leb_spec (16 + n) room);
      rewrite Z.mod_small by lia;
      match goal with
      | |- context [?a =? ?b] => destruct (Z.eqb_spec a b)
      end; cbn [negb]; first [reflexivity | lia]. }
  rewrite Hrc.
  eexists. split.
  { destruct (16 + n <=? room); reflexivity. }
  split; [reflexivity|]. split; [reflexivity|]. split; [reflexivity|].
  split.
  - cbn. unfold core_image. now rewrite Hu.
  - unfold core_image. rewrite Hu, firstn_all2 by lia.
    rewrite !length_app, length_host_bytes, length_flat_map_host_bytes, Hh.
    subst n. nia.
Qed.

Lemma forth_save_core_spec_witness :
  exists o',
    forth_save_core lp64 5 100 blank
      = Ok (if 16 + cell_bytes lp64 * core_size blank <=? 100
            then 0 else -1) o' /\
    o_m o' = o_m blank /\ o_S o' = o_S blank /\
    core_size o' = core_size blank /\
    w_output (o_world o')
      = w_output (o_world blank)
          ++ [(5, firstn (Z.to_nat 100) (core_image lp64 blank))] /\
    Z.of_nat (length (core_image lp64 blank))
      = 16 + cell_bytes lp64 * core_size blank.
Proof.
  apply (forth_save_core_spec lp64 5 100 blank);
    first [reflexivity | vm_compute; first [discriminate | reflexivity]].
Defined.



(** ** Blocks *)

Lemma mem_byte_range (P : platform) (m : list Z) (a b : Z) :
  mem_byte P m a = Some b -> 0 <= b < 256.
Proof.
  unfold mem_byte. destruct (load m (a / cell_bytes P)); [|discriminate].
  intros [= <-]. change 255 with (Z.ones 8). rewrite Z.land_ones by lia.
  apply Z.mod_pos_bound. lia.
Qed.

Lemma rd_bytes_inv (P : platform) (n : nat) :
  forall a o bs o',
    rd_bytes P n a o = Ok bs o' ->
    o' = o /\ length bs = n /\
    (forall i, (i < n)%nat ->
       mem_byte P (o_m o) (a + Z.of_nat i) = bs !! i) /\
    Forall (fun b => 0 <= b < 256) bs.
Proof.
  induction n as [|n IH]; intros a o bs o' H.
  - cbn in H. injection H as <- <-. repeat split; [|constructor].
    intros i Hi. lia.
  - cbn [rd_bytes] in H. unfold bind in H. rewrite rd_byte_mem in H.
    destruct (mem_byte P (o_m o) a) as [b|] eqn:Eb; [|discriminate].
    destruct (rd_bytes P n (a + 1) o) as [r o1| | |] eqn:Er; try discriminate.
    injection H as <- <-.
    destruct (IH _ _ _ _ Er) as (-> & Hl & Hb & Hr).
    repeat split.
    + cbn. now rewrite Hl.
    + intros [|i] Hi.
      * now rewrite Z.add_0_r.
      * replace (a + Z.of_nat (S i)) with (a + 1 + Z.of_nat i) by lia.
        apply (Hb i). lia.
    + constructor; [now apply mem_byte_range in Eb | assumption].
Qed.

(** X16. A block saved and loaded again.  When the host takes the whole
    block, BSAVE's [blockio] writes the 1024 bytes at byte offset [p] to
    the block file without changing the memory, and BLOAD's [blockio] on
    the same block number copies them to byte offset [q]; both return 0,
    and no byte outside the 1024 at [q] changes. *)
Theorem blockio_save_load (P : platform) (o : forth) (p q id k : Z) :
  0 < cell_bytes P ->
  Z.of_nat (length (o_m o)) = core_size o ->
  BLOCK_SIZE <= core_size o * cell_bytes P < 2 ^ cell_bits P ->
  0 <= p <= core_size o * cell_bytes P - BLOCK_SIZE ->
  0 <= q <= core_size o * cell_bytes P - BLOCK_SIZE ->
  w_disk (o_world o) (block_name id) = Some k ->
  BLOCK_SIZE <= k ->
  exists o1 o2,
    blockio P p id 119 o = Ok 0 o1 /\
    o_m o1 = o_m o /\
    blockio P q id 114 o1 = Ok 0 o2 /\
    (forall i, 0 <= i < BLOCK_SIZE ->
       mem_byte P (o_m o2) (q + i) = mem_byte P (o_m o) (p + i)) /\
    (forall a, 0 <= a -> a < q \/ q + BLOCK_SIZE <= a ->
       mem_byte P (o_m o2) a = mem_byte P (o_m o) a).
Proof.
  intros HW Hlen Hsz Hp Hq Hk Hroom. unfold BLOCK_SIZE in *.
  destruct (rd_bytes_ok P (Z.to_nat 1024) HW p o)
    as (bs & Hrd & Hl); [lia | nia |].
  destruct (rd_bytes_inv P _ _ _ _ _ Hrd) as (_ & _ & Hb & Hr).
  assert (Hbs : Z.of_nat (length bs) = 1024) by (rewrite Hl; lia).
  assert (H1 : exists o1,
             blockio P p id 119 o = Ok 0 o1 /\ o_m o1 = o_m o /\
             core_size o1 = core_size o /\
             w_blocks (o_world o1) (block_name id) = Some bs).
  { unfold blockio, BLOCK_SIZE. unfold bind at 1. unfold get.
    rewrite (cell_small P (core_size o * cell_bytes P)) by lia.
    rewrite cell_small by lia.
    rewrite gtb_f by lia. cbn [Z.eqb Pos.eqb].
    rewrite Hk. unfold bind at 1. rewrite Hrd.
    rewrite Z.min_r by lia.
    replace (if file_buffered P then 1024 else 1024) with 1024
      by now destruct (file_buffered P).
    rewrite Z.eqb_refl.
    unfold write_block. mrun.
    eexists. split; [reflexivity|]. msimpl.
    split; [reflexivity|]. split; [reflexivity|].
    cbn [w_blocks]. rewrite String.eqb_refl.
    now rewrite firstn_all2 by lia. }
  destruct H1 as (o1 & H1 & Hm1 & Hc1 & Hblk).
  destruct (wr_bytes_spec P bs HW q o1) as (m' & Hwr & _ & Hw & Hfr & _);
    [lia | rewrite Hm1; nia | assumption |].
  rewrite Hm1 in Hfr.
  exists o1, (set_m o1 m'). split; [exact H1|]. split; [exact Hm1|].
  split.
  { unfold blockio, BLOCK_SIZE. unfold bind at 1. unfold get.
    rewrite Hc1.
    rewrite (cell_small P (core_size o * cell_bytes P)) by lia.
    rewrite cell_small by lia.
    rewrite gtb_f by lia. cbn [Z.eqb Pos.eqb].
    rewrite Hblk. rewrite !(firstn_all2 bs) by lia.
    unfold bind. rewrite Hwr. rewrite Hbs. reflexivity. }
  msimpl. split.
  - intros i Hi. replace i with (Z.of_nat (Z.to_nat i)) by lia.
    rewrite Hw by lia. rewrite <- Hb by lia. reflexivity.
  - intros a Ha Hout. apply Hfr; lia.
Qed.

(** The bootstrapped instance saves the block at byte 512 as block 7 and
    loads it at byte 4096. *)
Lemma blockio_save_load_witness :
  exists o1 o2,
    blockio lp64 512 7 119 (set_world booted (disk 4096)) = Ok 0 o1 /\
    o_m o1 = o_m (set_world booted (disk 4096)) /\
    blockio lp64 4096 7 114 o1 = Ok 0 o2 /\
    (forall i, 0 <= i < BLOCK_SIZE ->
       mem_byte lp64 (o_m o2) (4096 + i)
         = mem_byte lp64 (o_m (set_world booted (disk 4096))) (512 + i)) /\
    (forall a, 0 <= a -> a < 4096 \/ 4096 + BLOCK_SIZE <= a ->
       mem_byte lp64 (o_m o2) a
         = mem_byte lp64 (o_m (set_world booted (disk 4096))) a).
Proof.
  apply (blockio_save_load lp64 (set_world booted (disk 4096)) 512 4096 7
           4096);
    first [ reflexivity
          | vm_compute;
            first [ discriminate | reflexivity
                  | split; first [discriminate | reflexivity] ] ].
Defined.

(** ** What [forth_find] returns *)

Lemma rd_cstr_from_inv (P : platform) (n : nat) :
  forall a o s o', rd_cstr_from P n a o = Ok s o' -> o' = o.
Proof.
  induction n as [|n IH]; intros a o s o' H; [discriminate|].
  cbn [rd_cstr_from] in H. unfold bind in H. rewrite rd_byte_mem in H.
  destruct (mem_byte P (o_m o) a) as [b|]; [|discriminate].
  destruct (b =? 0); [now injection H|].
  destruct (rd_cstr_from P n (a + 1) o) as [r o1| | |] eqn:E;
    try discriminate.
  injection H as _ <-. now apply IH in E.
Qed.

Lemma rd_inv (i x : Z) (o o' : forth) :
  rd i o = Ok x o' -> o' = o /\ load (o_m o) i = Some x.
Proof.
  unfold rd. destruct (load (o_m o) i); [|discriminate].
  intros [= <- <-]. auto.
Qed.

(** The words [forth_find] may stop at. *)
Lemma find_loop_sound (P : platform) (s : list Z) (fuel : nat) :
  forall w len o r o',
    (exists x0, load (o_m o) (cell P (w + 1)) = Some x0 /\
                len = WORD_LENGTH x0) ->
    find_loop P fuel s w len o = Ok r o' ->
    o' = o /\
    (r <= DICTIONARY_START \/
     exists x name,
       load (o_m o) (cell P (r + 1)) = Some x /\ WORD_HIDDEN x = 0 /\
       rd_cstr P (cell P (r - WORD_LENGTH x) * cell_bytes P) o = Ok name o /\
       istrcmp s name = 0).
Proof.
  induction fuel as [|fuel IH]; intros w len o r o' Hlen H; [discriminate|].
  cbn [find_loop] in H.
  destruct (Z.gtb_spec w DICTIONARY_START) as [Hw|Hw].
  2:{ injection H as <- <-. split; [reflexivity | now left]. }
  unfold bind at 1 in H.
  destruct (rd (cell P (w + 1)) o) as [x o1| | |] eqn:Ex; try discriminate.
  apply rd_inv in Ex as [-> Hx].
  destruct Hlen as (x0 & Hx0 & ->). rewrite Hx in Hx0. injection Hx0 as <-.
  unfold bind at 1 in H.
  destruct (Z.eqb_spec (WORD_HIDDEN x) 0) as [Hh|Hh]; cbn [negb] in H.
  - unfold bind at 1 in H.
    destruct (rd_cstr P (cell P (w - WORD_LENGTH x) * cell_bytes P) o)
      as [name o1| | |] eqn:En; try discriminate.
    pose proof (rd_cstr_from_inv _ _ _ _ _ _ En) as ->.
    unfold ret at 1 in H.
    destruct (Z.eqb_spec (istrcmp s name) 0) as [Hs|Hs]; cbn [negb] in H.
    + injection H as <- <-. split; [reflexivity|]. right.
      exists x, name. auto.
    + unfold bind at 1 in H.
      destruct (rd w o) as [w' o1| | |] eqn:Ew; try discriminate.
      apply rd_inv in Ew as [-> _].
      unfold bind at 1 in H.
      destruct (rd (cell P (w' + 1)) o) as [x' o1| | |] eqn:Ex';
        try discriminate.
      apply rd_inv in Ex' as [-> Hx'].
      apply (IH _ _ _ _ _ (ex_intro _ x' (conj Hx' eq_refl)) H).
  - unfold ret at 1 in H. unfold bind at 1 in H.
    destruct (rd w o) as [w' o1| | |] eqn:Ew; try discriminate.
    apply rd_inv in Ew as [-> _].
    unfold bind at 1 in H.
    destruct (rd (cell P (w' + 1)) o) as [x' o1| | |] eqn:Ex';
      try discriminate.
    apply rd_inv in Ex' as [-> Hx'].
    apply (IH _ _ _ _ _ (ex_intro _ x' (conj Hx' eq_refl)) H).
Qed.

(** X17. [forth_find] never returns a hidden word or a word of another
    name.  It does not change the instance, and its result is either 0 or
    [w + 1] for a dictionary entry [w] above [DICTIONARY_START] whose MISC
    cell [m[w + 1]] has the hidden bit clear and whose name, the C string
    [WORD_LENGTH(m[w + 1])] cells below [w], compares equal to the one
    looked for under [istrcmp]. *)
Theorem forth_find_sound (P : platform) (s : list Z) (o o' : forth)
    (r : Z) :
  forth_find P s o = Ok r o' ->
  o' = o /\
  (r = 0 \/
   exists w x name,
     r = cell P (w + 1) /\ DICTIONARY_START < w /\
     load (o_m o) (cell P (w + 1)) = Some x /\ WORD_HIDDEN x = 0 /\
     rd_cstr P (cell P (w - WORD_LENGTH x) * cell_bytes P) o = Ok name o /\
     istrcmp s name = 0).
Proof.
  unfold forth_find. intros H.
  unfold bind at 1 in H.
  destruct (rd PWD o) as [w o1| | |] eqn:Ew; try discriminate.
  apply rd_inv in Ew as [-> _].
  unfold bind at 1 in H.
  destruct (rd (cell P (w + 1)) o) as [x o1| | |] eqn:Ex; try discriminate.
  apply rd_inv in Ex as [-> Hx].
  unfold bind at 1 in H. unfold get in H. unfold bind at 1 in H.
  destruct (find_loop P (S (length (o_m o))) s w (WORD_LENGTH x) o)
    as [r' o1| | |] eqn:El; try discriminate.
  apply find_loop_sound in El as [-> Hr]; [|eauto].
  unfold ret in H. injection H as <- <-. split; [reflexivity|].
  destruct (Z.gtb_spec r' DICTIONARY_START) as [Hgt|Hle]; [|now left].
  right. destruct Hr as [Hr|(x' & name & Hx' & Hh & Hn & Hs)]; [lia|].
  exists r', x', name. auto 10.
Qed.

(** Looking up [DROP] in the bootstrapped dictionary. *)
Lemma forth_find_sound_witness :
  booted = booted /\
  (191 = 0 \/
   exists w x name,
     191 = cell lp64 (w + 1) /\ DICTIONARY_START < w /\
     load (o_m booted) (cell lp64 (w + 1)) = Some x /\ WORD_HIDDEN x = 0 /\
     rd_cstr lp64 (cell lp64 (w - WORD_LENGTH x) * cell_bytes lp64) booted
       = Ok name booted /\
     istrcmp (bytes_of_string "DROP") name = 0).
Proof.
  apply (forth_find_sound lp64 (bytes_of_string "DROP") booted booted 191).
  vm_compute. reflexivity.
Defined.

(** ** The host side of the data stack *)

(** X18. The host sees a stack: of two values pushed with [forth_push],
    [forth_pop] returns the second first and the first second, after which
    [o->S] and [m[TOP]] are as before the pushes, and in the memory only
    the two stack cells used may differ. *)
Theorem forth_push_pop_lifo (o : forth) (x y : Z) :
  Z.of_nat (length (o_m o)) = core_size o ->
  START_TIME <= o_S o ->
  o_S o + 2 < core_size o ->
  exists o',
    (forth_push x ;;; forth_push y ;;;
     a <- forth_pop ;; b <- forth_pop ;; ret (a, b)) o = Ok (y, x) o' /\
    o_S o' = o_S o /\
    load (o_m o') TOP = load (o_m o) TOP /\
    (forall j, j <> o_S o + 1 -> j <> o_S o + 2 ->
               load (o_m o') j = load (o_m o) j).
Proof.
  intros Hlen HS Hroom. unfold START_TIME, TOP in *.
  destruct (load_in_range (o_m o) 25) as [top Htop]; [lia|].
  unfold forth_push, forth_pop, TOP. mrun.
  rewrite ltb_t by lia. rewrite Htop. msimpl.
  repeat first
    [ progress cbn [o_m o_header core_size o_S o_world]
    | rewrite store_in_range by (msimpl; rewrite ?length_insert; lia)
    | rewrite load_insert_eq by (msimpl; rewrite ?length_insert; lia)
    | rewrite load_insert_ne by lia
    | rewrite ltb_t by lia
    | rewrite gtb_t by lia
    | progress mrun ].
  replace (o_S o + 1 + 1 - 1) with (o_S o + 1) by lia.
  repeat first
    [ progress cbn [o_m o_header core_size o_S o_world]
    | rewrite store_in_range by (msimpl; rewrite ?length_insert; lia)
    | rewrite load_insert_eq by (msimpl; rewrite ?length_insert; lia)
    | rewrite load_insert_ne by lia
    | rewrite ltb_t by lia
    | rewrite gtb_t by lia
    | progress mrun ].
  eexists. split; [reflexivity|].
  repeat first
    [ progress cbn [o_m o_header core_size o_S o_world set_S set_m]
    | progress msimpl ].
  split; [lia|]. split.
  - now rewrite load_insert_eq by (rewrite ?length_insert; lia).
  - intros j H1 H2. destruct (Z.eq_dec j 25) as [->|H25].
    + rewrite load_insert_eq by (rewrite ?length_insert; lia).
      now rewrite Htop.
    + now rewrite !load_insert_ne by lia.
Qed.

Lemma forth_push_pop_lifo_witness :
  exists o',
    (forth_push 7 ;;; forth_push 9 ;;;
     a <- forth_pop ;; b <- forth_pop ;; ret (a, b)) blank = Ok (9, 7) o' /\
    o_S o' = o_S blank /\
    load (o_m o') TOP = load (o_m blank) TOP /\
    (forall j, j <> o_S blank + 1 -> j <> o_S blank + 2 ->
               load (o_m o') j = load (o_m blank) j).
Proof.
  apply (forth_push_pop_lifo blank 7 9);
    first [reflexivity | vm_compute; first [discriminate | reflexivity]].
Defined.

(** X19. [forth_stack_position] counts the pushes: after a [forth_push] it
    returns one more (as a cell) than it returned before. *)
Theorem forth_stack_position_push (P : platform) (o : forth) (x d : Z) :
  Z.of_nat (length (o_m o)) = core_size o ->
  START_TIME <= o_S o ->
  o_S o + 1 < core_size o ->
  forth_stack_position P o = Ok d o ->
  exists o',
    (forth_push x ;;; forth_stack_position P) o = Ok (cell P (d + 1)) o'.
Proof.
  intros Hlen HS Hroom Hd. unfold START_TIME in *.
  destruct (load_in_range (o_m o) TOP) as [top Htop]; [unfold TOP; lia|].
  unfold forth_stack_position in *. unfold STACK_SIZE, TOP in *.
  unfold bind at 1 in Hd. unfold get in Hd. unfold bind at 1 in Hd.
  destruct (rd 27 o) as [ss o1| | |] eqn:Ess; try discriminate.
  apply rd_inv in Ess as [-> Hss]. unfold ret in Hd. injection Hd as <-.
  unfold forth_push, TOP. mrun.
  rewrite ltb_t by lia. rewrite Htop. msimpl.
  repeat first
    [ progress cbn [o_m o_header core_size o_S o_world]
    | rewrite store_in_range by (msimpl; rewrite ?length_insert; lia)
    | rewrite load_insert_eq by (msimpl; rewrite ?length_insert; lia)
    | rewrite load_insert_ne by lia
    | progress mrun ].
  rewrite Hss. eexists. f_equal. unfold cell.
  rewrite Zplus_mod_idemp_l. f_equal. lia.
Qed.

Lemma forth_stack_position_push_witness :
  exists o',
    (forth_push 7 ;;; forth_stack_position lp64) blank
      = Ok (cell lp64 (0 + 1)) o'.
Proof.
  apply (forth_stack_position_push lp64 blank 7 0);
    first [reflexivity | vm_compute; first [discriminate | reflexivity]].
Defined.

(** X20. [forth_make_default] empties the data stack: whatever the
    instance held, right after it [forth_stack_position] returns 0.  So
    an instance from [forth_load_core] starts with an empty stack, the
    cells of the saved stack still being in its memory. *)
Theorem forth_make_default_empty_stack (P : platform) (size fin fout : Z)
    (o : forth) :
  START_TIME < Z.of_nat (length (o_m o)) ->
  fin <> 0 ->
  exists o',
    forth_make_default P size fin fout o = Ok tt o' /\
    forth_stack_position P o' = Ok 0 o'.
Proof.
  intros Hlen Hfin.
  destruct (forth_make_default_spec P size fin fout o Hlen Hfin)
    as (o' & Hd & _ & Hsz & _ & HS & Hss & _).
  exists o'. split; [assumption|].
  unfold forth_stack_position. mrun. rewrite Hss, HS, Hsz.
  rewrite Z.sub_diag. reflexivity.
Qed.

Lemma forth_make_default_empty_stack_witness :
  exists o',
    forth_make_default lp64 128 1000 1001 running.(obj) = Ok tt o' /\
    forth_stack_position lp64 o' = Ok 0 o'.
Proof.
  apply (forth_make_default_empty_stack lp64 128 1000 1001 running.(obj));
    vm_compute; first [discriminate | reflexivity].
Defined.

(** ** Memory access from Forth *)

(** X21. STORE and LOAD agree.  STORE with the address [a] in [f] writes
    the cell under it to [m[a]] and drops both; no other cell changes, and
    a LOAD with [a] in [f] then reads the value stored.  The new top of
    stack is read after the write, so it is the stored value itself when
    [a] is the address of that stack cell. *)
Theorem exec_STORE_LOAD (P : platform) (v : vm) (x y : Z) :
  Z.of_nat (length (o_m (obj v))) = core_size (obj v) ->
  DEBUG < core_size (obj v) ->
  0 <= r_f v < core_size (obj v) ->
  load (o_m (obj v)) (r_S v) = Some x ->
  load (o_m (obj v)) (r_S v - 1) = Some y ->
  exists v1 v2,
    exec P STORE v = Ok LOOP v1 /\
    r_S v1 = r_S v - 2 /\
    r_f v1 = (if r_f v =? r_S v - 1 then x else y) /\
    load (o_m (obj v1)) (r_f v) = Some x /\
    (forall j, j <> r_f v -> load (o_m (obj v1)) j = load (o_m (obj v)) j) /\
    exec P LOAD (with_f v1 (r_f v)) = Ok LOOP v2 /\
    r_f v2 = x /\ r_S v2 = r_S v1 /\ o_m (obj v2) = o_m (obj v1).
Proof.
  intros Hlen Hd Hf Hx Hy. unfold DEBUG in *.
  pose proof (load_inv _ _ _ Hy) as HyR.
  unfold exec. mrun.
  rewrite ck_pass by (unfold DEBUG; mem; lia). mem.
  rewrite Hx. mem.
  assert (Hy' : load (<[Z.to_nat (r_f v) := x]> (o_m (obj v))) (r_S v - 1)
                = Some (if r_f v =? r_S v - 1 then x else y)).
  { destruct (Z.eqb_spec (r_f v) (r_S v - 1)) as [E|E].
    - rewrite <- E. apply load_insert_eq. lia.
    - rewrite load_insert_ne by lia. assumption. }
  rewrite Hy'. msimpl.
  eexists _, _. split; [reflexivity|]. mem.
  split; [lia|]. split; [reflexivity|]. split; [reflexivity|].
  split; [intros j Hj; now mem|].
  rewrite ck_pass by (unfold DEBUG; mem; lia). mem.
  split; [reflexivity|]. mem. auto.
Qed.

Lemma exec_STORE_LOAD_witness :
  exists v1 v2,
    exec lp64 STORE (with_f running 70) = Ok LOOP v1 /\
    r_S v1 = r_S (with_f running 70) - 2 /\
    r_f v1 = (if r_f (with_f running 70) =? r_S (with_f running 70) - 1
              then 42 else 0) /\
    load (o_m (obj v1)) (r_f (with_f running 70)) = Some 42 /\
    (forall j, j <> r_f (with_f running 70) ->
       load (o_m (obj v1)) j = load (o_m (obj (with_f running 70))) j) /\
    exec lp64 LOAD (with_f v1 (r_f (with_f running 70))) = Ok LOOP v2 /\
    r_f v2 = 42 /\ r_S v2 = r_S v1 /\ o_m (obj v2) = o_m (obj v1).
Proof.
  apply (exec_STORE_LOAD lp64 (with_f running 70) 42 0);
    first [ reflexivity
          | vm_compute;
            first [ discriminate | reflexivity
                  | split; first [discriminate | reflexivity] ] ].
Defined.

(** ** A thread of one literal *)

(** X22. The inner interpreter on the shortest thread that does
    something.  When the instruction pointer names a PUSH cell followed by
    a literal and then a zero cell, [forth_run] fetches the word, executes
    PUSH, which takes the literal from the thread, meets the zero and
    returns 0, having saved the locals: the old top of stack went to the
    stack cell above [S], TOP holds the literal, [o->S] is one higher, and
    nothing else changed. *)
Theorem forth_run_literal (P : platform) (n : nat) (o : forth)
    (I pc x lit top : Z) :
  Z.of_nat (length (o_m o)) = core_size o ->
  core_size o < 2 ^ cell_bits P ->
  load (o_m o) INVALID = Some 0 ->
  load (o_m o) DEBUG = Some 0 ->
  load (o_m o) INSTRUCTION = Some I ->
  load (o_m o) TOP = Some top ->
  START_TIME < o_S o -> o_S o + 1 < core_size o ->
  load (o_m o) I = Some pc -> pc <> 0 ->
  load (o_m o) pc = Some x ->
  decode (instruction x) = Some PUSH ->
  load (o_m o) (I + 1) = Some lit ->
  load (o_m o) (I + 2) = Some 0 ->
  o_S o + 1 <> I + 1 -> o_S o + 1 <> I + 2 ->
  exists o',
    forth_run P (S (S (S n))) o = Ok 0 o' /\
    o_S o' = o_S o + 1 /\
    load (o_m o') TOP = Some lit /\
    load (o_m o') (o_S o + 1) = Some top /\
    (forall j, j <> TOP -> j <> o_S o + 1 ->
               load (o_m o') j = load (o_m o) j) /\
    o_world o' = o_world o.
Proof.
  intros Hlen Hsz Hinv Hdbg HI Htop HS HS1 Hpc Hnz Hx Hdec Hlit Hend H1 H2.
  pose proof (load_inv _ _ _ Hpc) as HIr.
  pose proof (load_inv _ _ _ Hx) as Hpcr.
  pose proof (load_inv _ _ _ Hend) as HI2.
  unfold START_TIME, INVALID, DEBUG, INSTRUCTION, TOP in *.
  assert (Hrun : exists v',
             run P (S (S (S n))) LOOP (enter o I top) = GotoEnd v' /\
             obj v' = set_m o (<[Z.to_nat (o_S o + 1) := top]> (o_m o)) /\
             r_S v' = o_S o + 1 /\ r_f v' = lit).
  { cbn [run step]. unfold fetch, enter. mrun. locals.
    rewrite ck_pass by (unfold DEBUG; locals; lia). locals.
    rewrite debugged_off by assumption. mrun. locals. rewrite Hpc. locals.
    rewrite eqb_f by assumption. locals.
    cbn [step]. unfold inner. mrun. locals.
    rewrite gtb_t, ltb_t by lia. cbn [andb]. locals.
    rewrite ck_pass by (unfold DEBUG; locals; lia). locals.
    rewrite debugged_off by assumption. mrun. locals.
    rewrite Hx, Hdec. unfold exec. mrun. locals.
    rewrite store_in_range by lia. locals.
    rewrite (cell_small P (I + 1)) by lia.
    rewrite ck_pass by (unfold DEBUG; locals; rewrite ?length_insert; lia).
    locals.
    rewrite debugged_off
      by (unfold DEBUG; locals; rewrite load_insert_ne by lia; assumption).
    mrun. locals.
    rewrite (load_insert_ne _ _ (I + 1)) by lia. rewrite Hlit. locals.
    cbn [step]. unfold fetch. mrun. locals.
    rewrite (cell_small P (I + 1 + 1)) by lia.
    rewrite ck_pass by (unfold DEBUG; locals; rewrite ?length_insert; lia).
    locals.
    rewrite debugged_off
      by (unfold DEBUG; locals; rewrite load_insert_ne by lia; assumption).
    mrun. locals.
    replace (I + 1 + 1) with (I + 2) by lia.
    rewrite (load_insert_ne _ _ (I + 2)) by lia. rewrite Hend. locals.
    cbn [Z.eqb]. eexists. split; [reflexivity|]. locals. auto. }
  destruct Hrun as (v' & Hrun & Hobj & HrS & Hrf).
  unfold forth_run, INVALID, INSTRUCTION, TOP. mrun.
  rewrite Hinv. cbn [Z.eqb negb]. rewrite HI, Htop, Hrun.
  rewrite Hobj, HrS, Hrf. msimpl.
  cbn [o_m set_S]. msimpl.
  rewrite store_in_range by (rewrite ?length_insert; lia).
  eexists. split; [reflexivity|].
  cbn [o_m o_S o_world set_S set_m]. msimpl.
  split; [reflexivity|].
  split; [now rewrite load_insert_eq by (rewrite ?length_insert; lia)|].
  split.
  { rewrite load_insert_ne by lia.
    now rewrite load_insert_eq by lia. }
  split; [|reflexivity].
  intros j Hj1 Hj2. now rewrite !load_insert_ne by lia.
Qed.

Lemma forth_run_literal_witness :
  exists o',
    forth_run lp64 3 (at_literal 5) = Ok 0 o' /\
    o_S o' = o_S (at_literal 5) + 1 /\
    load (o_m o') TOP = Some 5 /\
    load (o_m o') (o_S (at_literal 5) + 1) = Some 9 /\
    (forall j, j <> TOP -> j <> o_S (at_literal 5) + 1 ->
               load (o_m o') j = load (o_m (at_literal 5)) j) /\
    o_world o' = o_world (at_literal 5).
Proof.
  apply (forth_run_literal lp64 0 (at_literal 5) 70 80 0 5 9);
    first [ reflexivity | vm_compute; first [discriminate | reflexivity] ].
Defined.

(** ** C7: block input and output *)

(** [blockio] always returns, with 0 or -1, and this is what it has done
    by then. *)
Lemma blockio_effect (P : platform) (o : forth) (poffset id rw : Z) :
  0 < cell_bytes P ->
  Z.of_nat (length (o_m o)) = core_size o ->
  BLOCK_SIZE <= core_size o * cell_bytes P < 2 ^ cell_bits P ->
  0 <= poffset ->
  exists rc o',
    blockio P poffset id rw o = Ok rc o' /\
    (rc = 0 \/ rc = -1) /\
    (core_size o * cell_bytes P - BLOCK_SIZE < poffset -> rc = -1 /\ o' = o) /\
    (poffset <= core_size o * cell_bytes P - BLOCK_SIZE ->
     (rc = 0 <-> reported P o id rw = true) /\
     (rw <> 114 -> block_written P o o' poffset (block_name id)) /\
     (rw = 114 -> block_read P o o' poffset (block_name id))).
Proof.
  intros HW Hlen Hsz Hp. unfold BLOCK_SIZE in *.
  unfold blockio, reported, block_written, block_read, BLOCK_SIZE.
  unfold bind at 1. unfold get.
  rewrite (cell_small P (core_size o * cell_bytes P)) by lia.
  rewrite cell_small by lia.
  destruct (Z.gtb_spec poffset (core_size o * cell_bytes P - 1024))
    as [Hgt|Hle].
  { exists (-1), o. unfold ret. repeat split; auto; lia. }
  destruct (Z.eqb_spec rw 114) as [Hr|Hr].
  - destruct (w_blocks (o_world o) (block_name id)) as [data|].
    + set (got := firstn (Z.to_nat 1024) data).
      assert (Hgot : Z.of_nat (length got) <= 1024)
        by (subst got; rewrite length_firstn; lia).
      destruct (wr_bytes_frame P got HW poffset o)
        as (m' & Hwr & _); [lia | nia |].
      unfold bind. rewrite Hwr. unfold ret.
      exists (if Z.of_nat (length got) =? 1024 then 0 else -1), (set_m o m').
      split; [reflexivity|].
      split; [destruct (_ =? 1024); auto|].
      split; [intros; lia|]. intros _. split; [|split].
      * subst got. rewrite length_firstn.
        destruct (Z.leb_spec 1024 (Z.of_nat (length data)));
          [rewrite eqb_t by lia | rewrite eqb_f by lia];
          split; first [reflexivity | discriminate | lia].
      * intros; contradiction.
      * intros _ Hbytes.
        assert (Hgb : Forall (fun b => 0 <= b < 256) got)
          by (subst got; now apply Forall_take).
        destruct (wr_bytes_spec P got HW poffset o)
          as (m2 & Hwr2 & _ & Hw & Hfr & _); [lia | nia | assumption |].
        rewrite Hwr in Hwr2. apply set_m_inj in Hwr2. subst m2.
        cbv zeta. msimpl. auto.
    + exists (-1), (log (file_open_error (block_name id)) o).
      split; [reflexivity|]. split; [auto|]. split; [intros; lia|].
      intros _. split; [split; [discriminate | discriminate]|].
      split; [intros; contradiction | reflexivity].
  - destruct (w_disk (o_world o) (block_name id)) as [k|].
    + destruct (rd_bytes_ok P (Z.to_nat 1024) HW poffset o)
        as (bs & Hrd & Hl); [lia | nia |].
      destruct (rd_bytes_inv P _ _ _ _ _ Hrd) as (_ & _ & Hb & _).
      unfold bind. rewrite Hrd. unfold write_block, ret.
      eexists _, _. split; [reflexivity|].
      split; [destruct (_ =? 1024); auto|].
      split; [intros; lia|]. intros _. split; [|split].
      * destruct (file_buffered P); cbn [orb]; [now split|].
        destruct (Z.leb_spec 1024 k);
          [rewrite eqb_t by lia | rewrite eqb_f by lia];
          split; first [reflexivity | discriminate | lia].
      * intros _. msimpl. split; [reflexivity|].
        exists bs. split; [assumption|]. split.
        -- intros j Hj. apply Hb. lia.
        -- cbn [w_blocks]. now rewrite String.eqb_refl.
      * intros; contradiction.
    + exists (-1), (log (file_open_error (block_name id)) o).
      split; [reflexivity|]. split; [auto|]. split; [intros; lia|].
      intros _. split; [split; [discriminate | discriminate]|].
      split; [intros _; split; reflexivity | intros; contradiction].
Qed.

(** C7, amended. BSAVE and BLOAD pop the byte offset [x], call [blockio]
    and leave its status, converted to a cell, in [f]; the dispatch loop
    goes on in every case. The status is 0 or -1. An offset beyond
    [core_size * W - 1024] gives -1 and leaves the instance, memory
    included, exactly as it was. Any other offset gives 0 exactly when the
    block file opens and [fread] or [fwrite] reports all 1024 bytes, and
    then, as after a -1:
    - BSAVE has left the memory alone and the file holds, of the 1024
      bytes at [x], those the device took (all of them only if it took
      1024: what [fclose] reports is not looked at);
    - BLOAD has put the bytes it read, at most 1024, at [x] and changed no
      other byte of the memory;
    - a file that did not open has cost one diagnostic on stderr and
      nothing else. *)
Theorem block_io_status (P : platform) (v : vm) (i : instructions) (x : Z) :
  i = BSAVE \/ i = BLOAD ->
  0 < cell_bytes P ->
  Z.of_nat (length (o_m (obj v))) = core_size (obj v) ->
  BLOCK_SIZE <= core_size (obj v) * cell_bytes P < 2 ^ cell_bits P ->
  load (o_m (obj v)) (r_S v) = Some x ->
  0 <= x ->
  exists rc o',
    blockio P x (r_f v) (block_mode i) (obj v) = Ok rc o' /\
    exec P i v
      = Ok LOOP (with_f (set_obj (with_S v (r_S v - 1)) o') (cell P rc)) /\
    (rc = 0 \/ rc = -1) /\
    (core_size (obj v) * cell_bytes P - BLOCK_SIZE < x ->
     rc = -1 /\ o' = obj v) /\
    (x <= core_size (obj v) * cell_bytes P - BLOCK_SIZE ->
     (rc = 0 <-> reported P (obj v) (r_f v) (block_mode i) = true) /\
     (i = BSAVE -> block_written P (obj v) o' x (block_name (r_f v))) /\
     (i = BLOAD -> block_read P (obj v) o' x (block_name (r_f v)))).
Proof.
  intros Hi HW Hlen Hsz Hx Hx0.
  destruct (blockio_effect P (obj v) x (r_f v) (block_mode i) HW Hlen Hsz Hx0)
    as (rc & o' & Hb & Hrc & Hhi & Hlo).
  exists rc, o'. split; [exact Hb|]. split.
  { destruct Hi as [-> | ->]; unfold exec; cbn [block_mode] in Hb;
      mrun; rewrite Hx; msimpl; rewrite Hb; reflexivity. }
  split; [assumption|]. split; [assumption|].
  intros Hle. destruct (Hlo Hle) as (H0 & Hw & Hr).
  split; [assumption|]. split.
  - intros ->. apply Hw. cbn. discriminate.
  - intros ->. apply Hr. reflexivity.
Qed.

(** On the 128-cell instance (1024 bytes of memory) offset 42 is refused
    and nothing changes; offset 0 with block 5 present is a full
    transfer: status 0, and the first cell now holds eight bytes 'A'. *)
Lemma block_io_status_witness :
  (exists rc o',
     blockio lp64 42 5 119 (obj running) = Ok rc o' /\
     exec lp64 BSAVE running
       = Ok LOOP (with_f (set_obj (with_S running 64) o') (cell lp64 rc)) /\
     (rc = 0 \/ rc = -1) /\
     (128 * 8 - BLOCK_SIZE < 42 -> rc = -1 /\ o' = obj running) /\
     (42 <= 128 * 8 - BLOCK_SIZE ->
      (rc = 0 <-> reported lp64 (obj running) 5 119 = true) /\
      (BSAVE = BSAVE ->
       block_written lp64 (obj running) o' 42 (block_name 5)) /\
      (BSAVE = BLOAD ->
       block_read lp64 (obj running) o' 42 (block_name 5)))) /\
  (exists rc o',
     blockio lp64 0 5 114 (obj loading) = Ok rc o' /\
     exec lp64 BLOAD loading
       = Ok LOOP (with_f (set_obj (with_S loading 64) o') (cell lp64 rc)) /\
     (rc = 0 \/ rc = -1) /\
     (128 * 8 - BLOCK_SIZE < 0 -> rc = -1 /\ o' = obj loading) /\
     (0 <= 128 * 8 - BLOCK_SIZE ->
      (rc = 0 <-> reported lp64 (obj loading) 5 114 = true) /\
      (BLOAD = BSAVE ->
       block_written lp64 (obj loading) o' 0 (block_name 5)) /\
      (BLOAD = BLOAD ->
       block_read lp64 (obj loading) o' 0 (block_name 5)))) /\
  (exists v', exec lp64 BLOAD loading = Ok LOOP v' /\ r_f v' = 0 /\
              load (o_m (obj v')) 0 = Some 4702111234474983745).
Proof.
  split; [|split].
  - apply (block_io_status lp64 running BSAVE 42);
      first [ now left | reflexivity
            | vm_compute; repeat split; first [reflexivity | discriminate] ].
  - apply (block_io_status lp64 loading BLOAD 0);
      first [ now right | reflexivity
            | vm_compute; repeat split; first [reflexivity | discriminate] ].
  - eexists. split; [vm_compute; reflexivity|]. split; reflexivity.
Defined.

(** C7 as the spec states it fails: a 0 does not mean that the block was
    transferred. On the host [lp64], whose streams buffer a whole block,
    with a device that takes 100 bytes, BSAVE of the 1024 bytes at offset
    0 as block 7 returns 0: [fwrite] reported 1024 bytes, the failure
    showed when [fclose] flushed them, and the file holds 100 bytes. *)
Lemma block_io_counterexample :
  exists v' bs,
    file_buffered lp64 = true /\
    w_disk (o_world (obj saving)) (block_name 7) = Some 100 /\
    load (o_m (obj saving)) (r_S saving) = Some 0 /\
    exec lp64 BSAVE saving = Ok LOOP v' /\
    r_f v' = 0 /\
    w_blocks (o_world (obj v')) (block_name 7) = Some bs /\
    length bs = 100%nat.
Proof.
  eexists _, _. split; [reflexivity|]. split; [reflexivity|].
  split; [vm_compute; reflexivity|].
  split; [vm_compute; reflexivity|].
  split; [reflexivity|]. split; [vm_compute; reflexivity|]. reflexivity.
Qed.
